(** * Version installation orchestrator and launch supervisor

    A shallow embedding of two pieces of the launcher:

    - [install] of [useInstanceVersionInstall] (the version resolution and
      installation orchestrator), and
    - [LaunchService] ([#generateOptions], [generateArguments], [launch] and
      the handlers [launch] registers on the spawned process).

    Asynchronous code is embedded in a state-and-exception monad: an [await]
    is a bind, a rejected promise is a [Throw].  The collaborators of the
    code (installers, catalog services, the java service, the core launcher)
    are fields of a record of oracles; every call of a collaborator is
    recorded in a trace, so that "is never invoked" is a statement about the
    trace. *)

From Stdlib Require Import String Ascii List ZArith Bool Lia.
From Stdlib.Strings Require Import Byte.
From stdpp Require Import base option strings pretty gmap list.
Import ListNotations.

Local Open Scope string_scope.
Local Open Scope list_scope.

(** ** Results of calls that may throw *)

Inductive Outcome (E A : Type) : Type :=
| Ok (a : A)
| Throw (e : E).
Arguments Ok {E A} a.
Arguments Throw {E A} e.

Definition isOk {E A} (o : Outcome E A) : bool :=
  match o with Ok _ => true | Throw _ => false end.

(** A computation over a state [S] that may throw a value of type [E].  The
    state survives a throw: what was done before the throw stays done. *)
Definition Eff (S E A : Type) : Type := S -> Outcome E A * S.

Definition ret {S E A} (a : A) : Eff S E A := fun s => (Ok a, s).

Definition throw {S E A} (e : E) : Eff S E A := fun s => (Throw e, s).

Definition bind {S E A B} (m : Eff S E A) (k : A -> Eff S E B) : Eff S E B :=
  fun s =>
    match m s with
    | (Ok a, s') => k a s'
    | (Throw e, s') => (Throw e, s')
    end.

(** [try { m } catch (e) { h e }] *)
Definition tryCatch {S E A} (m : Eff S E A) (h : E -> Eff S E A) : Eff S E A :=
  fun s =>
    match m s with
    | (Ok a, s') => (Ok a, s')
    | (Throw e, s') => h e s'
    end.

(** The result of a collaborator, lifted into the monad. *)
Definition lift {S E A} (o : Outcome E A) : Eff S E A := fun s => (o, s).

(** [emitsOn tr P m]: whatever the state, [m] only appends to the trace
    [tr] of the state, and every event it appends satisfies [P]. *)
Definition emitsOn {S E Ev A} (tr : S -> list Ev) (P : Ev -> Prop)
    (m : Eff S E A) : Prop :=
  forall st, exists evs, tr (snd (m st)) = tr st ++ evs /\ Forall P evs.

Notation "'let!' x ':=' m 'in' k" := (bind m (fun x => k))
  (at level 10, x name, m at level 200, k at level 200).
Notation "'do!' m 'in' k" := (bind m (fun _ => k))
  (at level 10, m at level 200, k at level 200).

(** ** JavaScript strings and truthiness

    Strings are sequences of code units; the code units of this model are
    the 256 values of [ascii]. *)

(** [if (s)] for [s : string | undefined]: the value is usable exactly when
    it is defined and not the empty string. *)
Definition truthy (o : option string) : option string :=
  match o with
  | Some s => if String.eqb s "" then None else Some s
  | None => None
  end.

(** [s || d] *)
Definition orElse (o : option string) (d : string) : string :=
  match truthy o with Some s => s | None => d end.

(** [s.startsWith(p)] *)
Definition startsWith (s p : string) : bool := String.prefix p s.

(** [s.substring(a, b)]: both indices are clamped to [0, s.length] and
    swapped when [a > b]. *)
Definition clamp (n : Z) (s : string) : nat :=
  Z.to_nat (Z.min (Z.max n 0) (Z.of_nat (String.length s))).

Definition substring (s : string) (a b : Z) : string :=
  let a' := clamp a s in
  let b' := clamp b s in
  String.substring (Nat.min a' b') (Nat.max a' b' - Nat.min a' b') s.

(** [s.substring(a)] *)
Definition substringFrom (s : string) (a : Z) : string :=
  substring s a (Z.of_nat (String.length s)).

(** [!!s] for a string *)
Definition nonEmpty (s : string) : bool := negb (String.eqb s "").

(** [s.indexOf(p)]: the first position at which [p] occurs, or -1. *)
Fixpoint indexOfFrom (p s : string) (i : Z) : Z :=
  if String.prefix p s then i
  else match s with
       | EmptyString => (-1)%Z
       | String _ s' => indexOfFrom p s' (i + 1)%Z
       end.

Definition indexOf (s p : string) : Z := indexOfFrom p s 0.

(** [s.lastIndexOf(p)]: the last position at which [p] occurs, or -1. *)
Fixpoint lastIndexOfFrom (p s : string) (i : Z) : Z :=
  match s with
  | EmptyString => if String.prefix p s then i else (-1)%Z
  | String _ s' =>
      let later := lastIndexOfFrom p s' (i + 1)%Z in
      if (0 <=? later)%Z then later
      else if String.prefix p s then i else (-1)%Z
  end.

Definition lastIndexOf (s p : string) : Z := lastIndexOfFrom p s 0.

(** [s.replace(p, r)] with a string pattern: the first occurrence of [p]
    only. *)
Definition replace (s p r : string) : string :=
  let i := indexOf s p in
  if (i <? 0)%Z then s
  else substring s 0 i ++ r
       ++ substringFrom s (i + Z.of_nat (String.length p)).

(** The white space of [trim] among the code units of the model: TAB, LF,
    VT, FF, CR, space and the no-break space. *)
Definition isWhiteSpace (c : ascii) : bool :=
  let n := nat_of_ascii c in
  ((9 <=? n) && (n <=? 13) || (n =? 32) || (n =? 160))%nat.

Fixpoint trimStart (s : string) : string :=
  match s with
  | String c s' => if isWhiteSpace c then trimStart s' else s
  | EmptyString => EmptyString
  end.

Fixpoint trimEnd (s : string) : string :=
  match s with
  | String c s' =>
      match trimEnd s' with
      | EmptyString => if isWhiteSpace c then EmptyString else String c EmptyString
      | t => String c t
      end
  | EmptyString => EmptyString
  end.

(** [s.trim()] *)
Definition trim (s : string) : string := trimEnd (trimStart s).

(** [s.split(sep)] for a separator that is not empty.  [cur] is the piece
    being read, [skip] the number of code units of a separator still to be
    dropped. *)
Fixpoint splitFrom (sep s cur : string) (skip : nat) : list string :=
  match s with
  | EmptyString => [cur]
  | String c s' =>
      match skip with
      | S k => splitFrom sep s' cur k
      | O =>
          if String.prefix sep s
          then cur :: splitFrom sep s' EmptyString (String.length sep - 1)
          else splitFrom sep s' (cur ++ String c EmptyString) 0
      end
  end.

Definition split (s sep : string) : list string := splitFrom sep s EmptyString 0.

(** [l.join(sep)] *)
Definition join (l : list string) (sep : string) : string := String.concat sep l.

Definition CR : ascii := "013"%char.
Definition LF : ascii := "010"%char.
Definition CRLF : string := String CR (String LF EmptyString).

Definition newline : string := String LF EmptyString.


(** A thrown JavaScript error object: its message, its stack and its other
    own enumerable properties. *)
Record JsError : Type := {
  message : option string;
  stack : option string;
  props : list (string * string)
}.

(** * The installation orchestrator *)

Module Orchestrator.

Inductive Side : Type := client | server.

Module RuntimeVersions.
Record t : Type := {
    minecraft : string;
    forge : option string;
    neoForged : option string;
    fabricLoader : option string;
    quiltLoader : option string;
    optifine : option string;
    labyMod : option string
}.
End RuntimeVersions.

Module LocalVersionHeader.
Record t : Type := {
    id : string;
    minecraft : string;
    forge : string;
    neoForged : string;
    fabric : string;
    quilt : string;
    optifine : string;
    labyMod : string
}.
End LocalVersionHeader.

(** Catalog entries.  What an installer does with them is outside the
    excerpt, so they carry only the fields [install] reads. *)
Module MinecraftVersion.
Record t : Type := { id : string; url : string }.
End MinecraftVersion.

Module ForgeVersion.
Record t : Type := { version : string; installer : string }.
End ForgeVersion.

Definition LabyModManifest : Type := string.

(** The values kept by the metadata cache. *)
Inductive Catalog : Type :=
| MinecraftVersionList (versions : list MinecraftVersion.t)
| ForgeVersionList (versions : list ForgeVersion.t)
| NeoForgedVersionList (versions : list string)
| LabyModManifestValue (manifest : LabyModManifest).

(** Arguments of the installers. *)
Module InstallForgeOptions.
Record t : Type := {
    mcversion : string;
    version : string;
    installer : option string;
    side : Side
}.
End InstallForgeOptions.

Module InstallNeoForgedOptions.
Record t : Type := { version : string; minecraft : string }.
End InstallNeoForgedOptions.

Module InstallOptifineOptions.
Record t : Type := {
    type : string;
    patch : string;
    mcversion : string;
    inheritFrom : option string
}.
End InstallOptifineOptions.

Module InstallFabricOptions.
Record t : Type := { loader : string; minecraft : string }.
End InstallFabricOptions.

Module InstallQuiltOptions.
Record t : Type := { version : string; minecraftVersion : string }.
End InstallQuiltOptions.

Module InstallLabyModOptions.
Record t : Type := { manifest : LabyModManifest; minecraftVersion : string }.
End InstallLabyModOptions.

(** Every call that leaves [install]. *)
Inductive Event : Type :=
| CacheLookup (key : string)
| CatalogFetch (key : string)
| RefreshVersion (id : string)
| InstallMinecraft (metadata : option MinecraftVersion.t) (side : Side)
| InstallForge (o : InstallForgeOptions.t)
| InstallNeoForged (o : InstallNeoForgedOptions.t)
| InstallOptifine (o : InstallOptifineOptions.t)
| InstallFabric (o : InstallFabricOptions.t)
| InstallQuilt (o : InstallQuiltOptions.t)
| InstallLabyModVersion (o : InstallLabyModOptions.t).

Definition isCatalogFetch (e : Event) : bool :=
  match e with CatalogFetch _ => true | _ => false end.

Definition isInstallerCall (e : Event) : bool :=
  match e with
  | InstallMinecraft _ _ | InstallForge _ | InstallNeoForged _
  | InstallOptifine _ | InstallFabric _ | InstallQuilt _
  | InstallLabyModVersion _ => true
  | _ => false
  end.

(** The calls of the base-version block. *)
Definition baseEvent (e : Event) : Prop :=
  match e with
  | CacheLookup k | CatalogFetch k => k = "/minecraft-versions"
  | RefreshVersion _ | InstallMinecraft _ _ => True
  | _ => False
  end.

(** The calls of the Forge block. *)
Definition forgeEvent (minecraft : string) (e : Event) : Prop :=
  match e with
  | CacheLookup k | CatalogFetch k => k = ("/forge-versions/" ++ minecraft)%string
  | RefreshVersion _ | InstallForge _ => True
  | _ => False
  end.

(** The calls of the NeoForge block. *)
Definition neoForgedEvent (minecraft : string) (e : Event) : Prop :=
  match e with
  | CacheLookup k | CatalogFetch k => k = ("/neoforged-versions/" ++ minecraft)%string
  | RefreshVersion _ | InstallNeoForged _ => True
  | _ => False
  end.

(** The services [install] obtains through [useService], as oracles: each
    call either returns or rejects. *)
Record Services : Type := {
  getMinecraftVersionList : Outcome JsError (list MinecraftVersion.t);
  getForgeVersionList : string -> Outcome JsError (list ForgeVersion.t);
  getNeoForgedVersionList : string -> Outcome JsError (list string);
  getLabyModManifest : Outcome JsError LabyModManifest;
  refreshVersion : string -> Outcome JsError unit;
  installMinecraft : option MinecraftVersion.t -> Side -> Outcome JsError unit;
  installForge : InstallForgeOptions.t -> Outcome JsError string;
  installNeoForged : InstallNeoForgedOptions.t -> Outcome JsError string;
  installOptifine : InstallOptifineOptions.t -> Outcome JsError (string * string);
  installFabric : InstallFabricOptions.t -> Outcome JsError string;
  installQuilt : InstallQuiltOptions.t -> Outcome JsError string;
  installLabyModVersion : InstallLabyModOptions.t -> Outcome JsError string;
  parseOptifineVersion : string -> string * string
}.

(** The state [install] runs in: the process-wide metadata cache and the
    trace of the calls made so far, oldest first. *)
Record State : Type := {
  cache : gmap string Catalog;
  trace : list Event
}.

Definition M (A : Type) : Type := Eff State JsError A.

Definition emit (e : Event) : M unit :=
  fun st => (Ok tt, {| cache := cache st; trace := trace st ++ [e] |}).

(** A call of a service: the call is recorded, then it returns or rejects. *)
Definition call {A} (e : Event) (o : Outcome JsError A) : M A :=
  do! emit e in lift o.

(** Modelled from the spec: [useCacheFetch] of './cache' is not in the
    excerpt.  The spec describes it as [getOrFetch(key, fetcher)], memoized
    per process lifetime: a key already in the cache is answered from the
    cache without running the fetcher; otherwise the fetcher runs, and its
    result is kept under the key.  A fetcher that rejects leaves the cache
    as it is and the rejection reaches the caller. *)
Definition getCacheOrFetch (key : string) (fetcher : Outcome JsError Catalog)
  : M Catalog :=
  do! emit (CacheLookup key) in
  fun st =>
    match cache st !! key with
    | Some v => (Ok v, st)
    | None =>
        match fetcher with
        | Ok v =>
            (Ok v, {| cache := <[key := v]> (cache st);
                      trace := trace st ++ [CatalogFetch key] |})
        | Throw e =>
            (Throw e, {| cache := cache st;
                         trace := trace st ++ [CatalogFetch key] |})
        end
    end.

(** Reading a cached value at the type the caller expects.  The cache is
    keyed by path and each path is only ever filled by one fetcher, so the
    other cases are a [TypeError] on the first property access. *)
Definition typeError : JsError :=
  {| message := Some "TypeError"; stack := None; props := [] |}.

Definition asMinecraftVersions (c : Catalog) : M (list MinecraftVersion.t) :=
  match c with MinecraftVersionList l => ret l | _ => throw typeError end.

Definition asForgeVersions (c : Catalog) : M (list ForgeVersion.t) :=
  match c with ForgeVersionList l => ret l | _ => throw typeError end.

Definition asNeoForgedVersions (c : Catalog) : M (list string) :=
  match c with NeoForgedVersionList l => ret l | _ => throw typeError end.

Definition asLabyModManifest (c : Catalog) : M LabyModManifest :=
  match c with LabyModManifestValue m => ret m | _ => throw typeError end.

Definition mapOutcome {E A B} (f : A -> B) (o : Outcome E A) : Outcome E B :=
  match o with Ok a => Ok (f a) | Throw e => Throw e end.

Section Install.

Variable svc : Services.
(** [versions.value], the local version headers. *)
Variable versions : list LocalVersionHeader.t.

(** The base version: lines 29 to 41 of [install]. *)
Definition installBase (minecraft : string) (side : Side) (jar : bool) : M unit :=
  let! c := getCacheOrFetch "/minecraft-versions"
         (mapOutcome MinecraftVersionList (getMinecraftVersionList svc)) in
  let! mcVersions := asMinecraftVersions c in
  let local := versions in
  let localMinecraft :=
    find (fun v => String.eqb (LocalVersionHeader.id v) minecraft) local in
  match localMinecraft, jar with
  | Some localMinecraft, false =>
      call (RefreshVersion (LocalVersionHeader.id localMinecraft))
           (refreshVersion svc (LocalVersionHeader.id localMinecraft))
  | _, _ =>
      let metadata :=
        find (fun v => String.eqb (MinecraftVersion.id v) minecraft) mcVersions in
      match side with
      | client => call (InstallMinecraft metadata client)
                       (installMinecraft svc metadata client)
      | server => call (InstallMinecraft metadata server)
                       (installMinecraft svc metadata server)
      end
  end.

(** The Forge block: lines 43 to 55. Returns the new value of [forgeVersion]. *)
Definition installForgeBranch (minecraft : string) (forge : option string)
    (side : Side) : M (option string) :=
  let local := versions in
  match truthy forge with
  | Some forge =>
      let localForge :=
        find (fun v => String.eqb (LocalVersionHeader.forge v) forge
                       && String.eqb (LocalVersionHeader.minecraft v) minecraft)
             local in
      match localForge with
      | None =>
          let! c := getCacheOrFetch ("/forge-versions/" ++ minecraft)
                 (mapOutcome ForgeVersionList (getForgeVersionList svc minecraft)) in
          let! forgeVersions := asForgeVersions c in
          let found :=
            find (fun v => String.eqb (ForgeVersion.version v) forge) forgeVersions in
          let forgeVersionId :=
            match found with Some f => ForgeVersion.version f | None => forge end in
          let o := {| InstallForgeOptions.mcversion := minecraft;
                      InstallForgeOptions.version := forgeVersionId;
                      InstallForgeOptions.installer :=
                        option_map ForgeVersion.installer found;
                      InstallForgeOptions.side := side |} in
          let! r := call (InstallForge o) (installForge svc o) in
          ret (Some r)
      | Some localForge =>
          do! call (RefreshVersion (LocalVersionHeader.id localForge))
                   (refreshVersion svc (LocalVersionHeader.id localForge)) in
          ret (Some (LocalVersionHeader.id localForge))
      end
  | None => ret None
  end.

(** The NeoForge block: lines 57 to 68.  It is a statement of its own after
    the Forge block and assigns the same variable [forgeVersion]. *)
Definition installNeoForgedBranch (minecraft : string) (neoForged : option string)
    (forgeVersion : option string) : M (option string) :=
  let local := versions in
  match truthy neoForged with
  | Some neoForged =>
      let localNeoForge :=
        find (fun v => String.eqb (LocalVersionHeader.neoForged v) neoForged
                       && String.eqb (LocalVersionHeader.minecraft v) minecraft)
             local in
      match localNeoForge with
      | None =>
          let! c := getCacheOrFetch ("/neoforged-versions/" ++ minecraft)
                 (mapOutcome NeoForgedVersionList
                    (getNeoForgedVersionList svc minecraft)) in
          let! neoForgedVersion := asNeoForgedVersions c in
          let found := find (fun v => String.eqb v neoForged) neoForgedVersion in
          let id := match found with Some f => f | None => neoForged end in
          let o := {| InstallNeoForgedOptions.version := id;
                      InstallNeoForgedOptions.minecraft := minecraft |} in
          let! r := call (InstallNeoForged o) (installNeoForged svc o) in
          ret (Some r)
      | Some localNeoForge =>
          do! call (RefreshVersion (LocalVersionHeader.id localNeoForge))
                   (refreshVersion svc (LocalVersionHeader.id localNeoForge)) in
          ret (Some (LocalVersionHeader.id localNeoForge))
      end
  | None => ret forgeVersion
  end.

(** Lines 87 to 117: Fabric, then Quilt, then LabyMod, then the base id. *)
Definition installLoaders (runtime : RuntimeVersions.t) : M string :=
  let minecraft := RuntimeVersions.minecraft runtime in
  let local := versions in
  match truthy (RuntimeVersions.fabricLoader runtime) with
  | Some fabricLoader =>
      let localFabric :=
        find (fun v => String.eqb (LocalVersionHeader.fabric v) fabricLoader
                       && String.eqb (LocalVersionHeader.minecraft v)
                            (RuntimeVersions.minecraft runtime))
             local in
      match localFabric with
      | Some localFabric =>
          do! call (RefreshVersion (LocalVersionHeader.id localFabric))
                   (refreshVersion svc (LocalVersionHeader.id localFabric)) in
          ret (LocalVersionHeader.id localFabric)
      | None =>
          let o := {| InstallFabricOptions.loader := fabricLoader;
                      InstallFabricOptions.minecraft := minecraft |} in
          call (InstallFabric o) (installFabric svc o)
      end
  | None =>
  match truthy (RuntimeVersions.quiltLoader runtime) with
  | Some quiltLoader =>
      let localQuilt :=
        find (fun v => String.eqb (LocalVersionHeader.quilt v) quiltLoader
                       && String.eqb (LocalVersionHeader.minecraft v)
                            (RuntimeVersions.minecraft runtime))
             local in
      match localQuilt with
      | Some localQuilt =>
          do! call (RefreshVersion (LocalVersionHeader.id localQuilt))
                   (refreshVersion svc (LocalVersionHeader.id localQuilt)) in
          ret (LocalVersionHeader.id localQuilt)
      | None =>
          let o := {| InstallQuiltOptions.version := quiltLoader;
                      InstallQuiltOptions.minecraftVersion := minecraft |} in
          call (InstallQuilt o) (installQuilt svc o)
      end
  | None =>
  match truthy (RuntimeVersions.labyMod runtime) with
  | Some labyMod =>
      let localLabyMod :=
        find (fun v => String.eqb (LocalVersionHeader.labyMod v) labyMod
                       && String.eqb (LocalVersionHeader.minecraft v)
                            (RuntimeVersions.minecraft runtime))
             local in
      match localLabyMod with
      | Some localLabyMod =>
          do! call (RefreshVersion (LocalVersionHeader.id localLabyMod))
                   (refreshVersion svc (LocalVersionHeader.id localLabyMod)) in
          ret (LocalVersionHeader.id localLabyMod)
      | None =>
          let! c := getCacheOrFetch "/labymod"
                 (mapOutcome LabyModManifestValue (getLabyModManifest svc)) in
          let! manifest := asLabyModManifest c in
          let o := {| InstallLabyModOptions.manifest := manifest;
                      InstallLabyModOptions.minecraftVersion := minecraft |} in
          call (InstallLabyModVersion o) (installLabyModVersion svc o)
      end
  | None => ret minecraft
  end end end.

(** Lines 70 to 85 and what follows them: the Optifine block returns from
    [install]; otherwise a truthy [forgeVersion] is returned; otherwise the
    loaders are tried. *)
Definition installOptifineOrLoaders (runtime : RuntimeVersions.t)
    (forgeVersion : option string) : M string :=
  let minecraft := RuntimeVersions.minecraft runtime in
  let local := versions in
  match truthy (RuntimeVersions.optifine runtime) with
  | Some optifine =>
      let optifineVersion :=
        if startsWith optifine minecraft
        then substringFrom optifine (Z.of_nat (String.length minecraft))
        else optifine in
      let localOptifine :=
        find (fun v => String.eqb (LocalVersionHeader.minecraft v) minecraft
                       && String.eqb (LocalVersionHeader.optifine v) optifineVersion
                       && String.eqb (LocalVersionHeader.forge v)
                            (orElse forgeVersion ""))
             local in
      match localOptifine with
      | Some localOptifine =>
          do! call (RefreshVersion (LocalVersionHeader.id localOptifine))
                   (refreshVersion svc (LocalVersionHeader.id localOptifine)) in
          ret (LocalVersionHeader.id localOptifine)
      | None =>
          let '(type, patch) := parseOptifineVersion svc optifineVersion in
          let o := {| InstallOptifineOptions.type := type;
                      InstallOptifineOptions.patch := patch;
                      InstallOptifineOptions.mcversion := minecraft;
                      InstallOptifineOptions.inheritFrom := forgeVersion |} in
          let! r := call (InstallOptifine o) (installOptifine svc o) in
          ret (fst r)
      end
  | None =>
      match truthy forgeVersion with
      | Some forgeVersion => ret forgeVersion
      | None => installLoaders runtime
      end
  end.

(** What follows the base-version block in [install]: the Forge block,
    the NeoForge block, then the rest. *)
Definition afterBase (runtime : RuntimeVersions.t) (side : Side) : M string :=
  let minecraft := RuntimeVersions.minecraft runtime in
  let! forgeVersion :=
    installForgeBranch minecraft (RuntimeVersions.forge runtime) side in
  let! forgeVersion :=
    installNeoForgedBranch minecraft
      (RuntimeVersions.neoForged runtime) forgeVersion in
  installOptifineOrLoaders runtime forgeVersion.

(** [install(runtime, side, jar = false)] *)
Definition install (runtime : RuntimeVersions.t) (side : Side) (jar : bool)
  : M string :=
  let minecraft := RuntimeVersions.minecraft runtime in
  do! installBase minecraft side jar in
  afterBase runtime side.

End Install.

(** How many catalog fetches and installer invocations a trace holds. *)
Definition catalogFetches (tr : list Event) : nat :=
  length (List.filter isCatalogFetch tr).

Definition installerCalls (tr : list Event) : nat :=
  length (List.filter isInstallerCall tr).

(** Running [install] on a cache, with an empty trace: the events of the
    final trace are the calls of this one invocation. *)
Definition run {A} (m : M A) (c : gmap string Catalog) : Outcome JsError A * State :=
  m {| cache := c; trace := [] |}.

End Orchestrator.

(** * The launch service *)

Module LaunchService.

(** ** Entities of the runtime API and of the core launcher *)

Module GameProfile.
Record t : Type := { id : string; name : string }.
End GameProfile.

Module UserProfile.
Record t : Type := {
    id : string;
    username : string;
    selectedProfile : string;
    profiles : gmap string GameProfile.t
}.
End UserProfile.

Module ServerOptions.
Record t : Type := { host : string; port : option Z }.
End ServerOptions.

Module YggdrasilAgent.
Record t : Type := { jar : string; server : string; prefetched : option string }.
End YggdrasilAgent.

Module LaunchOptions.
Record t : Type := {
    version : string;
    gameDirectory : string;
    user : option UserProfile.t;
    java : string;
    server : option ServerOptions.t;
    yggdrasilAgent : option YggdrasilAgent.t;
    hideLauncher : option bool;
    showLog : option bool;
    launcherName : option string;
    launcherBrand : option string;
    maxMemory : option Z;
    minMemory : option Z;
    skipAssetsCheck : option bool;
    vmOptions : option (list string);
    mcOptions : option (list string)
}.
End LaunchOptions.

(** The type of the launch exceptions, with the payload the code gives each
    of them. *)
Inductive LaunchExceptions : Type :=
| launchNoVersionInstalled (options : LaunchOptions.t)
| launchGeneralException (error : JsError)
| launchNoProperJava (javaPath : string)
| launchInvalidJavaPath (javaPath : string)
| launchJavaNoPermission (javaPath : string)
| launchUserStatusRefreshFailed (userException : JsError).

Module LaunchException.
Record t : Type := { exception : LaunchExceptions; message : option string }.
End LaunchException.

(** The [type] field of a launch exception, and the types the runtime API
    declares. *)
Definition typeOf (e : LaunchExceptions) : string :=
  match e with
  | launchNoVersionInstalled _ => "launchNoVersionInstalled"
  | launchGeneralException _ => "launchGeneralException"
  | launchNoProperJava _ => "launchNoProperJava"
  | launchInvalidJavaPath _ => "launchInvalidJavaPath"
  | launchJavaNoPermission _ => "launchJavaNoPermission"
  | launchUserStatusRefreshFailed _ => "launchUserStatusRefreshFailed"
  end.

Definition taxonomy : list string :=
  [ "launchNoVersionInstalled"; "launchGeneralException"; "launchNoProperJava";
    "launchInvalidJavaPath"; "launchJavaNoPermission";
    "launchUserStatusRefreshFailed" ].

(** The two values that have no properties: reading a property of one of
    them throws a [TypeError]. *)
Inductive Nullish : Type := jsUndefined | jsNull.

(** What a [throw] or a rejected promise carries: a [LaunchException], any
    other value that has properties (an error object, with its message, its
    stack and its other own enumerable properties), or [undefined] or
    [null]. *)
Inductive Thrown : Type :=
| ThrownLaunch (e : LaunchException.t)
| ThrownError (e : JsError)
| ThrownNullish (v : Nullish).

(** [e instanceof LaunchException] *)
Definition instanceofLaunchException (e : Thrown) : bool :=
  match e with ThrownLaunch _ => true | _ => false end.

Definition typeError (msg : string) : Thrown :=
  ThrownError {| message := Some msg; stack := None; props := [] |}.

(** The [TypeError] of [(e as any).message] for [e] undefined or null. *)
Definition readOfNullish (v : Nullish) : Thrown :=
  typeError ("Cannot read properties of "
             ++ match v with jsUndefined => "undefined" | jsNull => "null" end
             ++ " (reading 'message')")%string.

Module ResolvedVersion.
Record t : Type := { id : string; minecraftVersion : string }.
End ResolvedVersion.

Definition Library : Type := string.
Definition Issue : Type := string.

Module LibraryIssue.
Record t : Type := { library : Library; hint : string }.
End LibraryIssue.

Inductive LaunchPrecheck : Type := checkNatives | linkAssets.

Module ExecOption.
Record t : Type := { detached : bool; cwd : string }.
End ExecOption.

Module ServerTarget.
Record t : Type := { ip : string; port : option Z }.
End ServerTarget.

(** [LaunchOption] of the core launcher, with the fields [#generateOptions]
    fills. *)
Module LaunchOption.
Record t : Type := {
    gameProfile : option GameProfile.t;
    accessToken : option string;
    gamePath : string;
    resourcePath : string;
    javaPath : string;
    minMemory : option Z;
    maxMemory : option Z;
    version : ResolvedVersion.t;
    extraExecOption : ExecOption.t;
    extraJVMArgs : option (list string);
    extraMCArgs : option (list string);
    launcherBrand : string;
    launcherName : string;
    yggdrasilAgent : option YggdrasilAgent.t;
    prechecks : list LaunchPrecheck;
    server : option ServerTarget.t
}.
End LaunchOption.

(** [JavaValidation] of '../entities/java'. *)
Inductive JavaValidation : Type := Okay | NotExisted | NoPermission.

Module ChildProcess.
Record t : Type := { pid : option Z; hasStdout : bool; hasStderr : bool }.
End ChildProcess.

(** [app.server.address()]: a pipe name, or a network address. *)
Inductive Address : Type :=
| PipeAddress (a : string)
| AddressInfo (port : Z).

(** The events of [LaunchServiceEventMap]. *)
Module ExitEvent.
Record t : Type := {
    pid : option Z;
    options : LaunchOptions.t;
    code : option Z;
    signal : option string;
    crashReport : option string;
    duration : Z;
    crashReportLocation : string;
    errorLog : string
}.
End ExitEvent.

Inductive ServiceEvent : Type :=
| minecraft_start (pid : option Z) (minecraft : string) (options : LaunchOptions.t)
| minecraft_stdout (pid : option Z) (stdout : string)
| minecraft_stderr (pid : option Z) (stderr : string)
| minecraft_exit (e : ExitEvent.t)
| minecraft_window_ready (pid : option Z) (options : LaunchOptions.t)
| error (e : LaunchException.t).

(** The calls that leave the service. *)
Inductive Call : Type :=
| VersionParse (root id : string)
| DiagnoseJar (v : ResolvedVersion.t) (root : string)
| InstallMinecraftJar (v : ResolvedVersion.t)
| DiagnoseLibraries (v : ResolvedVersion.t) (root : string)
| InstallLibraries (libs : list Library)
| UserTokenGet (user : UserProfile.t)
| ValidateJavaPath (javaPath : string)
| GenerateArguments (o : LaunchOption.t)
| Launch (o : LaunchOption.t)
| CreateMinecraftProcessWatcher (p : ChildProcess.t)
| Unref (p : ChildProcess.t).

(** The collaborators of the service, as oracles. *)
Record Env : Type := {
  getPath : string;
  serverAddress : option Address;
  serverListening : bool;
  (** The timing of the two branches of the assets check: whether the
      diagnosis of the jar settles before the diagnosis of the libraries,
      and whether the jar branch as a whole settles before the libraries
      branch. *)
  jarDiagnosedFirst : bool;
  jarSettledFirst : bool;
  Version_parse : string -> string -> Outcome Thrown ResolvedVersion.t;
  diagnoseJar : ResolvedVersion.t -> string -> Outcome Thrown (option Issue);
  diagnoseLibraries : ResolvedVersion.t -> string -> Outcome Thrown (list LibraryIssue.t);
  installMinecraftJar : ResolvedVersion.t -> Outcome Thrown unit;
  installLibraries : list Library -> Outcome Thrown unit;
  userTokenStorage_get : UserProfile.t -> Outcome Thrown (option string);
  validateJavaPath : string -> Outcome Thrown JavaValidation;
  core_generateArguments : LaunchOption.t -> Outcome Thrown (list string);
  core_launch : LaunchOption.t -> Outcome Thrown ChildProcess.t
}.

(** The state of the service: the registry of running processes (keyed by
    [process.pid], which may be [undefined]), the events it has emitted and
    the calls it has made, oldest first. *)
Record State : Type := {
  processes : gmap (option Z) ChildProcess.t;
  emitted : list ServiceEvent;
  calls : list Call
}.

Definition init : State := {| processes := ∅; emitted := []; calls := [] |}.

Definition L (A : Type) : Type := Eff State Thrown A.

Definition record (c : Call) : L unit :=
  fun st => (Ok tt, {| processes := processes st; emitted := emitted st;
                       calls := calls st ++ [c] |}).

Definition call {A} (c : Call) (o : Outcome Thrown A) : L A :=
  do! record c in lift o.

(** [this.emit(...)] *)
Definition emit (e : ServiceEvent) : L unit :=
  fun st => (Ok tt, {| processes := processes st; emitted := emitted st ++ [e];
                       calls := calls st |}).

(** [this.processes[pid] = process] *)
Definition register (p : ChildProcess.t) : L unit :=
  fun st => (Ok tt, {| processes := <[ChildProcess.pid p := p]> (processes st);
                       emitted := emitted st; calls := calls st |}).

(** An outcome is typed when it is a value or a [LaunchException] whose
    type is one of the declared ones. *)
Definition typed {A} (o : Outcome Thrown A) : Prop :=
  match o with
  | Ok _ => True
  | Throw (ThrownLaunch e) => In (typeOf (LaunchException.exception e)) taxonomy
  | Throw (ThrownError _) => False
  | Throw (ThrownNullish _) => False
  end.

(** [entry] is what the catch clause of an entry point makes of [body]:
    a value that has properties and is not a [LaunchException] is wrapped
    in a [launchGeneralException]; for [undefined] and [null] the wrapping
    itself throws. *)
Definition wraps {A} (body entry : Outcome Thrown A) : Prop :=
  match body with
  | Ok a => entry = Ok a
  | Throw (ThrownLaunch e) => entry = Throw (ThrownLaunch e)
  | Throw (ThrownError err) =>
      entry = Throw (ThrownLaunch
                {| LaunchException.exception := launchGeneralException err;
                   LaunchException.message := None |})
  | Throw (ThrownNullish v) => entry = Throw (readOfNullish v)
  end.

(** The calls that hand no launch configuration to the core launcher. *)
Definition quiet (c : Call) : Prop :=
  match c with
  | Launch _ | GenerateArguments _ => False
  | _ => True
  end.

(** The two memory bounds of the request are exchanged in [cfg]. *)
Definition exchanged (options : LaunchOptions.t) (cfg : LaunchOption.t) : Prop :=
  LaunchOption.minMemory cfg = LaunchOptions.maxMemory options /\
  LaunchOption.maxMemory cfg = LaunchOptions.minMemory options.

(** The shape of a run of an entry point: either it made quiet calls only
    and threw, or it made quiet calls, handed one configuration [cfg], in
    which the memory bounds are exchanged, to the core launcher (the call
    [main cfg]), and its result is [res cfg]. *)
Definition Shape {A} (options : LaunchOptions.t) (main : LaunchOption.t -> Call)
    (res : LaunchOption.t -> Outcome Thrown A) (m : L A) : Prop :=
  forall st, exists evs,
    calls (snd (m st)) = calls st ++ evs /\
    ((Forall quiet evs /\ isOk (fst (m st)) = false) \/
     (exists pre cfg post,
        evs = pre ++ main cfg :: post /\ Forall quiet pre /\ Forall quiet post /\
        exchanged options cfg /\ fst (m st) = res cfg)).

Section Service.

Variable env : Env.
(** [AUTHORITY_DEV] of the runtime API. *)
Variable AUTHORITY_DEV : string.

(** [getAddress] inside [#generateOptions].  [if (address)] fails for
    [null] and for the empty string. *)
Definition getAddress : L string :=
  let unexpected : L string :=
    throw (ThrownError
      {| message :=
           Some ("Unexpected state. The OfflineYggdrasilServer does not initialized? Listening: "
                 ++ (if serverListening env then "true" else "false"))%string;
         stack := None; props := [] |}) in
  match serverAddress env with
  | Some (PipeAddress address) =>
      if nonEmpty address
      then ret ("http://localhost" ++ substringFrom address (indexOf address ":")
                ++ "/yggdrasil")%string
      else unexpected
  | Some (AddressInfo port) =>
      ret ("http://localhost:" ++ pretty port ++ "/yggdrasil")%string
  | None => unexpected
  end.

(** [#generateOptions(options, version, accessToken)] *)
Definition generateOptions (options : LaunchOptions.t) (version : ResolvedVersion.t)
    (accessToken : option string) : L LaunchOption.t :=
  match LaunchOptions.user options with
  | None => throw (typeError "Cannot read properties of undefined (reading 'profiles')")
  | Some user =>
      let gameProfile :=
        UserProfile.profiles user !! UserProfile.selectedProfile user in
      let javaPath := LaunchOptions.java options in
      let yggdrasilAgent := LaunchOptions.yggdrasilAgent options in
      (* [new MinecraftFolder(options.gameDirectory).root] *)
      let minecraftFolder_root := LaunchOptions.gameDirectory options in
      let minMemory := LaunchOptions.maxMemory options in
      let maxMemory := LaunchOptions.minMemory options in
      let prechecks := [checkNatives; linkAssets] in
      let launchOptions (server : option ServerTarget.t) := {|
        LaunchOption.gameProfile := gameProfile;
        LaunchOption.accessToken := accessToken;
        LaunchOption.gamePath := minecraftFolder_root;
        LaunchOption.resourcePath := getPath env;
        LaunchOption.javaPath := javaPath;
        LaunchOption.minMemory := minMemory;
        LaunchOption.maxMemory := maxMemory;
        LaunchOption.version := version;
        LaunchOption.extraExecOption :=
          {| ExecOption.detached := true; ExecOption.cwd := minecraftFolder_root |};
        LaunchOption.extraJVMArgs :=
          option_map (List.filter nonEmpty) (LaunchOptions.vmOptions options);
        LaunchOption.extraMCArgs :=
          option_map (List.filter nonEmpty) (LaunchOptions.mcOptions options);
        LaunchOption.launcherBrand := default "" (LaunchOptions.launcherBrand options);
        LaunchOption.launcherName := default "XMCL" (LaunchOptions.launcherName options);
        LaunchOption.yggdrasilAgent := yggdrasilAgent;
        LaunchOption.prechecks := prechecks;
        LaunchOption.server := server
      |} in
      match LaunchOptions.server options with
      | Some server =>
          let! ip := (if String.eqb (ServerOptions.host server) AUTHORITY_DEV
                      then getAddress
                      else ret (ServerOptions.host server)) in
          ret (launchOptions
                 (Some {| ServerTarget.ip := ip;
                          ServerTarget.port := ServerOptions.port server |}))
      | None => ret (launchOptions None)
      end
  end.

(** The catch clause the two entry points share: a [LaunchException] is
    thrown again, anything else is wrapped.  The wrapping reads
    [(e as any).message], which throws for [undefined] and [null]: that
    [TypeError] is thrown inside the catch clause and leaves the entry
    point as it is. *)
Definition rethrow {A} (e : Thrown) : L A :=
  match e with
  | ThrownLaunch _ => throw e
  | ThrownError err =>
      throw (ThrownLaunch
        {| LaunchException.exception :=
             launchGeneralException
               {| message := message err; stack := stack err;
                  props := props err |};
           LaunchException.message := None |})
  | ThrownNullish v => throw (readOfNullish v)
  end.

(** What an entry point throws when its body throws [e]. *)
Definition caught (e : Thrown) : Thrown :=
  match e with
  | ThrownLaunch _ => e
  | ThrownError err =>
      ThrownLaunch {| LaunchException.exception := launchGeneralException err;
                      LaunchException.message := None |}
  | ThrownNullish v => readOfNullish v
  end.

(** The override version is parsed; a failure to parse is logged and leaves
    [version] undefined. *)
Definition resolveVersion (options : LaunchOptions.t) : L (option ResolvedVersion.t) :=
  if nonEmpty (LaunchOptions.version options)
  then tryCatch
         (let! v := call (VersionParse (getPath env) (LaunchOptions.version options))
                         (Version_parse env (getPath env) (LaunchOptions.version options)) in
          ret (Some v))
         (fun _ => ret None)
  else ret None.

Definition noVersionInstalled (options : LaunchOptions.t) : Thrown :=
  ThrownLaunch {| LaunchException.exception := launchNoVersionInstalled options;
                  LaunchException.message := None |}.

Definition noProperJava (javaPath : string) : Thrown :=
  ThrownLaunch {| LaunchException.exception := launchNoProperJava javaPath;
                  LaunchException.message := Some "Cannot launch without a valid java" |}.

(** [user ? await this.userTokenStorage.get(user).catch(() => undefined) : undefined] *)
Definition getAccessToken (user : option UserProfile.t) : L (option string) :=
  match user with
  | Some user =>
      tryCatch (call (UserTokenGet user) (userTokenStorage_get env user))
               (fun _ => ret None)
  | None => ret None
  end.

Definition generateArgumentsBody (options : LaunchOptions.t) : L (list string) :=
  let user := LaunchOptions.user options in
  let javaPath := LaunchOptions.java options in
  let! version := resolveVersion options in
  match version with
  | None => throw (noVersionInstalled options)
  | Some version =>
      if negb (nonEmpty javaPath)
      then throw (noProperJava (orElse (Some javaPath) ""))
      else
        let! accessToken := getAccessToken user in
        let! _options := generateOptions options version accessToken in
        let! args := call (GenerateArguments _options)
                          (core_generateArguments env _options) in
        ret args
  end.

(** [generateArguments(options)] *)
Definition generateArguments (options : LaunchOptions.t) : L (list string) :=
  tryCatch (generateArgumentsBody options) rethrow.

(** A promise that is left to settle: [p] runs to its end and its outcome
    is kept; a rejection does not stop what follows. *)
Definition settle {A} (p : L A) : L (Outcome Thrown A) :=
  fun st => let (o, st') := p st in (Ok o, st').

(** The assets check of [launch], lines 158 to 173:
    [Promise.all([diagnoseJar(..).then(..), diagnoseLibraries(..).then(..)])].
    Both diagnoses are called when the array is built, in its order.  The
    callback of each [then] runs once its diagnosis has settled, the one of
    the diagnosis that settles first running first; each branch runs to its
    end whatever becomes of the other.  The join is fulfilled when both
    branches are, and is rejected with the rejection that comes first in
    time: a branch that ends with its diagnosis has settled before the
    other when its diagnosis has; otherwise the environment decides. *)
Definition checkAssets (version : ResolvedVersion.t) : L unit :=
  let resolvedVersion := version in
  let resourceFolder := getPath env in
  let! issue := settle (call (DiagnoseJar resolvedVersion resourceFolder)
                             (diagnoseJar env resolvedVersion resourceFolder)) in
  let! libs := settle (call (DiagnoseLibraries version resourceFolder)
                            (diagnoseLibraries env version resourceFolder)) in
  let jarInstalls :=
    match issue with Ok (Some _) => true | _ => false end in
  let librariesInstall :=
    match libs with Ok libs => (0 <? length libs)%nat | Throw _ => false end in
  let thenJar : L unit :=
    match issue with
    | Ok (Some _) => call (InstallMinecraftJar resolvedVersion)
                          (installMinecraftJar env resolvedVersion)
    | Ok None => ret tt
    | Throw e => throw e
    end in
  let thenLibraries : L unit :=
    match libs with
    | Ok libs =>
        if (0 <? length libs)%nat
        then call (InstallLibraries (map LibraryIssue.library libs))
                  (installLibraries env (map LibraryIssue.library libs))
        else ret tt
    | Throw e => throw e
    end in
  let! settled :=
    (if jarDiagnosedFirst env
     then let! jar := settle thenJar in
          let! libraries := settle thenLibraries in
          ret (jar, libraries)
     else let! libraries := settle thenLibraries in
          let! jar := settle thenJar in
          ret (jar, libraries)) in
  let jarFirst :=
    if negb jarInstalls && jarDiagnosedFirst env then true
    else if negb librariesInstall && negb (jarDiagnosedFirst env) then false
    else jarSettledFirst env in
  match settled with
  | (Ok _, Ok _) => ret tt
  | (Throw e, Ok _) | (Ok _, Throw e) => throw e
  | (Throw jar, Throw libraries) => if jarFirst then throw jar else throw libraries
  end.

(** Lines 184 to 194 of [launch]: the validation of the java path, inside
    its own [try] whose [catch] throws [launchNoProperJava]. *)
Definition checkJava (javaPath : string) : L unit :=
  tryCatch
    (let! result := call (ValidateJavaPath javaPath) (validateJavaPath env javaPath) in
     match result with
     | NotExisted =>
         throw (ThrownLaunch
           {| LaunchException.exception := launchInvalidJavaPath javaPath;
              LaunchException.message := None |})
     | NoPermission =>
         throw (ThrownLaunch
           {| LaunchException.exception := launchJavaNoPermission javaPath;
              LaunchException.message := None |})
     | Okay => ret tt
     end)
    (fun e => throw (noProperJava javaPath)).

(** What [launch] does once the process is spawned: the process is
    registered, the start event is emitted, the watcher is created, the
    handlers are attached and the process is detached.  None of these
    throws. *)
Definition supervise (options : LaunchOptions.t) (version : ResolvedVersion.t)
    (process : ChildProcess.t) : L (option Z) :=
  do! register process in
  do! emit (minecraft_start (ChildProcess.pid process)
              (ResolvedVersion.minecraftVersion version) options) in
  do! record (CreateMinecraftProcessWatcher process) in
  do! record (Unref process) in
  ret (ChildProcess.pid process).

Definition launchBody (options : LaunchOptions.t) : L (option Z) :=
  let user := LaunchOptions.user options in
  let javaPath := LaunchOptions.java options in
  let! version := resolveVersion options in
  match version with
  | None => throw (noVersionInstalled options)
  | Some version =>
      do! (if negb (default false (LaunchOptions.skipAssetsCheck options))
           then checkAssets version
           else ret tt) in
      if negb (nonEmpty javaPath)
      then throw (noProperJava (orElse (Some javaPath) ""))
      else
        let! accessToken := getAccessToken user in
        let! launchOptions := generateOptions options version accessToken in
        do! checkJava javaPath in
        let! process := call (Launch launchOptions) (core_launch env launchOptions) in
        supervise options version process
  end.

(** [launch(options)] *)
Definition launch (options : LaunchOptions.t) : L (option Z) :=
  tryCatch (launchBody options) rethrow.

(** The result of [launch] once the configuration is handed over. *)
Definition spawned (cfg : LaunchOption.t) : Outcome Thrown (option Z) :=
  match core_launch env cfg with
  | Ok process => Ok (ChildProcess.pid process)
  | Throw e => Throw e
  end.

Definition catching {A} (o : Outcome Thrown A) : Outcome Thrown A :=
  match o with Ok a => Ok a | Throw e => Throw (caught e) end.

End Service.

End LaunchService.

(** * The handlers [launch] attaches to a spawned process

    After the spawn, [launch] attaches handlers to the stderr and stdout
    streams of the process and to its watcher.  The event loop runs one
    handler (or one continuation of an [await]) at a time; a run of the
    process is a sequence of such steps, and [step] says what each does to
    the session.  Which step comes next is not up to the code: theorems
    about the handlers hold for every sequence. *)

Module Handlers.
Import LaunchService.

Definition Buffer : Type := list Byte.byte.

(** The encoding worker. *)
Record EncodingWorker : Type := {
  guessEncodingByBuffer : Buffer -> Outcome Thrown (option string);
  decode : Buffer -> string -> Outcome Thrown string
}.

(** A promise returned by [processError]. *)
Inductive PromiseState : Type := Pending | Fulfilled | Rejected.

(** What the exit handler keeps for the callback of [finally]: the
    promises given to [Promise.all] are the first [awaited] ones of
    [errPromises]. *)
Module PendingExit.
Record t : Type := {
    awaited : nat;
    code : option Z;
    signal : option string;
    crashReport : option string;
    playTime : Z;
    crashReportLocation : option string
}.
End PendingExit.

Inductive ExitPhase : Type :=
| Alive
| Exiting (p : PendingExit.t)
| Exited.

Record Session : Type := {
  process : ChildProcess.t;
  options : LaunchOptions.t;
  startTime : Z;
  errorLogs : list string;
  errPromises : list (Buffer * PromiseState);
  phase : ExitPhase;
  processes : gmap (option Z) ChildProcess.t;
  emitted : list ServiceEvent
}.

(** The steps of the event loop that concern a session. *)
Inductive Action : Type :=
| StderrData (buf : Buffer)
| StdoutData (buf : Buffer)
| Settle (i : nat)
| WatcherError (err : JsError)
| WatcherExit (code : option Z) (signal crashReport crashReportLocation : option string)
              (endTime : Z)
| WatcherWindowReady
| Finally.

(** The session right after [launch] has attached the handlers. *)
Definition start (p : ChildProcess.t) (o : LaunchOptions.t) (now : Z)
    (registry : gmap (option Z) ChildProcess.t) : Session := {|
  process := p; options := o; startTime := now;
  errorLogs := []; errPromises := []; phase := Alive;
  processes := registry; emitted := []
|}.

(** Line 258: the location is cut after the last [".txt"]. *)
Definition truncateCrashReportLocation (crashReportLocation : option string)
  : option string :=
  match truthy crashReportLocation with
  | Some l => Some (substring l 0 (lastIndexOf l ".txt" + 4))
  | None => crashReportLocation
  end.

(** Line 268: the value put in the exit event. *)
Definition emittedCrashReportLocation (crashReportLocation : option string) : string :=
  match truthy crashReportLocation with
  | Some l => trim (replace l CRLF "")
  | None => ""
  end.

(** The [crashReportLocation] of the exit event, from the one the watcher
    reports. *)
Definition exitCrashReportLocation (crashReportLocation : option string) : string :=
  emittedCrashReportLocation (truncateCrashReportLocation crashReportLocation).

Definition isFulfilled (p : Buffer * PromiseState) : bool :=
  match snd p with Fulfilled => true | _ => false end.

Definition isRejected (p : Buffer * PromiseState) : bool :=
  match snd p with Rejected => true | _ => false end.

(** [Promise.all(ps)] is settled: fulfilled once each of [ps] is, rejected
    as soon as one of [ps] is. *)
Definition allSettled (ps : list (Buffer * PromiseState)) : bool :=
  forallb isFulfilled ps || existsb isRejected ps.

Section Handlers.

Variable encoder : EncodingWorker.
(** [UTF8] of '../util/encoding' and [EOL] of 'os'. *)
Variable UTF8 : string.
Variable EOL : string.

(** The text [processError] and [processLog] obtain from a chunk:
    a failure to guess the encoding is swallowed, a failure to decode is
    not. *)
Definition decodeChunk (buf : Buffer) : Outcome Thrown string :=
  let encoding :=
    match guessEncodingByBuffer encoder buf with
    | Ok e => e
    | Throw _ => None
    end in
  decode encoder buf (orElse encoding UTF8).

Definition setPromise (i : nat) (st : PromiseState) (s : Session) : Session := {|
  process := process s; options := options s; startTime := startTime s;
  errorLogs := errorLogs s;
  errPromises :=
    match errPromises s !! i with
    | Some (buf, _) => <[i := (buf, st)]> (errPromises s)
    | None => errPromises s
    end;
  phase := phase s; processes := processes s; emitted := emitted s
|}.

Definition emitEvent (e : ServiceEvent) (s : Session) : Session := {|
  process := process s; options := options s; startTime := startTime s;
  errorLogs := errorLogs s; errPromises := errPromises s;
  phase := phase s; processes := processes s; emitted := emitted s ++ [e]
|}.

Definition pushLines (lines : list string) (s : Session) : Session := {|
  process := process s; options := options s; startTime := startTime s;
  errorLogs := errorLogs s ++ lines; errPromises := errPromises s;
  phase := phase s; processes := processes s; emitted := emitted s
|}.

Definition exitEvent (s : Session) (p : PendingExit.t) : ExitEvent.t := {|
  ExitEvent.pid := ChildProcess.pid (process s);
  ExitEvent.options := options s;
  ExitEvent.code := PendingExit.code p;
  ExitEvent.signal := PendingExit.signal p;
  ExitEvent.crashReport := PendingExit.crashReport p;
  ExitEvent.duration := PendingExit.playTime p;
  ExitEvent.crashReportLocation :=
    emittedCrashReportLocation (PendingExit.crashReportLocation p);
  ExitEvent.errorLog := join (errorLogs s) (String LF EmptyString)
|}.

(** One step.  [None]: the step cannot happen in this state.
    - [StderrData]: the handler of ['data'] on stderr calls [processError]
      and pushes its promise;
    - [Settle i]: the decoding started by the [i]-th call of [processError]
      is over, and the rest of that call runs: on success the stderr event,
      the lines appended to [errorLogs]; on failure the promise rejects;
    - [WatcherExit]: the handler of ['minecraft-exit'] up to the call of
      [Promise.all] on the promises pushed so far, and the removal of the
      process from the registry; the watcher reports the exit of a process
      once;
    - [Finally]: the callback of [finally], once [Promise.all] is settled;
    - [StdoutData]: [processLog], whose promise nothing waits for. *)
Definition step (a : Action) (s : Session) : option Session :=
  match a with
  | StderrData buf =>
      if ChildProcess.hasStderr (process s)
      then Some {| process := process s; options := options s;
                   startTime := startTime s; errorLogs := errorLogs s;
                   errPromises := errPromises s ++ [(buf, Pending)];
                   phase := phase s; processes := processes s;
                   emitted := emitted s |}
      else None
  | Settle i =>
      match errPromises s !! i with
      | Some (buf, Pending) =>
          match decodeChunk buf with
          | Ok result =>
              let s1 := emitEvent (minecraft_stderr (ChildProcess.pid (process s)) result) s in
              let lines := split result EOL in
              Some (setPromise i Fulfilled (pushLines lines s1))
          | Throw _ => Some (setPromise i Rejected s)
          end
      | _ => None
      end
  | StdoutData buf =>
      if ChildProcess.hasStdout (process s)
      then match decodeChunk buf with
           | Ok result =>
               Some (emitEvent (minecraft_stdout (ChildProcess.pid (process s)) result) s)
           | Throw _ => Some s
           end
      else None
  | WatcherError err =>
      Some (emitEvent
              (error {| LaunchException.exception := launchGeneralException err;
                        LaunchException.message := None |}) s)
  | WatcherExit code signal crashReport crashReportLocation endTime =>
      match phase s with
      | Alive =>
          let playTime := (endTime - startTime s)%Z in
          let crashReportLocation := truncateCrashReportLocation crashReportLocation in
          Some {| process := process s; options := options s;
                  startTime := startTime s; errorLogs := errorLogs s;
                  errPromises := errPromises s;
                  phase := Exiting
                    {| PendingExit.awaited := length (errPromises s);
                       PendingExit.code := code;
                       PendingExit.signal := signal;
                       PendingExit.crashReport := crashReport;
                       PendingExit.playTime := playTime;
                       PendingExit.crashReportLocation := crashReportLocation |};
                  processes := delete (ChildProcess.pid (process s)) (processes s);
                  emitted := emitted s |}
      | _ => None
      end
  | WatcherWindowReady =>
      Some (emitEvent (minecraft_window_ready (ChildProcess.pid (process s)) (options s)) s)
  | Finally =>
      match phase s with
      | Exiting p =>
          if allSettled (take (PendingExit.awaited p) (errPromises s))
          then
            let s1 := emitEvent (minecraft_exit (exitEvent s p)) s in
            Some {| process := process s1; options := options s1;
                    startTime := startTime s1; errorLogs := errorLogs s1;
                    errPromises := errPromises s1; phase := Exited;
                    processes := processes s1; emitted := emitted s1 |}
          else None
      | _ => None
      end
  end.

(** A sequence of steps, from left to right. *)
Definition run (acts : list Action) (s : Session) : option Session :=
  fold_left (fun o a => match o with Some s => step a s | None => None end)
            acts (Some s).

(** The stderr chunks received before the watcher reports the exit. *)
Fixpoint chunksBeforeExit (acts : list Action) : list Buffer :=
  match acts with
  | [] => []
  | StderrData buf :: rest => buf :: chunksBeforeExit rest
  | WatcherExit _ _ _ _ _ :: _ => []
  | _ :: rest => chunksBeforeExit rest
  end.

Definition isStderrData (a : Action) : list Buffer :=
  match a with StderrData buf => [buf] | _ => [] end.

Definition isWatcherExit (a : Action) : bool :=
  match a with WatcherExit _ _ _ _ _ => true | _ => false end.

(** Whether the watcher has reported the exit. *)
Fixpoint hasExit (acts : list Action) : bool :=
  match acts with
  | [] => false
  | WatcherExit _ _ _ _ _ :: _ => true
  | _ :: rest => hasExit rest
  end.

(** The error log of an exit event is complete for a run: it is the join
    of a list of lines that holds the lines of every stderr chunk received
    before the exit. *)
Definition completeErrorLog (acts : list Action) (ev : ExitEvent.t) : Prop :=
  exists logs,
    ExitEvent.errorLog ev = join logs (String LF EmptyString) /\
    forall buf text,
      In buf (chunksBeforeExit acts) ->
      decodeChunk buf = Ok text ->
      incl (split text EOL) logs.

(** The hypothesis under which the claim holds: each chunk received before
    the exit can be decoded. *)
Definition chunksDecode (acts : list Action) : Prop :=
  forall buf, In buf (chunksBeforeExit acts) -> isOk (decodeChunk buf) = true.

(** What holds of every state a run reaches. *)
Record Inv (acts : list Action) (s : Session) : Prop := {
  inv_fulfilled : forall i buf,
    errPromises s !! i = Some (buf, Fulfilled) ->
    exists text, decodeChunk buf = Ok text /\ incl (split text EOL) (errorLogs s);
  inv_rejected : forall i buf,
    errPromises s !! i = Some (buf, Rejected) -> isOk (decodeChunk buf) = false;
  inv_alive :
    phase s = Alive ->
    hasExit acts = false /\ (errPromises s).*1 = chunksBeforeExit acts;
  inv_exiting : forall p,
    phase s = Exiting p ->
    hasExit acts = true /\ PendingExit.awaited p <= length (errPromises s) /\
    take (PendingExit.awaited p) ((errPromises s).*1) = chunksBeforeExit acts;
  inv_exited : phase s = Exited -> hasExit acts = true;
  inv_no_event : forall ev,
    In (minecraft_exit ev) (emitted s) -> phase s = Exited;
  inv_events : forall ev,
    In (minecraft_exit ev) (emitted s) -> chunksDecode acts -> completeErrorLog acts ev
}.

End Handlers.

End Handlers.

(** * Sample data *)

Module Samples.
Import Orchestrator.

(** Services that always succeed; the catalogs list one base version and
    nothing else. *)
Definition services : Services := {|
  getMinecraftVersionList :=
    Ok [ {| MinecraftVersion.id := "1.20.1"; MinecraftVersion.url := "" |} ];
  getForgeVersionList := fun _ => Ok [];
  getNeoForgedVersionList := fun _ => Ok [];
  getLabyModManifest := Ok "manifest";
  refreshVersion := fun _ => Ok tt;
  installMinecraft := fun _ _ => Ok tt;
  installForge := fun o =>
    Ok (InstallForgeOptions.mcversion o ++ "-forge-"
        ++ InstallForgeOptions.version o)%string;
  installNeoForged := fun o =>
    Ok ("neoforge-" ++ InstallNeoForgedOptions.version o)%string;
  installOptifine := fun o =>
    Ok ((InstallOptifineOptions.mcversion o ++ "-Optifine")%string, "");
  installFabric := fun o =>
    Ok (InstallFabricOptions.minecraft o ++ "-fabric"
        ++ InstallFabricOptions.loader o)%string;
  installQuilt := fun o =>
    Ok (InstallQuiltOptions.minecraftVersion o ++ "-quilt"
        ++ InstallQuiltOptions.version o)%string;
  installLabyModVersion := fun o => Ok "labymod";
  parseOptifineVersion := fun s => (s, "")
|}.

Definition header (id minecraft forge : string) : LocalVersionHeader.t := {|
  LocalVersionHeader.id := id;
  LocalVersionHeader.minecraft := minecraft;
  LocalVersionHeader.forge := forge;
  LocalVersionHeader.neoForged := "";
  LocalVersionHeader.fabric := "";
  LocalVersionHeader.quilt := "";
  LocalVersionHeader.optifine := "";
  LocalVersionHeader.labyMod := ""
|}.

(** A store holding the base version and a Forge version built on it. *)
Definition forgeInstalled : list LocalVersionHeader.t :=
  [ header "1.20.1" "1.20.1" ""; header "1.20.1-forge-47.2.0" "1.20.1" "47.2.0" ].

Definition request (forge neoForged fabricLoader quiltLoader : option string)
  : RuntimeVersions.t := {|
  RuntimeVersions.minecraft := "1.20.1";
  RuntimeVersions.forge := forge;
  RuntimeVersions.neoForged := neoForged;
  RuntimeVersions.fabricLoader := fabricLoader;
  RuntimeVersions.quiltLoader := quiltLoader;
  RuntimeVersions.optifine := None;
  RuntimeVersions.labyMod := None
|}.

(** A cache that already holds the catalogs of the base versions and of
    NeoForge for 1.20.1. *)
Definition warmCache : gmap string Catalog :=
  <[ "/neoforged-versions/1.20.1" := NeoForgedVersionList [] ]>
    {[ "/minecraft-versions" := MinecraftVersionList [] ]}.

(** A catalog that does not know the requested base version. *)
Definition staleServices : Services := {|
  getMinecraftVersionList :=
    Ok [ {| MinecraftVersion.id := "1.19.4"; MinecraftVersion.url := "" |} ];
  getForgeVersionList := getForgeVersionList services;
  getNeoForgedVersionList := getNeoForgedVersionList services;
  getLabyModManifest := getLabyModManifest services;
  refreshVersion := refreshVersion services;
  installMinecraft := installMinecraft services;
  installForge := installForge services;
  installNeoForged := installNeoForged services;
  installOptifine := installOptifine services;
  installFabric := installFabric services;
  installQuilt := installQuilt services;
  installLabyModVersion := installLabyModVersion services;
  parseOptifineVersion := parseOptifineVersion services
|}.

(** A user with one profile, and options that launch version 1.20.1 with
    the java at [/usr/bin/java], without the assets check. *)
Definition steve : LaunchService.GameProfile.t :=
  {| LaunchService.GameProfile.id := "0001"; LaunchService.GameProfile.name := "Steve" |}.

Definition user : LaunchService.UserProfile.t := {|
  LaunchService.UserProfile.id := "user";
  LaunchService.UserProfile.username := "steve@example.com";
  LaunchService.UserProfile.selectedProfile := "0001";
  LaunchService.UserProfile.profiles := {[ "0001" := steve ]}
|}.

Definition launchOptions (user : option LaunchService.UserProfile.t)
  : LaunchService.LaunchOptions.t := {|
  LaunchService.LaunchOptions.version := "1.20.1";
  LaunchService.LaunchOptions.gameDirectory := "/home/steve/.minecraft";
  LaunchService.LaunchOptions.user := user;
  LaunchService.LaunchOptions.java := "/usr/bin/java";
  LaunchService.LaunchOptions.server := None;
  LaunchService.LaunchOptions.yggdrasilAgent := None;
  LaunchService.LaunchOptions.hideLauncher := None;
  LaunchService.LaunchOptions.showLog := None;
  LaunchService.LaunchOptions.launcherName := None;
  LaunchService.LaunchOptions.launcherBrand := None;
  LaunchService.LaunchOptions.maxMemory := Some 4096%Z;
  LaunchService.LaunchOptions.minMemory := Some 1024%Z;
  LaunchService.LaunchOptions.skipAssetsCheck := Some true;
  LaunchService.LaunchOptions.vmOptions := None;
  LaunchService.LaunchOptions.mcOptions := None
|}.

Definition resolved : LaunchService.ResolvedVersion.t :=
  {| LaunchService.ResolvedVersion.id := "1.20.1";
     LaunchService.ResolvedVersion.minecraftVersion := "1.20.1" |}.

Definition child : LaunchService.ChildProcess.t :=
  {| LaunchService.ChildProcess.pid := Some 4242%Z;
     LaunchService.ChildProcess.hasStdout := true;
     LaunchService.ChildProcess.hasStderr := true |}.

(** An environment in which every collaborator succeeds; [java] is what
    the java service answers about the java path. *)
Definition environment (java : LaunchService.JavaValidation) : LaunchService.Env := {|
  LaunchService.getPath := "/home/steve/.minecraft";
  LaunchService.serverAddress := None;
  LaunchService.serverListening := false;
  LaunchService.jarDiagnosedFirst := true;
  LaunchService.jarSettledFirst := true;
  LaunchService.Version_parse := fun _ _ => Ok resolved;
  LaunchService.diagnoseJar := fun _ _ => Ok None;
  LaunchService.diagnoseLibraries := fun _ _ => Ok [];
  LaunchService.installMinecraftJar := fun _ => Ok tt;
  LaunchService.installLibraries := fun _ => Ok tt;
  LaunchService.userTokenStorage_get := fun _ => Ok (Some "token");
  LaunchService.validateJavaPath := fun _ => Ok java;
  LaunchService.core_generateArguments := fun _ => Ok ["-jar"];
  LaunchService.core_launch := fun _ => Ok child
|}.

(** An encoding worker that cannot decode a chunk holding the byte [xff]
    and reads any other chunk byte by byte. *)
Definition encoder : Handlers.EncodingWorker := {|
  Handlers.guessEncodingByBuffer := fun _ => Ok (Some "utf8");
  Handlers.decode := fun buf _ =>
    if existsb (Byte.eqb xff) buf
    then Throw (LaunchService.ThrownError
                  {| message := Some "cannot decode"; stack := None; props := [] |})
    else Ok (string_of_list_byte buf)
|}.

Definition session : Handlers.Session :=
  Handlers.start child (launchOptions (Some user)) 0%Z {[ Some 4242%Z := child ]}.

Definition boom : Handlers.Buffer := list_byte_of_string "boom".

(** One chunk, decoded after the exit was reported and before the exit
    event. *)
Definition quietExit : list Handlers.Action :=
  [ Handlers.StderrData boom;
    Handlers.WatcherExit (Some 1%Z) None None None 10%Z;
    Handlers.Settle 0;
    Handlers.Finally ].

(** Two chunks; the first cannot be decoded and the second is still being
    decoded when the exit event is emitted. *)
Definition earlyExit : list Handlers.Action :=
  [ Handlers.StderrData [xff];
    Handlers.StderrData boom;
    Handlers.Settle 0;
    Handlers.WatcherExit (Some 1%Z) None None None 10%Z;
    Handlers.Finally;
    Handlers.Settle 1 ].

Definition exitEventOf (errorLog : string) : LaunchService.ExitEvent.t := {|
  LaunchService.ExitEvent.pid := Some 4242%Z;
  LaunchService.ExitEvent.options := launchOptions (Some user);
  LaunchService.ExitEvent.code := Some 1%Z;
  LaunchService.ExitEvent.signal := None;
  LaunchService.ExitEvent.crashReport := None;
  LaunchService.ExitEvent.duration := 10%Z;
  LaunchService.ExitEvent.crashReportLocation := "";
  LaunchService.ExitEvent.errorLog := errorLog
|}.

End Samples.

(** * More sample data *)

Module MoreSamples.
Import Orchestrator.

(** A request that names Optifine and Fabric, and maybe Forge. *)
Definition withOptifine (forge : option string) (optifine : string)
  : RuntimeVersions.t := {|
  RuntimeVersions.minecraft := "1.20.1";
  RuntimeVersions.forge := forge;
  RuntimeVersions.neoForged := None;
  RuntimeVersions.fabricLoader := Some "0.15.0"%string;
  RuntimeVersions.quiltLoader := None;
  RuntimeVersions.optifine := Some optifine;
  RuntimeVersions.labyMod := None
|}.

Definition forgeHeader : LocalVersionHeader.t :=
  Samples.header "1.20.1-forge-47.2.0" "1.20.1" "47.2.0".

(** Launch options with the assets check, with an empty string among the
    extra JVM arguments. *)
Definition launchOptions (version java : string)
    (server : option LaunchService.ServerOptions.t)
  : LaunchService.LaunchOptions.t := {|
  LaunchService.LaunchOptions.version := version;
  LaunchService.LaunchOptions.gameDirectory := "/home/steve/.minecraft";
  LaunchService.LaunchOptions.user := Some Samples.user;
  LaunchService.LaunchOptions.java := java;
  LaunchService.LaunchOptions.server := server;
  LaunchService.LaunchOptions.yggdrasilAgent := None;
  LaunchService.LaunchOptions.hideLauncher := None;
  LaunchService.LaunchOptions.showLog := None;
  LaunchService.LaunchOptions.launcherName := None;
  LaunchService.LaunchOptions.launcherBrand := None;
  LaunchService.LaunchOptions.maxMemory := None;
  LaunchService.LaunchOptions.minMemory := None;
  LaunchService.LaunchOptions.skipAssetsCheck := None;
  LaunchService.LaunchOptions.vmOptions := Some ["-Xmx2G"; ""; "-Dfoo=bar"]%string;
  LaunchService.LaunchOptions.mcOptions := None
|}.

(** A request for the server of the launcher's own authority. *)
Definition toAuthority : LaunchService.LaunchOptions.t :=
  launchOptions "1.20.1" "/usr/bin/java"
    (Some {| LaunchService.ServerOptions.host := "dev";
             LaunchService.ServerOptions.port := Some 25565%Z |}).

(** A process the core launcher could not give a pid. *)
Definition orphan : LaunchService.ChildProcess.t :=
  {| LaunchService.ChildProcess.pid := None;
     LaunchService.ChildProcess.hasStdout := true;
     LaunchService.ChildProcess.hasStderr := true |}.

(** An environment in which every collaborator succeeds, the server of the
    launcher is at [address] and the core launcher spawns [spawn]. *)
Definition environment (address : option LaunchService.Address)
    (spawn : LaunchService.ChildProcess.t) : LaunchService.Env := {|
  LaunchService.getPath := "/home/steve/.minecraft";
  LaunchService.serverAddress := address;
  LaunchService.serverListening := false;
  LaunchService.jarDiagnosedFirst := true;
  LaunchService.jarSettledFirst := true;
  LaunchService.Version_parse := fun _ _ => Ok Samples.resolved;
  LaunchService.diagnoseJar := fun _ _ => Ok None;
  LaunchService.diagnoseLibraries := fun _ _ => Ok [];
  LaunchService.installMinecraftJar := fun _ => Ok tt;
  LaunchService.installLibraries := fun _ => Ok tt;
  LaunchService.userTokenStorage_get := fun _ => Ok (Some "token"%string);
  LaunchService.validateJavaPath := fun _ => Ok LaunchService.Okay;
  LaunchService.core_generateArguments := fun _ => Ok ["-jar"%string];
  LaunchService.core_launch := fun _ => Ok spawn
|}.

(** An environment in which the core launcher rejects with [undefined]
    whatever it is asked, and every other collaborator succeeds. *)
Definition rejecting : LaunchService.Env := {|
  LaunchService.getPath := "/home/steve/.minecraft";
  LaunchService.serverAddress := None;
  LaunchService.serverListening := false;
  LaunchService.jarDiagnosedFirst := true;
  LaunchService.jarSettledFirst := true;
  LaunchService.Version_parse := fun _ _ => Ok Samples.resolved;
  LaunchService.diagnoseJar := fun _ _ => Ok None;
  LaunchService.diagnoseLibraries := fun _ _ => Ok [];
  LaunchService.installMinecraftJar := fun _ => Ok tt;
  LaunchService.installLibraries := fun _ => Ok tt;
  LaunchService.userTokenStorage_get := fun _ => Ok (Some "token"%string);
  LaunchService.validateJavaPath := fun _ => Ok LaunchService.Okay;
  LaunchService.core_generateArguments :=
    fun _ => Throw (LaunchService.ThrownNullish LaunchService.jsUndefined);
  LaunchService.core_launch :=
    fun _ => Throw (LaunchService.ThrownNullish LaunchService.jsUndefined)
|}.

(** The session at the end of [Samples.quietExit]. *)
Definition quietExitEnd : Handlers.Session := {|
  Handlers.process := Samples.child;
  Handlers.options := Samples.launchOptions (Some Samples.user);
  Handlers.startTime := 0%Z;
  Handlers.errorLogs := ["boom"%string];
  Handlers.errPromises := [(Samples.boom, Handlers.Fulfilled)];
  Handlers.phase := Handlers.Exited;
  Handlers.processes := delete (Some 4242%Z) {[ Some 4242%Z := Samples.child ]};
  Handlers.emitted :=
    [ LaunchService.minecraft_stderr (Some 4242%Z) "boom";
      LaunchService.minecraft_exit (Samples.exitEventOf "boom") ]
|}.

End MoreSamples.

(** * More vocabulary for the orchestrator

    What a call of [install] may ask of its collaborators, event by
    event. *)

Module OrchestratorSpec.
Import Orchestrator.

(** The four cache keys of a request for the base version [minecraft]. *)
Definition catalogKeys (minecraft : string) : list string :=
  [ "/minecraft-versions"%string;
    ("/forge-versions/" ++ minecraft)%string;
    ("/neoforged-versions/" ++ minecraft)%string;
    "/labymod"%string ].

(** The call is about the base version [minecraft] (and, where the
    installer takes one, the side [side]): a catalog of that base version,
    or an installer called for it. *)
Definition targets (minecraft : string) (side : Side) (e : Event) : Prop :=
  match e with
  | CacheLookup k | CatalogFetch k => In k (catalogKeys minecraft)
  | RefreshVersion _ => True
  | InstallMinecraft metadata s =>
      s = side /\ forall m, metadata = Some m -> MinecraftVersion.id m = minecraft
  | InstallForge o =>
      InstallForgeOptions.mcversion o = minecraft /\ InstallForgeOptions.side o = side
  | InstallNeoForged o => InstallNeoForgedOptions.minecraft o = minecraft
  | InstallOptifine o => InstallOptifineOptions.mcversion o = minecraft
  | InstallFabric o => InstallFabricOptions.minecraft o = minecraft
  | InstallQuilt o => InstallQuiltOptions.minecraftVersion o = minecraft
  | InstallLabyModVersion o => InstallLabyModOptions.minecraftVersion o = minecraft
  end.

(** A loader installer is called with the version string of the request. *)
Definition asRequested (runtime : RuntimeVersions.t) (e : Event) : Prop :=
  match e with
  | InstallForge o =>
      truthy (RuntimeVersions.forge runtime) = Some (InstallForgeOptions.version o)
  | InstallNeoForged o =>
      truthy (RuntimeVersions.neoForged runtime)
      = Some (InstallNeoForgedOptions.version o)
  | InstallFabric o =>
      truthy (RuntimeVersions.fabricLoader runtime)
      = Some (InstallFabricOptions.loader o)
  | InstallQuilt o =>
      truthy (RuntimeVersions.quiltLoader runtime)
      = Some (InstallQuiltOptions.version o)
  | _ => True
  end.

(** A refresh is the refresh of a local header, found by its id or by the
    base version it was built for. *)
Definition refreshesLocal (versions : list LocalVersionHeader.t)
    (minecraft : string) (e : Event) : Prop :=
  match e with
  | RefreshVersion id =>
      exists h, In h versions /\ LocalVersionHeader.id h = id /\
                (id = minecraft \/ LocalVersionHeader.minecraft h = minecraft)
  | _ => True
  end.

(** The base installer runs only when it has to. *)
Definition baseWhenNeeded (versions : list LocalVersionHeader.t)
    (minecraft : string) (jar : bool) (e : Event) : Prop :=
  match e with
  | InstallMinecraft _ _ =>
      jar = true \/
      find (fun v => String.eqb (LocalVersionHeader.id v) minecraft) versions = None
  | _ => True
  end.

(** All of the above. *)
Definition sound (versions : list LocalVersionHeader.t) (runtime : RuntimeVersions.t)
    (side : Side) (jar : bool) (e : Event) : Prop :=
  targets (RuntimeVersions.minecraft runtime) side e /\
  asRequested runtime e /\
  refreshesLocal versions (RuntimeVersions.minecraft runtime) e /\
  baseWhenNeeded versions (RuntimeVersions.minecraft runtime) jar e.

(** The calls of the Fabric, Quilt and LabyMod blocks. *)
Definition isLoaderEvent (e : Event) : bool :=
  match e with
  | InstallFabric _ | InstallQuilt _ | InstallLabyModVersion _ => true
  | CacheLookup k | CatalogFetch k => String.eqb k "/labymod"
  | _ => false
  end.

(** A request for the base version alone. *)
Definition plain (runtime : RuntimeVersions.t) : Prop :=
  truthy (RuntimeVersions.forge runtime) = None /\
  truthy (RuntimeVersions.neoForged runtime) = None /\
  truthy (RuntimeVersions.optifine runtime) = None /\
  truthy (RuntimeVersions.fabricLoader runtime) = None /\
  truthy (RuntimeVersions.quiltLoader runtime) = None /\
  truthy (RuntimeVersions.labyMod runtime) = None.

(** The arguments of the Optifine installer for the version string [v] on
    the parent [inheritFrom]. *)
Definition optifineOptions (svc : Services) (minecraft v : string)
    (inheritFrom : option string) : InstallOptifineOptions.t :=
  {| InstallOptifineOptions.type := fst (parseOptifineVersion svc v);
     InstallOptifineOptions.patch := snd (parseOptifineVersion svc v);
     InstallOptifineOptions.mcversion := minecraft;
     InstallOptifineOptions.inheritFrom := inheritFrom |}.

End OrchestratorSpec.

(** * More of the launch service *)

Module LaunchSpec.
Import LaunchService.

(** [kill(pid)]: the entry of [pid] is read and deleted, and the process
    that was read, if any, is killed.  The result is the process on which
    [kill()] is called. *)
Definition kill (pid : Z) : L (option ChildProcess.t) :=
  fun st =>
    let process := processes st !! Some pid in
    (Ok process,
     {| processes := delete (Some pid) (processes st);
        emitted := emitted st; calls := calls st |}).

(** A computation that leaves the registry and the emitted events as they
    are. *)
Definition keeps {A} (m : L A) : Prop :=
  forall st, processes (snd (m st)) = processes st /\
             emitted (snd (m st)) = emitted st.

(** The kinds of calls. *)
Definition isVersionParse (c : Call) : bool :=
  match c with VersionParse _ _ => true | _ => false end.

Definition isAssetsCall (c : Call) : bool :=
  match c with
  | DiagnoseJar _ _ | InstallMinecraftJar _ | DiagnoseLibraries _ _
  | InstallLibraries _ => true
  | _ => false
  end.

Definition isUserTokenGet (c : Call) : bool :=
  match c with UserTokenGet _ => true | _ => false end.

Definition isGenerateArguments (c : Call) : bool :=
  match c with GenerateArguments _ => true | _ => false end.

(** The access token [launch] obtains for a user: none when the token
    storage rejects. *)
Definition tokenOf (env : Env) (user : UserProfile.t) : option string :=
  match userTokenStorage_get env user with
  | Ok token => token
  | Throw _ => None
  end.

(** What is known of a configuration when [launch] hands it to the
    spawner: the override version was parsed to [version cfg], the java
    path is not empty and the java service has answered [Okay] for it, the
    request has a user, and [cfg] is what [#generateOptions] returns for
    that version and the token of that user. *)
Definition Handed (env : Env) (AUTHORITY_DEV : string) (options : LaunchOptions.t)
    (cfg : LaunchOption.t) : Prop :=
  exists version user,
    nonEmpty (LaunchOptions.version options) = true /\
    Version_parse env (getPath env) (LaunchOptions.version options) = Ok version /\
    nonEmpty (LaunchOptions.java options) = true /\
    validateJavaPath env (LaunchOptions.java options) = Ok Okay /\
    LaunchOptions.user options = Some user /\
    fst (generateOptions env AUTHORITY_DEV options version (tokenOf env user) init)
      = Ok cfg.

(** Calls of [launch] for which [Handed] has to hold. *)
Definition handsOver (env : Env) (AUTHORITY_DEV : string) (options : LaunchOptions.t)
    (c : Call) : Prop :=
  match c with
  | Launch cfg => Handed env AUTHORITY_DEV options cfg
  | _ => True
  end.

(** The repairs of the assets check follow a diagnosis: the jar is only
    installed for a version whose jar has an issue, and the libraries that
    are installed are the ones of a diagnosis that found some. *)
Definition repairs (env : Env) (c : Call) : Prop :=
  match c with
  | InstallMinecraftJar v =>
      exists issue, diagnoseJar env v (getPath env) = Ok (Some issue)
  | InstallLibraries libs =>
      libs <> [] /\
      exists v issues,
        diagnoseLibraries env v (getPath env) = Ok issues /\
        libs = map LibraryIssue.library issues
  | _ => True
  end.

(** The address the offline authority is reached at: [getAddress] without
    its failure. *)
Definition localAuthority (a : Address) : string :=
  match a with
  | PipeAddress address =>
      ("http://localhost" ++ substringFrom address (indexOf address ":")
       ++ "/yggdrasil")%string
  | AddressInfo port => ("http://localhost:" ++ pretty port ++ "/yggdrasil")%string
  end.

(** The calls [launch] makes before it builds a configuration. *)
Definition preflight (c : Call) : bool :=
  isVersionParse c || isAssetsCall c || isUserTokenGet c.

(** The state after [launch], by its outcome: a failed launch leaves the
    registry and the emitted events as they were; a launch that returns
    [pid] has spawned a process of that pid for the parsed version, has
    registered it under its pid and has emitted the start event, and
    nothing else. *)
Definition started (env : Env) (options : LaunchOptions.t) (st : State)
    (r : Outcome Thrown (option Z)) (st' : State) : Prop :=
  match r with
  | Throw _ => processes st' = processes st /\ emitted st' = emitted st
  | Ok pid =>
      exists version cfg process,
        Version_parse env (getPath env) (LaunchOptions.version options) = Ok version /\
        core_launch env cfg = Ok process /\
        pid = ChildProcess.pid process /\
        processes st' = <[pid := process]> (processes st) /\
        emitted st' =
          emitted st ++ [minecraft_start pid (ResolvedVersion.minecraftVersion version)
                           options]
  end.

(** A property of the configurations handed to the core launcher, by
    either entry point. *)
Definition hands (P : LaunchOption.t -> Prop) (c : Call) : Prop :=
  match c with
  | Launch cfg | GenerateArguments cfg => P cfg
  | _ => True
  end.

(** [cfg] is what [#generateOptions] returns for the parsed override
    version and the token of the user of the request. *)
Definition Built (env : Env) (AUTHORITY_DEV : string) (options : LaunchOptions.t)
    (cfg : LaunchOption.t) : Prop :=
  exists version user,
    Version_parse env (getPath env) (LaunchOptions.version options) = Ok version /\
    LaunchOptions.user options = Some user /\
    fst (generateOptions env AUTHORITY_DEV options version (tokenOf env user) init)
      = Ok cfg.

(** [withoutEmpty given args]: [args] is [given] read from left to right,
    each empty string left out and each other string kept, as often as it
    occurs. *)
Inductive withoutEmpty : list string -> list string -> Prop :=
| withoutEmpty_nil : withoutEmpty [] []
| withoutEmpty_drop given args :
    withoutEmpty given args -> withoutEmpty (""%string :: given) args
| withoutEmpty_keep a given args :
    a <> ""%string -> withoutEmpty given args -> withoutEmpty (a :: given) (a :: args).

(** [args] is [given] without its empty strings; no list is given for no
    list. *)
Definition cleaned (given args : option (list string)) : Prop :=
  match given, args with
  | None, None => True
  | Some given, Some args => withoutEmpty given args
  | _, _ => False
  end.

(** The server [cfg] joins is the one of the request, with the address of
    the offline authority of the launcher in the place of the host
    [AUTHORITY_DEV]. *)
Definition connects (env : Env) (AUTHORITY_DEV : string) (options : LaunchOptions.t)
    (cfg : LaunchOption.t) : Prop :=
  match LaunchOptions.server options with
  | None => LaunchOption.server cfg = None
  | Some server =>
      exists ip,
        LaunchOption.server cfg =
          Some {| ServerTarget.ip := ip; ServerTarget.port := ServerOptions.port server |} /\
        (ServerOptions.host server <> AUTHORITY_DEV -> ip = ServerOptions.host server) /\
        (ServerOptions.host server = AUTHORITY_DEV ->
         exists a, serverAddress env = Some a /\ ip = localAuthority a)
  end.

(** The credentials of [cfg] are the selected profile of the user of the
    request and the token the storage holds for that user. *)
Definition credentials (env : Env) (options : LaunchOptions.t) (cfg : LaunchOption.t)
  : Prop :=
  exists user,
    LaunchOptions.user options = Some user /\
    LaunchOption.gameProfile cfg =
      UserProfile.profiles user !! UserProfile.selectedProfile user /\
    LaunchOption.accessToken cfg = tokenOf env user.

(** The code unit [c] does not occur in [s]. *)
Fixpoint lacks (c : ascii) (s : string) : bool :=
  match s with
  | EmptyString => true
  | String d s' => negb (Ascii.eqb d c) && lacks c s'
  end.

(** The error [getAddress] throws. *)
Definition notInitialized (env : Env) : JsError :=
  {| message :=
       Some ("Unexpected state. The OfflineYggdrasilServer does not initialized? Listening: "
             ++ (if serverListening env then "true" else "false"))%string;
     stack := None; props := [] |}.

End LaunchSpec.

(** * More vocabulary for the handlers *)

Module HandlersSpec.
Import LaunchService Handlers.

(** The texts of the stderr events of a list of events, oldest first, and
    its exit events. *)
Definition stderrText (e : ServiceEvent) : list string :=
  match e with minecraft_stderr _ text => [text] | _ => [] end.

Definition stderrTexts (evs : list ServiceEvent) : list string :=
  flat_map stderrText evs.

Definition exitEventIn (e : ServiceEvent) : list ExitEvent.t :=
  match e with minecraft_exit ev => [ev] | _ => [] end.

Definition exitEvents (evs : list ServiceEvent) : list ExitEvent.t :=
  flat_map exitEventIn evs.

(** What the exit handler keeps of the report [a] of the watcher, for a
    process started at [now]. *)
Definition reports (now : Z) (a : Action) (p : PendingExit.t) : Prop :=
  match a with
  | WatcherExit code signal crashReport crashReportLocation endTime =>
      PendingExit.code p = code /\
      PendingExit.signal p = signal /\
      PendingExit.crashReport p = crashReport /\
      PendingExit.playTime p = (endTime - now)%Z /\
      PendingExit.crashReportLocation p =
        truncateCrashReportLocation crashReportLocation
  | _ => False
  end.

(** The exit event [ev] carries what the watcher reported in [a]. *)
Definition carries (now : Z) (a : Action) (ev : ExitEvent.t) : Prop :=
  match a with
  | WatcherExit code signal crashReport crashReportLocation endTime =>
      ExitEvent.code ev = code /\
      ExitEvent.signal ev = signal /\
      ExitEvent.crashReport ev = crashReport /\
      ExitEvent.duration ev = (endTime - now)%Z /\
      ExitEvent.crashReportLocation ev = exitCrashReportLocation crashReportLocation
  | _ => False
  end.

(** [p] occurs in [s]. *)
Fixpoint occurs (p s : string) : bool :=
  String.prefix p s ||
  match s with
  | EmptyString => false
  | String _ s' => occurs p s'
  end.

Section Spec.

Variable encoder : EncodingWorker.
Variable UTF8 : string.
Variable EOL : string.

(** The lines of the stderr events of a list of events. *)
Definition linesOf (evs : list ServiceEvent) : list string :=
  flat_map (fun text => split text EOL) (stderrTexts evs).

(** [ev] is the one exit event of [evs], and its error log is made of the
    lines of the stderr events before it. *)
Definition announced (evs : list ServiceEvent) (ev : ExitEvent.t) : Prop :=
  exists pre post,
    evs = pre ++ minecraft_exit ev :: post /\
    exitEvents pre = [] /\ exitEvents post = [] /\
    ExitEvent.errorLog ev = join (linesOf pre) newline.

(** What a run has to hold for the handlers to emit [e] for the process
    [p] launched with [o]: a start event is never theirs; a stdout or
    stderr event is the decoding of a chunk received on that stream; a
    window event follows the watcher's; an error event wraps an error of
    the watcher; each carries the pid of [p]. *)
Definition caused (p : ChildProcess.t) (o : LaunchOptions.t) (acts : list Action)
    (e : ServiceEvent) : Prop :=
  match e with
  | minecraft_start _ _ _ => False
  | minecraft_stdout pid text =>
      pid = ChildProcess.pid p /\
      exists buf, In (StdoutData buf) acts /\ decodeChunk encoder UTF8 buf = Ok text
  | minecraft_stderr pid text =>
      pid = ChildProcess.pid p /\
      exists buf, In (StderrData buf) acts /\ decodeChunk encoder UTF8 buf = Ok text
  | minecraft_exit ev =>
      ExitEvent.pid ev = ChildProcess.pid p /\ ExitEvent.options ev = o
  | minecraft_window_ready pid o' =>
      pid = ChildProcess.pid p /\ o' = o /\ In WatcherWindowReady acts
  | error ex =>
      exists err,
        In (WatcherError err) acts /\
        ex = {| LaunchException.exception := launchGeneralException err;
                LaunchException.message := None |}
  end.

(** What holds of every state a run reaches from the state [launch]
    leaves for the process [p], launched with [o] at [now] and registered
    in [registry]. *)
Record Tracks (p : ChildProcess.t) (o : LaunchOptions.t) (now : Z)
    (registry : gmap (option Z) ChildProcess.t) (acts : list Action) (s : Session)
  : Prop := {
  tr_process : process s = p;
  tr_options : options s = o;
  tr_startTime : startTime s = now;
  tr_registry :
    processes s =
      if hasExit acts then delete (ChildProcess.pid p) registry else registry;
  tr_logs : errorLogs s = linesOf (emitted s);
  tr_promises : Forall (fun q => In (StderrData (fst q)) acts) (errPromises s);
  tr_caused : Forall (caused p o acts) (emitted s);
  tr_alive :
    phase s = Alive ->
    hasExit acts = false /\ List.filter isWatcherExit acts = [] /\
    exitEvents (emitted s) = [];
  tr_exiting : forall pe,
    phase s = Exiting pe ->
    hasExit acts = true /\
    (exists a, List.filter isWatcherExit acts = [a] /\ reports now a pe) /\
    exitEvents (emitted s) = [];
  tr_exited :
    phase s = Exited ->
    hasExit acts = true /\
    exists a ev,
      List.filter isWatcherExit acts = [a] /\ carries now a ev /\
      announced (emitted s) ev
}.

End Spec.

End HandlersSpec.

(** * Facts about traces *)

Module TraceFacts.

Section Traces.

Context {S E Ev : Type} (tr : S -> list Ev).

Lemma emitsOn_ret {A} P (a : A) : emitsOn tr P (ret a : Eff S E A).
Proof. intros st. exists []. simpl. rewrite app_nil_r. auto. Qed.

Lemma emitsOn_throw {A} P e : emitsOn tr P (throw e : Eff S E A).
Proof. intros st. exists []. simpl. rewrite app_nil_r. auto. Qed.

Lemma emitsOn_lift {A} P (o : Outcome E A) : emitsOn tr P (lift o : Eff S E A).
Proof. intros st. exists []. simpl. rewrite app_nil_r. auto. Qed.

Lemma emitsOn_bind {A B} P (m : Eff S E A) (k : A -> Eff S E B) :
  emitsOn tr P m -> (forall a, emitsOn tr P (k a)) -> emitsOn tr P (bind m k).
Proof.
  intros Hm Hk st. unfold bind.
  destruct (Hm st) as (evs1 & E1 & F1).
  destruct (m st) as [[a|e] st1] eqn:Em; simpl in E1.
  - destruct (Hk a st1) as (evs2 & E2 & F2).
    exists (evs1 ++ evs2). rewrite E2, E1, app_assoc. split; [reflexivity|].
    apply Forall_app; auto.
  - exists evs1. simpl. auto.
Qed.

Lemma emitsOn_tryCatch {A} P (m : Eff S E A) (h : E -> Eff S E A) :
  emitsOn tr P m -> (forall e, emitsOn tr P (h e)) -> emitsOn tr P (tryCatch m h).
Proof.
  intros Hm Hh st. unfold tryCatch.
  destruct (Hm st) as (evs1 & E1 & F1).
  destruct (m st) as [[a|e] st1] eqn:Em; simpl in E1.
  - exists evs1. simpl. auto.
  - destruct (Hh e st1) as (evs2 & E2 & F2).
    exists (evs1 ++ evs2). rewrite E2, E1, app_assoc. split; [reflexivity|].
    apply Forall_app; auto.
Qed.

Lemma emitsOn_weaken {A} (P Q : Ev -> Prop) (m : Eff S E A) :
  (forall e, P e -> Q e) -> emitsOn tr P m -> emitsOn tr Q m.
Proof.
  intros HPQ Hm st. destruct (Hm st) as (evs & Eq & F).
  exists evs. split; [exact Eq|]. eapply Forall_impl; eauto.
Qed.

(** Events stay in the trace. *)
Lemma emitsOn_In {A} P (m : Eff S E A) st e :
  emitsOn tr P m -> In e (tr st) -> In e (tr (snd (m st))).
Proof.
  intros Hm Hin. destruct (Hm st) as (evs & Eq & _). rewrite Eq.
  apply in_or_app. left. exact Hin.
Qed.

End Traces.

End TraceFacts.

(** * Facts about the orchestrator *)

Module OrchestratorFacts.
Import Orchestrator TraceFacts.

(** The calls of a computation of the orchestrator. *)
Abbreviation emits := (emitsOn trace).

Lemma emits_emit P e : P e -> emits P (emit e).
Proof. intros H st. exists [e]. simpl. auto. Qed.

Lemma emits_call {A} P e (o : Outcome JsError A) : P e -> emits P (call e o).
Proof.
  intros H. unfold call. apply emitsOn_bind; [apply emits_emit, H|].
  intros _. apply emitsOn_lift.
Qed.

Lemma emits_getCacheOrFetch P key fetcher :
  P (CacheLookup key) -> P (CatalogFetch key) ->
  emits P (getCacheOrFetch key fetcher).
Proof.
  intros H1 H2. unfold getCacheOrFetch.
  apply emitsOn_bind; [apply emits_emit, H1|]. intros _ st.
  destruct (cache st !! key) as [v|].
  - exists []. simpl. rewrite app_nil_r. auto.
  - destruct fetcher; exists [CatalogFetch key]; simpl; auto.
Qed.

(** On a run from an empty trace, the trace is what the run emitted. *)
Lemma emits_run {A} P (m : M A) c :
  emits P m -> Forall P (trace (snd (run m c))).
Proof.
  intros Hm. destruct (Hm {| cache := c; trace := [] |}) as (evs & E & F).
  unfold run. rewrite E. exact F.
Qed.

(** One step of a syntax-directed proof of [emits]. *)
Ltac emits_step :=
  match goal with
  | |- emitsOn _ _ (ret _) => apply emitsOn_ret
  | |- emitsOn _ _ (throw _) => apply emitsOn_throw
  | |- emitsOn _ _ (lift _) => apply emitsOn_lift
  | |- emitsOn _ _ (call _ _) => apply emits_call
  | |- emitsOn _ _ (getCacheOrFetch _ _) => apply emits_getCacheOrFetch
  | |- emitsOn _ _ (bind _ _) => apply emitsOn_bind; [|intros ?]
  | |- emitsOn _ _ (match ?x with _ => _ end) => destruct x eqn:?
  | |- emitsOn _ _ (asMinecraftVersions ?c) => destruct c; simpl
  | |- emitsOn _ _ (asForgeVersions ?c) => destruct c; simpl
  | |- emitsOn _ _ (asNeoForgedVersions ?c) => destruct c; simpl
  | |- emitsOn _ _ (asLabyModManifest ?c) => destruct c; simpl
  end.

Ltac unfold_install :=
  unfold run, install, afterBase, installBase, installForgeBranch,
    installNeoForgedBranch, installOptifineOrLoaders, installLoaders.

Ltac unfold_eff :=
  unfold getCacheOrFetch, asMinecraftVersions, asForgeVersions,
    asNeoForgedVersions, asLabyModManifest, call, emit, bind, lift, ret, throw,
    mapOutcome.

(** Case analysis on whatever the goal still matches on. *)
Ltac split_match :=
  match goal with
  | |- context [match ?x with _ => _ end] =>
      lazymatch x with
      | context [match _ with _ => _ end] => fail
      | _ => destruct x eqn:?
      end
  end.

Section Blocks.

Variable svc : Services.
Variable versions : list LocalVersionHeader.t.

Lemma installBase_emits minecraft side jar :
  emits baseEvent (installBase svc versions minecraft side jar).
Proof. unfold installBase. repeat emits_step; simpl; auto. Qed.

Lemma installForgeBranch_emits minecraft forge side :
  emits (forgeEvent minecraft) (installForgeBranch svc versions minecraft forge side).
Proof. unfold installForgeBranch. repeat emits_step; simpl; auto. Qed.

Lemma installNeoForgedBranch_emits minecraft neoForged fv :
  emits (neoForgedEvent minecraft)
        (installNeoForgedBranch svc versions minecraft neoForged fv).
Proof. unfold installNeoForgedBranch. repeat emits_step; simpl; auto. Qed.

Lemma installLoaders_emits runtime :
  emits (fun _ => True) (installLoaders svc versions runtime).
Proof. unfold installLoaders. repeat emits_step; exact I. Qed.

Lemma installOptifineOrLoaders_emits runtime fv :
  emits (fun _ => True) (installOptifineOrLoaders svc versions runtime fv).
Proof.
  unfold installOptifineOrLoaders.
  repeat first [apply installLoaders_emits | emits_step]; exact I.
Qed.

Lemma afterBase_emits runtime side :
  emits (fun _ => True) (afterBase svc versions runtime side).
Proof.
  unfold afterBase.
  apply emitsOn_bind;
    [eapply emitsOn_weaken; [|apply installForgeBranch_emits]; auto|intros fv].
  apply emitsOn_bind;
    [eapply emitsOn_weaken; [|apply installNeoForgedBranch_emits]; auto|intros fv'].
  apply installOptifineOrLoaders_emits.
Qed.

Lemma install_unfold runtime side jar st :
  install svc versions runtime side jar st =
  match installBase svc versions (RuntimeVersions.minecraft runtime) side jar st with
  | (Ok _, st1) => afterBase svc versions runtime side st1
  | (Throw e, st1) => (Throw e, st1)
  end.
Proof. reflexivity. Qed.

(** The base-version block when the base version has to be installed and
    the catalog has no entry for it. *)
Lemma installBase_no_metadata minecraft side jar c mcVersions :
  find (fun v => String.eqb (LocalVersionHeader.id v) minecraft) versions = None
    \/ jar = true ->
  c !! "/minecraft-versions" = Some (MinecraftVersionList mcVersions) \/
    (c !! "/minecraft-versions" = None /\
     getMinecraftVersionList svc = Ok mcVersions) ->
  find (fun v => String.eqb (MinecraftVersion.id v) minecraft) mcVersions = None ->
  exists c',
    installBase svc versions minecraft side jar {| cache := c; trace := [] |} =
    (installMinecraft svc None side,
     {| cache := c';
        trace := CacheLookup "/minecraft-versions"
                 :: match c !! "/minecraft-versions" with
                    | Some _ => []
                    | None => [CatalogFetch "/minecraft-versions"]
                    end
                 ++ [InstallMinecraft None side] |}).
Proof.
  intros Hlocal Hcat Hfind. unfold installBase. unfold_eff. simpl.
  destruct Hcat as [Hc|[Hc Hfetch]]; rewrite Hc; [|rewrite Hfetch]; simpl;
    rewrite Hfind;
    (destruct Hlocal as [Hl|Hj]; [rewrite Hl|rewrite Hj]);
    repeat split_match; subst; eexists; reflexivity.
Qed.

Ltac in_trace := rewrite ?in_app_iff; simpl; eauto 10.

(** A Forge block that completes has refreshed the local Forge header or
    called the Forge installer. *)
Lemma installForgeBranch_ok minecraft forge side f st fv st' :
  truthy forge = Some f ->
  installForgeBranch svc versions minecraft forge side st = (Ok fv, st') ->
  match find (fun v => String.eqb (LocalVersionHeader.forge v) f
                       && String.eqb (LocalVersionHeader.minecraft v) minecraft)
             versions with
  | Some h => In (RefreshVersion (LocalVersionHeader.id h)) (trace st')
              /\ fv = Some (LocalVersionHeader.id h)
  | None => exists o r, In (InstallForge o) (trace st')
                        /\ InstallForgeOptions.mcversion o = minecraft
                        /\ installForge svc o = Ok r
                        /\ fv = Some r
  end.
Proof.
  intros Hf. unfold installForgeBranch. rewrite Hf.
  destruct (find _ versions) as [h|]; unfold_eff; simpl.
  - destruct (refreshVersion svc _) as [[]|e]; intros H; inversion H; subst; simpl.
    split; [in_trace|reflexivity].
  - repeat split_match; intros H; inversion H; subst; simpl;
      do 2 eexists;
      (split; [in_trace|split; [reflexivity|split; [eassumption|reflexivity]]]).
Qed.

(** A NeoForge block that completes has refreshed the local NeoForge header
    or consulted the NeoForge catalog and called the NeoForge installer. *)
Lemma installNeoForgedBranch_ok minecraft neoForged n fv0 st fv st' :
  truthy neoForged = Some n ->
  installNeoForgedBranch svc versions minecraft neoForged fv0 st = (Ok fv, st') ->
  match find (fun v => String.eqb (LocalVersionHeader.neoForged v) n
                       && String.eqb (LocalVersionHeader.minecraft v) minecraft)
             versions with
  | Some h => In (RefreshVersion (LocalVersionHeader.id h)) (trace st')
              /\ fv = Some (LocalVersionHeader.id h)
  | None => In (CacheLookup ("/neoforged-versions/" ++ minecraft)%string) (trace st')
            /\ exists o r, In (InstallNeoForged o) (trace st')
                           /\ InstallNeoForgedOptions.minecraft o = minecraft
                           /\ installNeoForged svc o = Ok r
                           /\ fv = Some r
  end.
Proof.
  intros Hn. unfold installNeoForgedBranch. rewrite Hn.
  destruct (find _ versions) as [h|]; unfold_eff; simpl.
  - destruct (refreshVersion svc _) as [[]|e]; intros H; inversion H; subst; simpl.
    split; [in_trace|reflexivity].
  - repeat split_match; intros H; inversion H; subst; simpl;
      (split; [in_trace|]);
      do 2 eexists;
      (split; [in_trace|split; [reflexivity|split; [eassumption|reflexivity]]]).
Qed.

(** The calls a Forge block that completes has made, in their order. *)
Lemma installForgeBranch_calls minecraft forge side f st fv st' :
  truthy forge = Some f ->
  installForgeBranch svc versions minecraft forge side st = (Ok fv, st') ->
  exists evs,
    trace st' = trace st ++ evs /\
    match find (fun v => String.eqb (LocalVersionHeader.forge v) f
                         && String.eqb (LocalVersionHeader.minecraft v) minecraft)
               versions with
    | Some h => evs = [RefreshVersion (LocalVersionHeader.id h)]
    | None =>
        exists fetch o,
          evs = CacheLookup ("/forge-versions/" ++ minecraft) :: fetch
                ++ [InstallForge o] /\
          (fetch = [] \/ fetch = [CatalogFetch ("/forge-versions/" ++ minecraft)]) /\
          InstallForgeOptions.mcversion o = minecraft
    end.
Proof.
  intros Hf. unfold installForgeBranch. rewrite Hf.
  destruct (find _ versions) as [h|]; unfold_eff; simpl.
  - destruct (refreshVersion svc _) as [[]|e]; intros H; inversion H; subst; simpl.
    eexists. split; reflexivity.
  - repeat split_match; intros H; inversion H; subst; simpl;
      rewrite <- ?app_assoc; simpl;
      (eexists; split; [reflexivity|]);
      first [ exists (@nil Event); eexists; split; [reflexivity|]; auto
            | eexists [_]; eexists; split; [reflexivity|]; auto ].
Qed.

(** The calls a NeoForge block that completes has made, in their order. *)
Lemma installNeoForgedBranch_calls minecraft neoForged n fv0 st fv st' :
  truthy neoForged = Some n ->
  installNeoForgedBranch svc versions minecraft neoForged fv0 st = (Ok fv, st') ->
  exists evs,
    trace st' = trace st ++ evs /\
    match find (fun v => String.eqb (LocalVersionHeader.neoForged v) n
                         && String.eqb (LocalVersionHeader.minecraft v) minecraft)
               versions with
    | Some h => evs = [RefreshVersion (LocalVersionHeader.id h)]
    | None =>
        exists fetch o,
          evs = CacheLookup ("/neoforged-versions/" ++ minecraft) :: fetch
                ++ [InstallNeoForged o] /\
          (fetch = [] \/
           fetch = [CatalogFetch ("/neoforged-versions/" ++ minecraft)]) /\
          InstallNeoForgedOptions.minecraft o = minecraft
    end.
Proof.
  intros Hn. unfold installNeoForgedBranch. rewrite Hn.
  destruct (find _ versions) as [h|]; unfold_eff; simpl.
  - destruct (refreshVersion svc _) as [[]|e]; intros H; inversion H; subst; simpl.
    eexists. split; reflexivity.
  - repeat split_match; intros H; inversion H; subst; simpl;
      rewrite <- ?app_assoc; simpl;
      (eexists; split; [reflexivity|]);
      first [ exists (@nil Event); eexists; split; [reflexivity|]; auto
            | eexists [_]; eexists; split; [reflexivity|]; auto ].
Qed.

End Blocks.

(** C7. With [fabricLoader] and [quiltLoader] both set and [forge],
    [neoForged] and [optifine] unset, no call of [install] ever reaches the
    Quilt installer; and once the base-version block has succeeded, the
    result of [install] is the result of the Fabric block: the id of the
    local Fabric header (after its refresh) or what the Fabric installer
    answers, and that call is in the trace. *)
Theorem install_fabric_over_quilt svc versions runtime side jar c fabricLoader quiltLoader :
  truthy (RuntimeVersions.fabricLoader runtime) = Some fabricLoader ->
  truthy (RuntimeVersions.quiltLoader runtime) = Some quiltLoader ->
  truthy (RuntimeVersions.forge runtime) = None ->
  truthy (RuntimeVersions.neoForged runtime) = None ->
  truthy (RuntimeVersions.optifine runtime) = None ->
  let minecraft := RuntimeVersions.minecraft runtime in
  let localFabric :=
    find (fun v => String.eqb (LocalVersionHeader.fabric v) fabricLoader
                   && String.eqb (LocalVersionHeader.minecraft v) minecraft)
         versions in
  let o := {| InstallFabricOptions.loader := fabricLoader;
              InstallFabricOptions.minecraft := minecraft |} in
  let r := run (install svc versions runtime side jar) c in
  Forall (fun e => forall q, e <> InstallQuilt q) (trace (snd r)) /\
  (isOk (fst (run (installBase svc versions minecraft side jar) c)) = true ->
   match localFabric with
   | Some h =>
       fst r = mapOutcome (fun _ => LocalVersionHeader.id h)
                 (refreshVersion svc (LocalVersionHeader.id h)) /\
       In (RefreshVersion (LocalVersionHeader.id h)) (trace (snd r))
   | None =>
       fst r = installFabric svc o /\ In (InstallFabric o) (trace (snd r))
   end).
Proof.
  intros Hfab Hquilt Hforge Hneo Hopt. cbv zeta.
  split.
  - apply emits_run. unfold install, afterBase.
    apply emitsOn_bind;
      [eapply emitsOn_weaken; [|apply installBase_emits]; intros [] He q Hq; simpl in He;
       discriminate Hq || contradiction|].
    intros _. unfold installForgeBranch. rewrite Hforge.
    apply emitsOn_bind; [apply emitsOn_ret|]. intros fv.
    unfold installNeoForgedBranch. rewrite Hneo.
    apply emitsOn_bind; [apply emitsOn_ret|]. intros fv'.
    unfold installOptifineOrLoaders. rewrite Hopt.
    destruct (truthy fv'); [apply emitsOn_ret|].
    unfold installLoaders. rewrite Hfab.
    repeat emits_step; intros q Hq; discriminate Hq.
  - unfold run, install, afterBase, installForgeBranch, installNeoForgedBranch,
      installOptifineOrLoaders, installLoaders.
    rewrite Hforge, Hneo, Hopt, Hfab. unfold_eff.
    destruct (installBase svc versions (RuntimeVersions.minecraft runtime) side jar
                {| cache := c; trace := [] |}) as [[[]|e] st1] eqn:Hbase;
      simpl; [intros _|discriminate].
    destruct (find _ versions) as [h|]; simpl.
    + destruct (refreshVersion svc (LocalVersionHeader.id h)) as [[]|e]; simpl;
        (split; [reflexivity|apply in_or_app; right; left; reflexivity]).
    + destruct (installFabric svc _); simpl;
        (split; [reflexivity|apply in_or_app; right; left; reflexivity]).
Qed.

(** Witness of C7: both loaders are requested, nothing is installed
    locally, and the result is what the Fabric installer answers. *)
Lemma install_fabric_over_quilt_witness :
  let r := run (install Samples.services []
                  (Samples.request None None (Some "0.15.0") (Some "0.20.0"))
                  client false) ∅ in
  Forall (fun e => forall q, e <> InstallQuilt q) (trace (snd r)) /\
  fst r = Ok "1.20.1-fabric0.15.0"%string.
Proof.
  destruct (install_fabric_over_quilt Samples.services []
              (Samples.request None None (Some "0.15.0") (Some "0.20.0"))
              client false ∅ "0.15.0" "0.20.0"
              eq_refl eq_refl eq_refl eq_refl eq_refl) as [H1 H2].
  split; [exact H1|]. exact (proj1 (H2 eq_refl)).
Defined.

(** C9. When the base version has to be installed (no local header has
    its id, or the jar reinstall is forced) and the base-version catalog that
    [install] obtains has no entry for it, the base installer is called with
    the [undefined] the lookup produced, right after the catalog was
    obtained; nothing checks the lookup.  If the installer rejects, that
    rejection is the result of [install]. *)
Theorem install_passes_missing_metadata svc versions runtime side jar c mcVersions :
  let minecraft := RuntimeVersions.minecraft runtime in
  find (fun v => String.eqb (LocalVersionHeader.id v) minecraft) versions = None
    \/ jar = true ->
  c !! "/minecraft-versions" = Some (MinecraftVersionList mcVersions) \/
    (c !! "/minecraft-versions" = None /\
     getMinecraftVersionList svc = Ok mcVersions) ->
  find (fun v => String.eqb (MinecraftVersion.id v) minecraft) mcVersions = None ->
  let r := run (install svc versions runtime side jar) c in
  exists rest,
    trace (snd r) =
      CacheLookup "/minecraft-versions"
      :: match c !! "/minecraft-versions" with
         | Some _ => []
         | None => [CatalogFetch "/minecraft-versions"]
         end
      ++ InstallMinecraft None side :: rest /\
    (forall e, installMinecraft svc None side = Throw e ->
               fst r = Throw e /\ rest = []).
Proof.
  intros minecraft Hlocal Hcat Hfind r. subst r. unfold run.
  rewrite install_unfold.
  destruct (installBase_no_metadata svc versions minecraft side jar c mcVersions
              Hlocal Hcat Hfind) as (c' & Hbase).
  fold minecraft. rewrite Hbase.
  destruct (installMinecraft svc None side) as [[]|e0] eqn:Hinst.
  - destruct (afterBase_emits svc versions runtime side
                {| cache := c';
                   trace := CacheLookup "/minecraft-versions"
                            :: match c !! "/minecraft-versions" with
                               | Some _ => []
                               | None => [CatalogFetch "/minecraft-versions"]
                               end
                            ++ [InstallMinecraft None side] |})
      as (evs & Etr & _).
    exists evs. split; [|intros e He; discriminate He].
    rewrite Etr. simpl. rewrite <- app_assoc. reflexivity.
  - exists []. split; [reflexivity|]. intros e He. injection He as ->. auto.
Qed.

(** Witness of C9: the catalog only knows 1.19.4, the request is for
    1.20.1 and nothing is installed locally. *)
Lemma install_passes_missing_metadata_witness :
  let r := run (install Samples.staleServices []
                  (Samples.request None None None None) client false) ∅ in
  exists rest,
    trace (snd r) =
      CacheLookup "/minecraft-versions"
      :: [CatalogFetch "/minecraft-versions"]
      ++ InstallMinecraft None client :: rest /\
    (forall e, installMinecraft Samples.staleServices None client = Throw e ->
               fst r = Throw e /\ rest = []).
Proof.
  exact (install_passes_missing_metadata Samples.staleServices []
           (Samples.request None None None None) client false ∅
           [ {| MinecraftVersion.id := "1.19.4"; MinecraftVersion.url := "" |} ]
           (or_introl eq_refl) (or_intror (conj eq_refl eq_refl)) eq_refl).
Defined.

(** C1 (as the code has it). The NeoForge block is a statement of its own,
    not the else-branch of the Forge block.  When [forge] and [neoForged]
    are both set and [install] returns, both blocks have run in that one
    call, the NeoForge block after the Forge block: the calls of the
    invocation are those of the base-version block, then those of the
    Forge block (the refresh of the local Forge header, or the lookup of the
    Forge catalog and the call of the Forge installer), then those of the
    NeoForge block (the refresh of the local NeoForge header, or the lookup
    of the NeoForge catalog and the call of the NeoForge installer), then
    whatever follows. *)
Theorem install_forge_then_neoForged svc versions runtime side jar c f n v :
  truthy (RuntimeVersions.forge runtime) = Some f ->
  truthy (RuntimeVersions.neoForged runtime) = Some n ->
  let minecraft := RuntimeVersions.minecraft runtime in
  let r := run (install svc versions runtime side jar) c in
  fst r = Ok v ->
  exists forgeCalls neoForgedCalls rest,
    trace (snd r) =
      trace (snd (run (installBase svc versions minecraft side jar) c))
      ++ forgeCalls ++ neoForgedCalls ++ rest /\
    match find (fun h => String.eqb (LocalVersionHeader.forge h) f
                         && String.eqb (LocalVersionHeader.minecraft h) minecraft)
               versions with
    | Some h => forgeCalls = [RefreshVersion (LocalVersionHeader.id h)]
    | None =>
        exists fetch o,
          forgeCalls = CacheLookup ("/forge-versions/" ++ minecraft) :: fetch
                       ++ [InstallForge o] /\
          (fetch = [] \/ fetch = [CatalogFetch ("/forge-versions/" ++ minecraft)]) /\
          InstallForgeOptions.mcversion o = minecraft
    end /\
    match find (fun h => String.eqb (LocalVersionHeader.neoForged h) n
                         && String.eqb (LocalVersionHeader.minecraft h) minecraft)
               versions with
    | Some h => neoForgedCalls = [RefreshVersion (LocalVersionHeader.id h)]
    | None =>
        exists fetch o,
          neoForgedCalls = CacheLookup ("/neoforged-versions/" ++ minecraft) :: fetch
                           ++ [InstallNeoForged o] /\
          (fetch = [] \/
           fetch = [CatalogFetch ("/neoforged-versions/" ++ minecraft)]) /\
          InstallNeoForgedOptions.minecraft o = minecraft
    end.
Proof.
  intros Hf Hn minecraft r. subst r. unfold run. rewrite install_unfold.
  fold minecraft.
  destruct (installBase svc versions minecraft side jar _) as [[[]|e] st1];
    [|discriminate].
  unfold afterBase. fold minecraft. unfold bind.
  destruct (installForgeBranch svc versions minecraft _ side st1)
    as [[fv|e] st2] eqn:HF; [|discriminate].
  destruct (installNeoForgedBranch svc versions minecraft _ fv st2)
    as [[fv'|e] st3] eqn:HN; [|discriminate].
  intros _.
  destruct (installForgeBranch_calls svc versions _ _ _ _ _ _ _ Hf HF)
    as (forgeCalls & EF & HF').
  destruct (installNeoForgedBranch_calls svc versions _ _ _ _ _ _ _ Hn HN)
    as (neoForgedCalls & EN & HN').
  destruct (installOptifineOrLoaders_emits svc versions runtime fv' st3)
    as (rest & Erest & _).
  exists forgeCalls, neoForgedCalls, rest.
  split; [|split; [exact HF'|exact HN']].
  rewrite Erest, EN, EF, <- !app_assoc. reflexivity.
Qed.

(** Witness of C1: nothing is installed locally and the request names both
    loaders. *)
Lemma install_forge_then_neoForged_witness :
  let r := run (install Samples.services []
                  (Samples.request (Some "47.2.0") (Some "47.1.99") None None)
                  client false) ∅ in
  exists forgeCalls neoForgedCalls rest,
    trace (snd r) =
      [ CacheLookup "/minecraft-versions"; CatalogFetch "/minecraft-versions";
        InstallMinecraft
          (Some {| MinecraftVersion.id := "1.20.1"; MinecraftVersion.url := "" |})
          client ]
      ++ forgeCalls ++ neoForgedCalls ++ rest /\
    (exists fetch o,
       forgeCalls = CacheLookup "/forge-versions/1.20.1" :: fetch ++ [InstallForge o] /\
       (fetch = [] \/ fetch = [CatalogFetch "/forge-versions/1.20.1"]) /\
       InstallForgeOptions.mcversion o = "1.20.1"%string) /\
    (exists fetch o,
       neoForgedCalls = CacheLookup "/neoforged-versions/1.20.1" :: fetch
                        ++ [InstallNeoForged o] /\
       (fetch = [] \/ fetch = [CatalogFetch "/neoforged-versions/1.20.1"]) /\
       InstallNeoForgedOptions.minecraft o = "1.20.1"%string).
Proof.
  exact (install_forge_then_neoForged Samples.services []
           (Samples.request (Some "47.2.0") (Some "47.1.99") None None)
           client false ∅ "47.2.0" "47.1.99" "neoforge-47.1.99"
           eq_refl eq_refl eq_refl).
Defined.

(** C1, the claim as written fails: one call of [install] with [forge] and
    [neoForged] both set and nothing installed locally fetches the NeoForge
    catalog and calls both the Forge and the NeoForge installer. *)
Lemma install_forge_and_neoForged_both_installed :
  let r := run (install Samples.services []
                  (Samples.request (Some "47.2.0") (Some "47.1.99") None None)
                  client false) ∅ in
  fst r = Ok "neoforge-47.1.99" /\
  trace (snd r) =
    [ CacheLookup "/minecraft-versions"; CatalogFetch "/minecraft-versions";
      InstallMinecraft
        (Some {| MinecraftVersion.id := "1.20.1"; MinecraftVersion.url := "" |})
        client;
      CacheLookup "/forge-versions/1.20.1"; CatalogFetch "/forge-versions/1.20.1";
      InstallForge {| InstallForgeOptions.mcversion := "1.20.1";
                      InstallForgeOptions.version := "47.2.0";
                      InstallForgeOptions.installer := None;
                      InstallForgeOptions.side := client |};
      CacheLookup "/neoforged-versions/1.20.1";
      CatalogFetch "/neoforged-versions/1.20.1";
      InstallNeoForged {| InstallNeoForgedOptions.version := "47.1.99";
                          InstallNeoForgedOptions.minecraft := "1.20.1" |} ].
Proof. vm_compute. split; reflexivity. Qed.

(** C4 (as the code has it). With [forge] set, [neoForged] and [optifine]
    unset, no forced reinstall, a local header whose id is the base version
    and a local header (with a non-empty id) matching [(minecraft, forge)]:
    no installer is invoked; the only catalog that is touched is the
    base-version catalog, which [install] obtains unconditionally and which
    is fetched exactly when the cache does not hold it yet; the only
    possible result is the id of the first matching Forge header, and it is
    the result as soon as the base-version catalog is available and the two
    refreshes succeed. *)
Theorem install_forge_header_reused svc versions runtime side c f b h :
  truthy (RuntimeVersions.forge runtime) = Some f ->
  truthy (RuntimeVersions.neoForged runtime) = None ->
  truthy (RuntimeVersions.optifine runtime) = None ->
  let minecraft := RuntimeVersions.minecraft runtime in
  find (fun v => String.eqb (LocalVersionHeader.id v) minecraft) versions = Some b ->
  find (fun v => String.eqb (LocalVersionHeader.forge v) f
                 && String.eqb (LocalVersionHeader.minecraft v) minecraft)
       versions = Some h ->
  LocalVersionHeader.id h <> "" ->
  let r := run (install svc versions runtime side false) c in
  installerCalls (trace (snd r)) = 0 /\
  catalogFetches (trace (snd r)) =
    match c !! "/minecraft-versions" with Some _ => 0 | None => 1 end /\
  (forall k, In (CatalogFetch k) (trace (snd r)) -> k = "/minecraft-versions") /\
  (forall v, fst r = Ok v -> v = LocalVersionHeader.id h) /\
  ((exists l, c !! "/minecraft-versions" = Some (MinecraftVersionList l) \/
              (c !! "/minecraft-versions" = None /\
               getMinecraftVersionList svc = Ok l)) ->
   refreshVersion svc (LocalVersionHeader.id b) = Ok tt ->
   refreshVersion svc (LocalVersionHeader.id h) = Ok tt ->
   fst r = Ok (LocalVersionHeader.id h)).
Proof.
  intros Hf Hn Ho minecraft Hb Hh Hid r. subst r.
  apply String.eqb_neq in Hid.
  unfold_install. fold minecraft. rewrite Hf, Hn, Ho, Hb, Hh.
  unfold installerCalls, catalogFetches. unfold_eff. simpl.
  destruct (c !! "/minecraft-versions") as [cat|] eqn:Hc;
    [destruct cat|destruct (getMinecraftVersionList svc) as [l|e0]]; simpl;
    try destruct (refreshVersion svc (LocalVersionHeader.id b)) as [[]|e1];
    simpl;
    try destruct (refreshVersion svc (LocalVersionHeader.id h)) as [[]|e2];
    simpl; unfold truthy; rewrite ?Hid; simpl;
    (split; [reflexivity|split; [reflexivity|split; [|split]]]);
    try (intros k Hk; rewrite ?in_app_iff in Hk; simpl in Hk;
         intuition congruence);
    try (intros v Hv; congruence);
    try (intros [l' [Hl|[Hl Hg]]] H1 H2; congruence).
Qed.

(** Witness of C4: the base version and the Forge version are installed and
    the base-version catalog is already cached. *)
Lemma install_forge_header_reused_witness :
  let c : gmap string Catalog :=
    {[ "/minecraft-versions" := MinecraftVersionList [] ]} in
  let r := run (install Samples.services Samples.forgeInstalled
                  (Samples.request (Some "47.2.0") None None None)
                  client false) c in
  installerCalls (trace (snd r)) = 0 /\
  catalogFetches (trace (snd r)) = 0 /\
  fst r = Ok "1.20.1-forge-47.2.0".
Proof.
  pose proof (install_forge_header_reused Samples.services Samples.forgeInstalled
                (Samples.request (Some "47.2.0") None None None) client
                {[ "/minecraft-versions" := MinecraftVersionList [] ]}
                "47.2.0" (Samples.header "1.20.1" "1.20.1" "")
                (Samples.header "1.20.1-forge-47.2.0" "1.20.1" "47.2.0")
                eq_refl eq_refl eq_refl eq_refl eq_refl ltac:(discriminate))
    as (H1 & H2 & _ & _ & H5).
  split; [exact H1|]. split; [exact H2|].
  apply H5; [|reflexivity|reflexivity].
  exists []. left. reflexivity.
Defined.

(** C4, the claim as written fails, in two ways.  With the base version
    and the Forge version installed locally, a call of [install] on a cold
    cache fetches the base-version catalog.  And when the request also
    names a NeoForge version, then even with every catalog cached the
    NeoForge installer is invoked and its answer, not the id of the Forge
    header, is returned. *)
Lemma install_forge_header_still_fetches :
  (let r := run (install Samples.services Samples.forgeInstalled
                   (Samples.request (Some "47.2.0") None None None)
                   client false) ∅ in
   fst r = Ok "1.20.1-forge-47.2.0"%string /\
   trace (snd r) =
     [ CacheLookup "/minecraft-versions"; CatalogFetch "/minecraft-versions";
       RefreshVersion "1.20.1"; RefreshVersion "1.20.1-forge-47.2.0" ] /\
   catalogFetches (trace (snd r)) <> 0) /\
  (let r := run (install Samples.services Samples.forgeInstalled
                   (Samples.request (Some "47.2.0") (Some "47.1.99") None None)
                   client false) Samples.warmCache in
   fst r = Ok "neoforge-47.1.99"%string /\
   trace (snd r) =
     [ CacheLookup "/minecraft-versions";
       RefreshVersion "1.20.1"; RefreshVersion "1.20.1-forge-47.2.0";
       CacheLookup "/neoforged-versions/1.20.1";
       InstallNeoForged {| InstallNeoForgedOptions.version := "47.1.99";
                           InstallNeoForgedOptions.minecraft := "1.20.1" |} ] /\
   installerCalls (trace (snd r)) <> 0).
Proof. vm_compute. repeat split; discriminate. Qed.

End OrchestratorFacts.

(** * Facts about JavaScript strings *)

Module StringFacts.

#[local] Arguments String.append !_ _ / : simpl nomatch.

Lemma prefix_app p b : String.prefix p (p ++ b) = true.
Proof.
  induction p as [|c p IH]; simpl; [destruct b; reflexivity|].
  destruct (Ascii.ascii_dec c c) as [_|n]; [exact IH|congruence].
Qed.

Lemma prefix_split p s : String.prefix p s = true -> exists b, s = (p ++ b)%string.
Proof.
  revert s. induction p as [|c p IH]; intros s H.
  - exists s. reflexivity.
  - destruct s as [|d s]; simpl in H; [discriminate|].
    destruct (Ascii.ascii_dec c d) as [->|_]; [|discriminate].
    destruct (IH s H) as (b & ->). exists b. reflexivity.
Qed.

Lemma append_assoc (a b c : string) : ((a ++ b) ++ c = a ++ (b ++ c))%string.
Proof. induction a as [|x a IH]; simpl; congruence. Qed.

Lemma append_nil_r (a : string) : (a ++ "")%string = a.
Proof. induction a as [|x a IH]; simpl; congruence. Qed.

Lemma length_append (a b : string) :
  String.length (a ++ b) = (String.length a + String.length b)%nat.
Proof. induction a as [|x a IH]; simpl; congruence. Qed.

Lemma lastIndexOfFrom_nil p i :
  lastIndexOfFrom p "" i = if String.prefix p "" then i else (-1)%Z.
Proof. reflexivity. Qed.

Lemma lastIndexOfFrom_cons p c s i :
  lastIndexOfFrom p (String c s) i =
  if (0 <=? lastIndexOfFrom p s (i + 1))%Z then lastIndexOfFrom p s (i + 1)%Z
  else if String.prefix p (String c s) then i else (-1)%Z.
Proof. reflexivity. Qed.






Lemma indexOfFrom_eq p s i :
  indexOfFrom p s i =
  if String.prefix p s then i
  else match s with
       | EmptyString => (-1)%Z
       | String _ s' => indexOfFrom p s' (i + 1)%Z
       end.
Proof. destruct s; reflexivity. Qed.





End StringFacts.

(** * Facts about the handlers *)

Module HandlersFacts.
Import LaunchService Handlers StringFacts.

#[local] Arguments String.append !_ _ / : simpl nomatch.


Section ExitOrdering.

Variable encoder : EncodingWorker.
Variable UTF8 : string.
Variable EOL : string.

Abbreviation step := (step encoder UTF8 EOL).
Abbreviation run := (run encoder UTF8 EOL).
Abbreviation decodeChunk := (decodeChunk encoder UTF8).
Abbreviation completeErrorLog := (completeErrorLog encoder UTF8 EOL).
Abbreviation chunksDecode := (chunksDecode encoder UTF8).
Abbreviation Inv := (Inv encoder UTF8 EOL).

Lemma run_snoc acts a s :
  run (acts ++ [a]) s =
  match run acts s with Some s' => step a s' | None => None end.
Proof. unfold Handlers.run. rewrite fold_left_app. reflexivity. Qed.

Lemma hasExit_snoc acts a : hasExit (acts ++ [a]) = hasExit acts || isWatcherExit a.
Proof.
  induction acts as [|b acts IH]; simpl.
  - destruct a; reflexivity.
  - destruct b; simpl; auto.
Qed.

Lemma chunksBeforeExit_snoc acts a :
  chunksBeforeExit (acts ++ [a]) =
  if hasExit acts then chunksBeforeExit acts
  else chunksBeforeExit acts ++ isStderrData a.
Proof.
  induction acts as [|b acts IH]; simpl.
  - destruct a; reflexivity.
  - destruct b; simpl; rewrite ?IH; try reflexivity;
      destruct (hasExit acts); reflexivity.
Qed.

Lemma inv_start p o now registry : Inv [] (start p o now registry).
Proof.
  split; simpl.
  - intros i buf H. rewrite lookup_nil in H. discriminate H.
  - intros i buf H. rewrite lookup_nil in H. discriminate H.
  - intros _. split; reflexivity.
  - intros q H. discriminate H.
  - intros H. discriminate H.
  - intros ev [].
  - intros ev [].
Qed.

(** A step that is neither a stderr chunk nor the exit leaves the chunks
    before the exit as they are. *)
Lemma inv_snoc acts a s :
  isStderrData a = [] -> isWatcherExit a = false ->
  Inv acts s -> Inv (acts ++ [a]) s.
Proof.
  intros Ha Hb [I1 I2 I3 I4 I5 I6 I7].
  assert (Hc : chunksBeforeExit (acts ++ [a]) = chunksBeforeExit acts).
  { rewrite chunksBeforeExit_snoc, Ha, app_nil_r. destruct (hasExit acts); reflexivity. }
  assert (Hh : hasExit (acts ++ [a]) = hasExit acts).
  { rewrite hasExit_snoc, Hb. apply orb_false_r. }
  split; unfold chunksDecode, Handlers.completeErrorLog; rewrite ?Hc, ?Hh; auto.
Qed.

Lemma inv_emit acts e s :
  (forall ev, e <> minecraft_exit ev) -> Inv acts s -> Inv acts (emitEvent e s).
Proof.
  intros He [I1 I2 I3 I4 I5 I6 I7].
  assert (Hin : forall ev, In (minecraft_exit ev) (emitted (emitEvent e s)) ->
                            In (minecraft_exit ev) (emitted s)).
  { intros ev H. simpl in H. apply in_app_or in H as [H|[H|[]]]; [exact H|].
    exfalso. exact (He ev H). }
  split; auto.
  intros ev H. exact (I6 ev (Hin ev H)).
Qed.

Lemma setPromise_fst i st s :
  (errPromises (setPromise i st s)).*1 = (errPromises s).*1.
Proof.
  simpl. destruct (errPromises s !! i) as [[buf st0]|] eqn:E; [|reflexivity].
  rewrite list_fmap_insert. apply list_insert_id.
  rewrite list_lookup_fmap, E. reflexivity.
Qed.

Lemma setPromise_lookup i st s j buf st' :
  errPromises (setPromise i st s) !! j = Some (buf, st') ->
  (j = i /\ st' = st /\ exists st0, errPromises s !! i = Some (buf, st0)) \/
  (j <> i /\ errPromises s !! j = Some (buf, st')).
Proof.
  simpl. destruct (errPromises s !! i) as [[buf0 st0]|] eqn:E.
  - destruct (decide (i = j)) as [<-|Hne].
    + rewrite list_lookup_insert_eq by (eapply lookup_lt_Some; exact E).
      intros H. injection H as <- <-. left. eauto.
    + rewrite list_lookup_insert_ne by exact Hne. intros H. right. auto.
  - intros H. right. split; [|exact H]. intros ->. rewrite E in H. discriminate H.
Qed.

Lemma setPromise_length i st s :
  length (errPromises (setPromise i st s)) = length (errPromises s).
Proof.
  simpl. destruct (errPromises s !! i) as [[buf st0]|]; [|reflexivity].
  apply length_insert.
Qed.

(** A promise settles. *)
Lemma inv_settle acts s i buf :
  errPromises s !! i = Some (buf, Pending) ->
  Inv acts s ->
  match decodeChunk buf with
  | Ok result =>
      Inv acts (setPromise i Fulfilled
                  (pushLines (split result EOL)
                     (emitEvent (minecraft_stderr (ChildProcess.pid (process s)) result) s)))
  | Throw _ => Inv acts (setPromise i Rejected s)
  end.
Proof.
  intros Hi HI. destruct (decodeChunk buf) as [result|e] eqn:Hd.
  - apply (inv_emit acts (minecraft_stderr (ChildProcess.pid (process s)) result))
      in HI; [|intros ev; discriminate].
    destruct HI as [I1 I2 I3 I4 I5 I6 I7].
    split; try (rewrite setPromise_fst); try (rewrite setPromise_length); auto.
    + intros j b H. apply setPromise_lookup in H as [(-> & _ & st0 & H)|(Hne & H)].
      * simpl in H. rewrite Hi in H. injection H as <- _.
        exists result. split; [exact Hd|]. simpl. apply incl_appr, incl_refl.
      * simpl in H. destruct (I1 j b H) as (text & Ht & Hincl).
        exists text. split; [exact Ht|]. simpl. apply incl_appl. exact Hincl.
    + intros j b H. apply setPromise_lookup in H as [(_ & Hst & _)|(Hne & H)];
        [discriminate Hst|]. exact (I2 j b H).
  - destruct HI as [I1 I2 I3 I4 I5 I6 I7].
    split; try (rewrite setPromise_fst); try (rewrite setPromise_length); auto.
    + intros j b H. apply setPromise_lookup in H as [(_ & Hst & _)|(Hne & H)];
        [discriminate Hst|]. exact (I1 j b H).
    + intros j b H. apply setPromise_lookup in H as [(-> & _ & st0 & H)|(Hne & H)].
      * rewrite Hi in H. injection H as <- _. rewrite Hd. reflexivity.
      * exact (I2 j b H).
Qed.

(** When [Promise.all] is settled and every chunk received before the exit
    can be decoded, the lines of each of them are in [errorLogs]. *)
Lemma awaited_lines acts s p :
  Inv acts s -> phase s = Exiting p ->
  allSettled (take (PendingExit.awaited p) (errPromises s)) = true ->
  chunksDecode acts ->
  forall buf text,
    In buf (chunksBeforeExit acts) -> decodeChunk buf = Ok text ->
    incl (split text EOL) (errorLogs s).
Proof.
  intros [I1 I2 I3 I4 I5 I6 I7] Hp Hset Hdec buf text Hin Htext.
  destruct (I4 p Hp) as (_ & Hle & Htake).
  rewrite <- Htake in Hin.
  apply list_elem_of_In, list_elem_of_lookup in Hin as (i & Hi).
  apply lookup_take_Some in Hi as (Hi & Hlt).
  apply list_lookup_fmap_Some in Hi as ([b st] & Hb & Hi). simpl in Hb. subst b.
  destruct st.
  - (* still pending: then [Promise.all] has been rejected *)
    exfalso. unfold allSettled in Hset. apply orb_prop in Hset as [Hall|Hrej].
    + rewrite forallb_forall in Hall.
      assert (Hin' : In (buf, Pending) (take (PendingExit.awaited p) (errPromises s))).
      { apply list_elem_of_In, list_elem_of_lookup. exists i.
        apply lookup_take_Some. auto. }
      discriminate (Hall _ Hin').
    + apply existsb_exists in Hrej as ([b' st'] & Hin' & Hr).
      destruct st'; try discriminate Hr.
      apply list_elem_of_In, list_elem_of_lookup in Hin' as (j & Hj).
      apply lookup_take_Some in Hj as (Hj & Hjlt).
      assert (Hb' : In b' (chunksBeforeExit acts)).
      { rewrite <- Htake. apply list_elem_of_In, list_elem_of_lookup. exists j.
        apply lookup_take_Some. split; [|exact Hjlt].
        apply list_lookup_fmap_Some. exists (b', Rejected). auto. }
      specialize (Hdec b' Hb'). rewrite (I2 j b' Hj) in Hdec. discriminate Hdec.
  - destruct (I1 i buf Hi) as (text' & Ht' & Hincl).
    rewrite Htext in Ht'. injection Ht' as ->. exact Hincl.
  - specialize (I2 i buf Hi). rewrite Htext in I2. discriminate I2.
Qed.

(** Every step keeps the invariant. *)
Lemma inv_step acts a s s' :
  Inv acts s -> step a s = Some s' -> Inv (acts ++ [a]) s'.
Proof.
  intros HI Hstep. destruct a; simpl in Hstep.
  - (* StderrData *)
    destruct (ChildProcess.hasStderr (process s)); [|discriminate Hstep].
    injection Hstep as <-. destruct HI as [I1 I2 I3 I4 I5 I6 I7].
    assert (Hlook : forall i b st,
              (errPromises s ++ [(buf, Pending)]) !! i = Some (b, st) ->
              st <> Pending -> errPromises s !! i = Some (b, st)).
    { intros i b st H Hst. apply lookup_app_Some in H as [H|[_ H]]; [exact H|].
      destruct (i - length (errPromises s)) as [|k]; simpl in H.
      - injection H as _ <-. contradiction.
      - rewrite lookup_nil in H. discriminate H. }
    split; simpl.
    + intros i b H. apply (I1 i b), Hlook; [exact H|discriminate].
    + intros i b H. apply (I2 i b), Hlook; [exact H|discriminate].
    + intros Hp. destruct (I3 Hp) as (Hh & Hc).
      rewrite hasExit_snoc, chunksBeforeExit_snoc, Hh, fmap_app, Hc. auto.
    + intros p Hp. destruct (I4 p Hp) as (Hh & Hle & Hc).
      rewrite hasExit_snoc, chunksBeforeExit_snoc, Hh, fmap_app, length_app.
      split; [reflexivity|]. split; [lia|].
      rewrite take_app_le by (rewrite length_fmap; exact Hle). exact Hc.
    + intros Hp. rewrite hasExit_snoc, (I5 Hp). reflexivity.
    + exact I6.
    + intros ev Hev. pose proof (I5 (I6 ev Hev)) as Hh.
      unfold chunksDecode, Handlers.completeErrorLog.
      rewrite chunksBeforeExit_snoc, Hh. exact (I7 ev Hev).
  - (* StdoutData *)
    destruct (ChildProcess.hasStdout (process s)); [|discriminate Hstep].
    destruct (decodeChunk buf) as [result|e]; injection Hstep as <-;
      apply inv_snoc; try reflexivity; [|exact HI].
    apply inv_emit; [intros ev; discriminate|exact HI].
  - (* Settle *)
    destruct (errPromises s !! i) as [[buf st]|] eqn:Hi; [|discriminate Hstep].
    destruct st; try discriminate Hstep.
    pose proof (inv_settle acts s i buf Hi HI) as Hs.
    destruct (decodeChunk buf) as [result|e]; injection Hstep as <-;
      apply inv_snoc; try reflexivity; exact Hs.
  - (* WatcherError *)
    injection Hstep as <-. apply inv_snoc; try reflexivity.
    apply inv_emit; [intros ev; discriminate|exact HI].
  - (* WatcherExit *)
    destruct (phase s) eqn:Hp; try discriminate Hstep.
    injection Hstep as <-. destruct HI as [I1 I2 I3 I4 I5 I6 I7].
    destruct (I3 Hp) as (Hh & Hc).
    split; simpl; auto.
    + intros H. discriminate H.
    + intros q Hq. injection Hq as <-. simpl.
      rewrite hasExit_snoc, chunksBeforeExit_snoc, Hh, app_nil_r.
      split; [apply orb_true_r|]. split; [lia|].
      rewrite take_ge by (rewrite length_fmap; lia). exact Hc.
    + intros H. discriminate H.
    + intros ev Hev. specialize (I6 ev Hev). rewrite Hp in I6. discriminate I6.
    + intros ev Hev. specialize (I6 ev Hev). rewrite Hp in I6. discriminate I6.
  - (* WatcherWindowReady *)
    injection Hstep as <-. apply inv_snoc; try reflexivity.
    apply inv_emit; [intros ev; discriminate|exact HI].
  - (* Finally *)
    destruct (phase s) as [|p|] eqn:Hp; try discriminate Hstep.
    destruct (allSettled _) eqn:Hset; [|discriminate Hstep].
    injection Hstep as <-.
    pose proof (awaited_lines acts s p HI Hp Hset) as Hlines.
    destruct HI as [I1 I2 I3 I4 I5 I6 I7].
    destruct (I4 p Hp) as (Hh & _ & _).
    assert (Hc : chunksBeforeExit (acts ++ [Finally]) = chunksBeforeExit acts).
    { rewrite chunksBeforeExit_snoc, Hh. reflexivity. }
    split; simpl; auto.
    + intros H. discriminate H.
    + intros q Hq. discriminate Hq.
    + intros _. rewrite hasExit_snoc, Hh. reflexivity.
    + intros ev Hev Hdec. apply in_app_or in Hev as [Hev|[Hev|[]]].
      * specialize (I6 ev Hev). rewrite Hp in I6. discriminate I6.
      * injection Hev as <-. unfold chunksDecode in Hdec. rewrite Hc in Hdec.
        exists (errorLogs s). split; [reflexivity|].
        rewrite Hc. exact (Hlines Hdec).
Qed.

Lemma inv_run p o now registry acts s :
  run acts (start p o now registry) = Some s -> Inv acts s.
Proof.
  revert s. induction acts as [|a acts IH] using rev_ind; intros s Hrun.
  - injection Hrun as <-. apply inv_start.
  - rewrite run_snoc in Hrun.
    destruct (run acts (start p o now registry)) as [s0|]; [|discriminate Hrun].
    exact (inv_step acts a s0 s (IH s0 eq_refl) Hrun).
Qed.

(** What the exit handler achieves.  Whatever the order of the steps,
    when every stderr chunk received before the exit can be decoded, an
    exit event is only emitted once each of these chunks has been decoded
    and its lines appended: its [errorLog] is the join, by line feeds, of a
    list of lines that holds the lines of each of them. *)
Theorem exit_event_after_stderr p o now registry acts s ev :
  run acts (start p o now registry) = Some s ->
  In (minecraft_exit ev) (emitted s) ->
  (forall buf, In buf (chunksBeforeExit acts) -> isOk (decodeChunk buf) = true) ->
  exists logs,
    ExitEvent.errorLog ev = join logs (String LF EmptyString) /\
    forall buf text,
      In buf (chunksBeforeExit acts) ->
      decodeChunk buf = Ok text ->
      incl (split text EOL) logs.
Proof.
  intros Hrun Hev Hdec.
  exact (inv_events encoder UTF8 EOL acts s (inv_run p o now registry acts s Hrun)
           ev Hev Hdec).
Qed.

End ExitOrdering.

(** An instance: the chunk is decoded between the report of the exit and
    the exit event, and its line is in the error log. *)
Lemma exit_event_after_stderr_witness :
  exists logs,
    "boom"%string = join logs newline /\
    forall buf text,
      In buf [Samples.boom] ->
      decodeChunk Samples.encoder "utf8" buf = Ok text ->
      incl (split text newline) logs.
Proof.
  refine (exit_event_after_stderr Samples.encoder "utf8" newline
            Samples.child (Samples.launchOptions (Some Samples.user)) 0%Z
            {[ Some 4242%Z := Samples.child ]} Samples.quietExit
            {| process := Samples.child;
               options := Samples.launchOptions (Some Samples.user);
               startTime := 0%Z; errorLogs := ["boom"%string];
               errPromises := [(Samples.boom, Fulfilled)]; phase := Exited;
               processes := delete (Some 4242%Z) {[ Some 4242%Z := Samples.child ]};
               emitted := [minecraft_stderr (Some 4242%Z) "boom";
                           minecraft_exit (Samples.exitEventOf "boom")] |}
            (Samples.exitEventOf "boom") _ _ _).
  - reflexivity.
  - simpl. right. left. reflexivity.
  - intros buf [<-|[]]. reflexivity.
Defined.

(** C5 (what the code does). The exit handler waits for the stderr
    decodings with [Promise.all(errPromises).catch(..).finally(..)], and
    [Promise.all] is rejected as soon as one of them is.  Here two chunks
    are received before the exit and the first cannot be decoded: the exit
    event is emitted with an empty error log while the second chunk is
    still being decoded, and its line is appended afterwards. *)
Lemma exit_event_before_stderr_decoded :
  chunksBeforeExit Samples.earlyExit = [[xff]; Samples.boom] /\
  decodeChunk Samples.encoder "utf8" Samples.boom = Ok "boom"%string /\
  exists s,
    run Samples.encoder "utf8" newline Samples.earlyExit Samples.session = Some s /\
    emitted s = [minecraft_exit (Samples.exitEventOf "");
                 minecraft_stderr (Some 4242%Z) "boom"] /\
    errorLogs s = ["boom"%string].
Proof.
  split; [reflexivity|]. split; [reflexivity|].
  eexists. split; [reflexivity|]. split; reflexivity.
Qed.




End HandlersFacts.

(** * Facts about the launch service *)

Module LaunchServiceFacts.
Import LaunchService TraceFacts.

Abbreviation calling := (emitsOn calls).

Lemma calling_record P c : P c -> calling P (record c).
Proof. intros H st. exists [c]. simpl. auto. Qed.

Lemma calling_call {A} P c (o : Outcome Thrown A) : P c -> calling P (call c o).
Proof.
  intros H. unfold call. apply emitsOn_bind; [apply calling_record, H|].
  intros _. apply emitsOn_lift.
Qed.

Lemma calling_emit P e : calling P (emit e).
Proof. intros st. exists []. simpl. rewrite app_nil_r. auto. Qed.

Lemma calling_register P p : calling P (register p).
Proof. intros st. exists []. simpl. rewrite app_nil_r. auto. Qed.

Lemma calling_settle {A} P (p : L A) : calling P p -> calling P (settle p).
Proof.
  intros H st. unfold settle. destruct (H st) as (evs & E & F).
  destruct (p st) as [o st']. exists evs. auto.
Qed.

Ltac calling_step :=
  match goal with
  | |- emitsOn _ _ (ret _) => apply emitsOn_ret
  | |- emitsOn _ _ (throw _) => apply emitsOn_throw
  | |- emitsOn _ _ (lift _) => apply emitsOn_lift
  | |- emitsOn _ _ (call _ _) => apply calling_call
  | |- emitsOn _ _ (record _) => apply calling_record
  | |- emitsOn _ _ (emit _) => apply calling_emit
  | |- emitsOn _ _ (register _) => apply calling_register
  | |- emitsOn _ _ (settle _) => apply calling_settle
  | |- emitsOn _ _ (tryCatch _ _) => apply emitsOn_tryCatch; [|intros ?]
  | |- emitsOn _ _ (bind _ _) => apply emitsOn_bind; [|intros ?]
  | |- emitsOn _ _ (match ?x with _ => _ end) => destruct x eqn:?
  | |- emitsOn _ _ (if ?x then _ else _) => destruct x eqn:?
  end.

Section Facts.

Variable env : Env.
Variable AUTHORITY_DEV : string.

Abbreviation generateOptions := (generateOptions env AUTHORITY_DEV).
Abbreviation generateArgumentsBody := (generateArgumentsBody env AUTHORITY_DEV).
Abbreviation generateArguments := (generateArguments env AUTHORITY_DEV).
Abbreviation launchBody := (launchBody env AUTHORITY_DEV).
Abbreviation launch := (launch env AUTHORITY_DEV).
Abbreviation spawned := (spawned env).

Lemma resolveVersion_quiet options : calling quiet (resolveVersion env options).
Proof. unfold resolveVersion. repeat calling_step; exact I. Qed.

Lemma checkAssets_quiet version : calling quiet (checkAssets env version).
Proof. unfold checkAssets. repeat calling_step; exact I. Qed.

Lemma getAccessToken_quiet user : calling quiet (getAccessToken env user).
Proof. unfold getAccessToken. repeat calling_step; exact I. Qed.

Lemma checkJava_quiet javaPath : calling quiet (checkJava env javaPath).
Proof. unfold checkJava. repeat calling_step; exact I. Qed.

Lemma generateOptions_quiet options version accessToken :
  calling quiet (generateOptions options version accessToken).
Proof.
  unfold LaunchService.generateOptions, getAddress. repeat calling_step; exact I.
Qed.

(** Whatever else [#generateOptions] does, the configuration it returns has
    the two bounds exchanged. *)
Lemma generateOptions_exchanged options version accessToken st cfg :
  fst (generateOptions options version accessToken st) = Ok cfg ->
  exchanged options cfg.
Proof.
  unfold LaunchService.generateOptions, getAddress, bind, ret, throw.
  destruct (LaunchOptions.user options) as [user|]; [|discriminate].
  destruct (LaunchOptions.server options) as [server|].
  - destruct (String.eqb _ _).
    + destruct (serverAddress env) as [[a|port]|]; [destruct (nonEmpty a)| |];
        simpl; intros H; try discriminate H; injection H as <-; split; reflexivity.
    + simpl. intros H. injection H as <-. split; reflexivity.
  - simpl. intros H. injection H as <-. split; reflexivity.
Qed.

Lemma rethrow_caught {A} e st : rethrow (A := A) e st = (Throw (caught e), st).
Proof. destruct e as [le|[m s p]|v]; reflexivity. Qed.

(** ** The shape of the entry points *)

Lemma shape_throw {A} options main res e : Shape (A := A) options main res (throw e).
Proof.
  intros st. exists []. simpl. rewrite app_nil_r. split; [reflexivity|].
  left. auto.
Qed.

Lemma shape_bind_post {A B} options main res (Q : A -> Prop)
    (m : L A) (k : A -> L B) :
  calling quiet m ->
  (forall st a, fst (m st) = Ok a -> Q a) ->
  (forall a, Q a -> Shape options main res (k a)) ->
  Shape options main res (bind m k).
Proof.
  intros Hm HQ Hk st. unfold bind.
  destruct (Hm st) as (evs1 & E1 & F1). specialize (HQ st).
  destruct (m st) as [[a|e] st1]; simpl in E1, HQ.
  - destruct (Hk a (HQ a eq_refl) st1) as (evs2 & E2 & H2).
    exists (evs1 ++ evs2). rewrite E2, E1, app_assoc. split; [reflexivity|].
    destruct H2 as [(F2 & Hr)|(pre & cfg & post & -> & Fpre & Fpost & Hx & Hr)].
    + left. split; [apply Forall_app; auto|exact Hr].
    + right. exists (evs1 ++ pre), cfg, post. rewrite app_assoc.
      split; [reflexivity|]. split; [apply Forall_app; auto|]. auto.
  - exists evs1. simpl. split; [exact E1|]. left. auto.
Qed.

Lemma shape_bind {A B} options main res (m : L A) (k : A -> L B) :
  calling quiet m ->
  (forall a, Shape options main res (k a)) ->
  Shape options main res (bind m k).
Proof.
  intros Hm Hk. apply (shape_bind_post options main res (fun _ => True)); auto.
Qed.

Lemma shape_tryCatch {A} options main res (m : L A) :
  Shape options main res m ->
  Shape options main (fun cfg => catching (res cfg)) (tryCatch m rethrow).
Proof.
  intros Hm st. unfold tryCatch. destruct (Hm st) as (evs & E1 & H).
  destruct (m st) as [[a|e] st1]; simpl in *.
  - exists evs. split; [exact E1|].
    destruct H as [(F & Hr)|(pre & cfg & post & -> & Fpre & Fpost & Hx & Hr)];
      [discriminate Hr|].
    right. exists pre, cfg, post. rewrite <- Hr. auto.
  - rewrite rethrow_caught. simpl. exists evs. split; [exact E1|].
    destruct H as [(F & Hr)|(pre & cfg & post & -> & Fpre & Fpost & Hx & Hr)].
    + left. auto.
    + right. exists pre, cfg, post. rewrite <- Hr. auto.
Qed.

Lemma launchBody_shape options : Shape options Launch spawned (launchBody options).
Proof.
  unfold LaunchService.launchBody.
  apply shape_bind; [apply resolveVersion_quiet|]. intros [version|];
    [|apply shape_throw].
  apply shape_bind.
  { destruct (negb _); [apply checkAssets_quiet|apply emitsOn_ret]. }
  intros _. destruct (negb (nonEmpty _)); [apply shape_throw|].
  apply shape_bind; [apply getAccessToken_quiet|]. intros accessToken.
  apply (shape_bind_post options Launch spawned (exchanged options));
    [apply generateOptions_quiet| |].
  { intros st cfg H. exact (generateOptions_exchanged _ _ _ _ _ H). }
  intros cfg Hx.
  apply shape_bind; [apply checkJava_quiet|]. intros _.
  intros st. unfold spawned, supervise, call, record, register, emit, bind, lift, ret.
  simpl. destruct (core_launch env cfg) as [process|e] eqn:Hc; simpl.
  - exists [Launch cfg; CreateMinecraftProcessWatcher process; Unref process].
    split; [rewrite <- !app_assoc; reflexivity|]. right.
    exists [], cfg, [CreateMinecraftProcessWatcher process; Unref process].
    rewrite Hc. repeat split; auto; repeat constructor; try apply Hx.
  - exists [Launch cfg]. split; [reflexivity|]. right.
    exists [], cfg, []. rewrite Hc. repeat split; auto; apply Hx.
Qed.

Lemma generateArgumentsBody_shape options :
  Shape options GenerateArguments (core_generateArguments env)
        (generateArgumentsBody options).
Proof.
  unfold LaunchService.generateArgumentsBody.
  apply shape_bind; [apply resolveVersion_quiet|]. intros [version|];
    [|apply shape_throw].
  destruct (negb (nonEmpty _)); [apply shape_throw|].
  apply shape_bind; [apply getAccessToken_quiet|]. intros accessToken.
  apply (shape_bind_post options GenerateArguments _ (exchanged options));
    [apply generateOptions_quiet| |].
  { intros st cfg H. exact (generateOptions_exchanged _ _ _ _ _ H). }
  intros cfg Hx st. unfold call, record, bind, lift, ret. simpl.
  exists [GenerateArguments cfg].
  destruct (core_generateArguments env cfg) as [args|e] eqn:Hc; simpl;
    (split; [reflexivity|]); right; exists [], cfg, [];
    rewrite Hc; repeat split; auto; apply Hx.
Qed.

(** In a run of that shape, the configuration handed over is the one of
    the shape. *)
Lemma shape_main {A} options main res (m : L A) st cfg :
  (forall c c', main c = main c' -> c = c') ->
  (forall c, ~ quiet (main c)) ->
  Shape options main res m ->
  calls st = [] ->
  In (main cfg) (calls (snd (m st))) ->
  exchanged options cfg /\ fst (m st) = res cfg.
Proof.
  intros Hinj Hloud Hm Hst Hin. destruct (Hm st) as (evs & E1 & H).
  rewrite E1, Hst in Hin. simpl in Hin.
  destruct H as [(F & _)|(pre & cfg0 & post & -> & Fpre & Fpost & Hx & Hr)].
  - rewrite List.Forall_forall in F. destruct (Hloud cfg (F _ Hin)).
  - rewrite List.Forall_forall in Fpre, Fpost.
    apply in_app_or in Hin as [Hin|[Hin|Hin]].
    + destruct (Hloud cfg (Fpre _ Hin)).
    + apply Hinj in Hin. subst cfg0. auto.
    + destruct (Hloud cfg (Fpost _ Hin)).
Qed.

Lemma Launch_inj c c' : Launch c = Launch c' -> c = c'.
Proof. intros H. injection H as ->. reflexivity. Qed.

Lemma GenerateArguments_inj c c' : GenerateArguments c = GenerateArguments c' -> c = c'.
Proof. intros H. injection H as ->. reflexivity. Qed.

(** C8. Every launch configuration that [#generateOptions] returns, that
    [generateArguments] hands to the argument generator or that [launch]
    hands to the spawner has [options.maxMemory] as its minimum-memory
    bound and [options.minMemory] as its maximum-memory bound. *)
Theorem memory_bounds_exchanged options cfg :
  (exists version accessToken st,
      fst (generateOptions options version accessToken st) = Ok cfg) \/
  (exists st, calls st = [] /\
      In (GenerateArguments cfg) (calls (snd (generateArguments options st)))) \/
  (exists st, calls st = [] /\
      In (Launch cfg) (calls (snd (launch options st)))) ->
  LaunchOption.minMemory cfg = LaunchOptions.maxMemory options /\
  LaunchOption.maxMemory cfg = LaunchOptions.minMemory options.
Proof.
  intros [(version & accessToken & st & H)|[(st & Hst & H)|(st & Hst & H)]].
  - exact (generateOptions_exchanged _ _ _ _ _ H).
  - apply (shape_main options GenerateArguments _ _ st cfg GenerateArguments_inj
             (fun c H => H)
             (shape_tryCatch _ _ _ _ (generateArgumentsBody_shape options)) Hst H).
  - apply (shape_main options Launch _ _ st cfg Launch_inj (fun c H => H)
             (shape_tryCatch _ _ _ _ (launchBody_shape options)) Hst H).
Qed.

(** C10. When [launch] has handed a configuration to the spawner and the
    spawner has returned a process, [launch] resolves to the [pid] of that
    process, a number or [undefined]. *)
Theorem launch_resolves_to_pid options st cfg process :
  calls st = [] ->
  In (Launch cfg) (calls (snd (launch options st))) ->
  core_launch env cfg = Ok process ->
  fst (launch options st) = Ok (ChildProcess.pid process).
Proof.
  intros Hst Hin Hc.
  destruct (shape_main options Launch _ _ st cfg Launch_inj (fun c H => H)
              (shape_tryCatch _ _ _ _ (launchBody_shape options)) Hst Hin)
    as (_ & Hr).
  transitivity (catching (spawned cfg)); [exact Hr|].
  unfold spawned. rewrite Hc. reflexivity.
Qed.

(** Conversely, a value [launch] resolves to is the [pid] of a process the
    spawner returned. *)
Lemma launch_result_is_pid options st r :
  fst (launch options st) = Ok r ->
  exists cfg process,
    core_launch env cfg = Ok process /\ r = ChildProcess.pid process.
Proof.
  intros Hr.
  destruct (shape_tryCatch _ _ _ _ (launchBody_shape options) st)
    as (evs & _ & [(_ & H)|(pre & cfg & post & _ & _ & _ & _ & H)]).
  - change (isOk (fst (launch options st)) = false) in H.
    rewrite Hr in H. discriminate H.
  - change (fst (launch options st) = catching (spawned cfg)) in H.
    rewrite Hr in H. unfold spawned in H.
    destruct (core_launch env cfg) as [process|e] eqn:Hc; [|discriminate H].
    injection H as ->. exists cfg, process. auto.
Qed.

(** What the catch clause of the entry points achieves: the result of an
    entry point is what the catch clause makes of the result of its body,
    and unless the body throws [undefined] or [null] it is a value or a
    [LaunchException] whose type is one of the declared ones. *)
Lemma entry_points_wrap options st :
  wraps (fst (generateArgumentsBody options st)) (fst (generateArguments options st)) /\
  wraps (fst (launchBody options st)) (fst (launch options st)) /\
  ((forall v, fst (generateArgumentsBody options st) <> Throw (ThrownNullish v)) ->
   typed (fst (generateArguments options st))) /\
  ((forall v, fst (launchBody options st) <> Throw (ThrownNullish v)) ->
   typed (fst (launch options st))).
Proof.
  assert (Htax : forall e, In (typeOf e) taxonomy).
  { intros []; simpl; auto 10. }
  unfold typed, wraps, LaunchService.generateArguments, LaunchService.launch, tryCatch.
  destruct (generateArgumentsBody options st) as [[a|[le|err|v]] st1];
    destruct (launchBody options st) as [[r|[le'|err'|v']] st2];
    rewrite ?rethrow_caught; cbn [fst caught]; repeat split; auto;
    intros H; exfalso; eapply H; reflexivity.
Qed.

(** C3 (what the code does). The catch clause of the entry points wraps
    what is not a [LaunchException] by reading [(e as any).message].  When
    the body of an entry point throws [undefined] or [null], that read
    throws inside the catch clause: the entry point throws the raw
    [TypeError], which is no [LaunchException]. *)
Theorem entry_points_leak_nullish options st v :
  (fst (generateArgumentsBody options st) = Throw (ThrownNullish v) ->
   fst (generateArguments options st) = Throw (readOfNullish v) /\
   ~ typed (fst (generateArguments options st))) /\
  (fst (launchBody options st) = Throw (ThrownNullish v) ->
   fst (launch options st) = Throw (readOfNullish v) /\
   ~ typed (fst (launch options st))).
Proof.
  unfold LaunchService.generateArguments, LaunchService.launch, tryCatch.
  split.
  - destruct (generateArgumentsBody options st) as [o st1]. simpl. intros ->.
    rewrite rethrow_caught. simpl. split; [reflexivity|]. intros H. exact H.
  - destruct (launchBody options st) as [o st1]. simpl. intros ->.
    rewrite rethrow_caught. simpl. split; [reflexivity|]. intros H. exact H.
Qed.

(** C2 (what the code does). When [launch] gets as far as validating the
    java path and the java service answers that the path does not exist or
    is not executable, the exception thrown inside the [try] is caught by
    the [catch] of that same [try]: [launch] fails with
    [launchNoProperJava], never with [launchInvalidJavaPath] or
    [launchJavaNoPermission]. *)
Theorem launch_java_validation_masked options st version user :
  nonEmpty (LaunchOptions.version options) = true ->
  Version_parse env (getPath env) (LaunchOptions.version options) = Ok version ->
  LaunchOptions.skipAssetsCheck options = Some true ->
  nonEmpty (LaunchOptions.java options) = true ->
  LaunchOptions.user options = Some user ->
  LaunchOptions.server options = None ->
  validateJavaPath env (LaunchOptions.java options) = Ok NotExisted \/
  validateJavaPath env (LaunchOptions.java options) = Ok NoPermission ->
  fst (launch options st) =
    Throw (ThrownLaunch
      {| LaunchException.exception := launchNoProperJava (LaunchOptions.java options);
         LaunchException.message := Some "Cannot launch without a valid java" |}).
Proof.
  intros Hv Hparse Hskip Hjava Huser Hserver Hvalid.
  unfold LaunchService.launch, LaunchService.launchBody, resolveVersion,
    getAccessToken, LaunchService.generateOptions, checkJava, noProperJava.
  rewrite Hv, Hskip, Hjava, Huser, Hserver.
  unfold tryCatch, bind, call, record, lift, ret, throw. simpl.
  rewrite Hparse. simpl.
  destruct (userTokenStorage_get env user) as [token|e]; simpl;
    destruct Hvalid as [->| ->]; reflexivity.
Qed.

(** Inside [launch], the validation of the java path throws nothing but
    [launchNoProperJava]. *)
Lemma checkJava_throws javaPath st e :
  fst (checkJava env javaPath st) = Throw e -> e = noProperJava javaPath.
Proof.
  unfold checkJava, tryCatch, bind, call, record, lift, ret, throw. simpl.
  destruct (validateJavaPath env javaPath) as [[]|e0]; simpl; intros H;
    try discriminate H; injection H as <-; reflexivity.
Qed.

End Facts.

(** Witness of C8: a launch that reaches the spawner. *)
Lemma memory_bounds_exchanged_witness :
  let cfg := {|
    LaunchOption.gameProfile := Some Samples.steve;
    LaunchOption.accessToken := Some "token"%string;
    LaunchOption.gamePath := "/home/steve/.minecraft";
    LaunchOption.resourcePath := "/home/steve/.minecraft";
    LaunchOption.javaPath := "/usr/bin/java";
    LaunchOption.minMemory := Some 4096%Z;
    LaunchOption.maxMemory := Some 1024%Z;
    LaunchOption.version := Samples.resolved;
    LaunchOption.extraExecOption :=
      {| ExecOption.detached := true; ExecOption.cwd := "/home/steve/.minecraft" |};
    LaunchOption.extraJVMArgs := None;
    LaunchOption.extraMCArgs := None;
    LaunchOption.launcherBrand := "";
    LaunchOption.launcherName := "XMCL";
    LaunchOption.yggdrasilAgent := None;
    LaunchOption.prechecks := [checkNatives; linkAssets];
    LaunchOption.server := None |} in
  Some 4096%Z = LaunchOptions.maxMemory (Samples.launchOptions (Some Samples.user)) /\
  Some 1024%Z = LaunchOptions.minMemory (Samples.launchOptions (Some Samples.user)).
Proof.
  intros cfg.
  apply (memory_bounds_exchanged (Samples.environment Okay) "dev"
           (Samples.launchOptions (Some Samples.user)) cfg).
  right. right. exists init. split; [reflexivity|].
  vm_compute. do 3 right. left. reflexivity.
Defined.

(** Witness of C10: the sample launch resolves to the pid 4242. *)
Lemma launch_resolves_to_pid_witness :
  fst (launch (Samples.environment Okay) "dev"
         (Samples.launchOptions (Some Samples.user)) init) = Ok (Some 4242%Z).
Proof.
  refine (launch_resolves_to_pid (Samples.environment Okay) "dev"
            (Samples.launchOptions (Some Samples.user)) init _ Samples.child
            eq_refl _ eq_refl).
  vm_compute. do 3 right. left. reflexivity.
Defined.

(** Witness of C2, the failing input: the java service answers that
    [/usr/bin/java] does not exist, and [launch] fails with
    [launchNoProperJava]. *)
Lemma launch_java_validation_masked_witness :
  fst (launch (Samples.environment NotExisted) "dev"
         (Samples.launchOptions (Some Samples.user)) init) =
  Throw (ThrownLaunch
    {| LaunchException.exception := launchNoProperJava "/usr/bin/java";
       LaunchException.message := Some "Cannot launch without a valid java"%string |}).
Proof.
  exact (launch_java_validation_masked (Samples.environment NotExisted) "dev"
           (Samples.launchOptions (Some Samples.user)) init Samples.resolved
           Samples.user eq_refl eq_refl eq_refl eq_refl eq_refl eq_refl
           (or_introl eq_refl)).
Defined.

(** Witness of C3, the failing input: the core launcher rejects with
    [undefined], and both entry points throw the [TypeError] of the read of
    [message], which is no [LaunchException]. *)
Lemma entry_points_leak_nullish_witness :
  let options := Samples.launchOptions (Some Samples.user) in
  fst (generateArguments MoreSamples.rejecting "dev" options init)
    = Throw (typeError "Cannot read properties of undefined (reading 'message')") /\
  fst (launch MoreSamples.rejecting "dev" options init)
    = Throw (typeError "Cannot read properties of undefined (reading 'message')") /\
  ~ typed (fst (launch MoreSamples.rejecting "dev" options init)).
Proof.
  pose proof (entry_points_leak_nullish MoreSamples.rejecting "dev"
                (Samples.launchOptions (Some Samples.user)) init jsUndefined)
    as [H1 H2].
  destruct (H1 eq_refl) as [G1 _]. destruct (H2 eq_refl) as [G2 G3].
  split; [exact G1|]. split; [exact G2|exact G3].
Defined.

(** The same with a java that is not executable. *)
Example launch_java_no_permission_masked :
  fst (launch (Samples.environment NoPermission) "dev"
         (Samples.launchOptions (Some Samples.user)) init) =
  Throw (ThrownLaunch
    {| LaunchException.exception := launchNoProperJava "/usr/bin/java";
       LaunchException.message := Some "Cannot launch without a valid java"%string |}).
Proof. reflexivity. Qed.

(** An error that is not a [LaunchException] is wrapped: without a user,
    [#generateOptions] fails on [user.profiles], and [launch] throws a
    [launchGeneralException] holding that error. *)
Example launch_wraps_type_error :
  fst (launch (Samples.environment Okay) "dev" (Samples.launchOptions None) init) =
  Throw (ThrownLaunch
    {| LaunchException.exception :=
         launchGeneralException
           {| message := Some "Cannot read properties of undefined (reading 'profiles')"%string;
              stack := None; props := [] |};
       LaunchException.message := None |}).
Proof. reflexivity. Qed.

End LaunchServiceFacts.

(** * More facts about JavaScript strings *)

Module StringMore.
Import StringFacts.

#[local] Arguments String.append !_ _ / : simpl nomatch.

Lemma stdlib_substring_all b : String.substring 0 (String.length b) b = b.
Proof. induction b as [|c b IH]; simpl; [reflexivity|]. rewrite IH. reflexivity. Qed.

Lemma stdlib_substring_skip a b n :
  String.substring (String.length a) n (a ++ b) = String.substring 0 n b.
Proof. induction a as [|c a IH]; simpl; [reflexivity|exact IH]. Qed.

(** [(a + b).substring(a.length)] is [b]. *)
Lemma substringFrom_app a b :
  substringFrom (a ++ b) (Z.of_nat (String.length a)) = b.
Proof.
  unfold substringFrom, substring, clamp. rewrite length_append.
  replace (Z.to_nat (Z.min (Z.max (Z.of_nat (String.length a)) 0)
                           (Z.of_nat (String.length a + String.length b))))
    with (String.length a) by lia.
  replace (Z.to_nat (Z.min (Z.max (Z.of_nat (String.length a + String.length b)) 0)
                           (Z.of_nat (String.length a + String.length b))))
    with (String.length a + String.length b)%nat by lia.
  rewrite Nat.min_l, Nat.max_r by lia.
  replace (String.length a + String.length b - String.length a)%nat
    with (String.length b) by lia.
  rewrite stdlib_substring_skip. apply stdlib_substring_all.
Qed.

Lemma prefix_char c d s :
  String.prefix (String c EmptyString) (String d s) = Ascii.eqb d c.
Proof.
  simpl. destruct (ascii_dec c d) as [->|Hne].
  - rewrite Ascii.eqb_refl. destruct s; reflexivity.
  - symmetry. apply Ascii.eqb_neq. congruence.
Qed.

(** [s.indexOf(c)] for a code unit [c] that does not occur in [s]. *)
Lemma indexOfFrom_lacks c s i :
  LaunchSpec.lacks c s = true -> indexOfFrom (String c EmptyString) s i = (-1)%Z.
Proof.
  revert i. induction s as [|d s IH]; intros i H; [reflexivity|].
  simpl in H. apply andb_prop in H as [Hd Hs].
  rewrite indexOfFrom_eq, prefix_char.
  apply negb_true_iff in Hd. rewrite Hd. apply IH, Hs.
Qed.

(** [s.indexOf(c)] is at the first occurrence of [c]. *)
Lemma indexOfFrom_first c a b i :
  LaunchSpec.lacks c a = true ->
  indexOfFrom (String c EmptyString) (a ++ String c b) i
    = (i + Z.of_nat (String.length a))%Z.
Proof.
  revert i. induction a as [|d a IH]; intros i H.
  - simpl String.append. rewrite indexOfFrom_eq, prefix_char, Ascii.eqb_refl.
    simpl. lia.
  - simpl in H. apply andb_prop in H as [Hd Ha].
    simpl String.append. rewrite indexOfFrom_eq, prefix_char.
    apply negb_true_iff in Hd. rewrite Hd, IH by exact Ha.
    simpl String.length. lia.
Qed.

(** [s.substring(-1)] is [s]. *)
Lemma substringFrom_minus_one s : substringFrom s (-1) = s.
Proof.
  unfold substringFrom, substring, clamp.
  replace (Z.to_nat (Z.min (Z.max (-1) 0) (Z.of_nat (String.length s)))) with 0%nat
    by lia.
  replace (Z.to_nat (Z.min (Z.max (Z.of_nat (String.length s)) 0)
                           (Z.of_nat (String.length s))))
    with (String.length s) by lia.
  rewrite Nat.min_l, Nat.max_r, Nat.sub_0_r by lia.
  apply stdlib_substring_all.
Qed.

(** The address [getAddress] builds from a pipe name. *)
Lemma localAuthority_bare address :
  LaunchSpec.lacks ":" address = true ->
  LaunchSpec.localAuthority (LaunchService.PipeAddress address)
    = ("http://localhost" ++ address ++ "/yggdrasil")%string.
Proof.
  intros H. unfold LaunchSpec.localAuthority, indexOf.
  rewrite (indexOfFrom_lacks ":" address 0 H), substringFrom_minus_one. reflexivity.
Qed.

Lemma localAuthority_port a b :
  LaunchSpec.lacks ":" a = true ->
  LaunchSpec.localAuthority (LaunchService.PipeAddress (a ++ ":" ++ b))
    = ("http://localhost:" ++ b ++ "/yggdrasil")%string.
Proof.
  intros H. unfold LaunchSpec.localAuthority, indexOf.
  change (a ++ ":" ++ b)%string with (a ++ String ":" b)%string.
  rewrite (indexOfFrom_first ":" a b 0 H), Z.add_0_l, substringFrom_app.
  reflexivity.
Qed.

(** ** [split] and [join] *)

Ltac distinct := let E := fresh in intros E; discriminate E.

Lemma concat_cons sep x l :
  l <> [] -> String.concat sep (x :: l) = (x ++ sep ++ String.concat sep l)%string.
Proof. destruct l; [congruence|reflexivity]. Qed.

Lemma splitFrom_nonempty sep s cur skip : splitFrom sep s cur skip <> [].
Proof.
  revert cur skip. induction s as [|c s IH]; intros cur skip; cbn [splitFrom];
    [distinct|].
  destruct skip; [|apply IH]. destruct (String.prefix sep (String c s));
    [intros E; discriminate E|apply IH].
Qed.

Lemma splitFrom_skip sep a t cur :
  splitFrom sep (a ++ t) cur (String.length a) = splitFrom sep t cur 0.
Proof. induction a as [|c a IH]; simpl; [reflexivity|exact IH]. Qed.

Lemma splitFrom_join sep n :
  sep <> ""%string ->
  forall s cur, (String.length s <= n)%nat ->
    String.concat sep (splitFrom sep s cur 0) = (cur ++ s)%string.
Proof.
  intros Hsep. induction n as [|n IH]; intros s cur Hn.
  - destruct s; [|simpl in Hn; lia]. simpl. symmetry. apply append_nil_r.
  - destruct s as [|c s]; [simpl; symmetry; apply append_nil_r|].
    simpl in Hn. cbn [splitFrom].
    destruct (String.prefix sep (String c s)) eqn:Hp.
    + destruct (prefix_split _ _ Hp) as (t & Ht).
      destruct sep as [|d sep']; [congruence|].
      simpl in Ht. injection Ht as <- ->.
      replace (String.length (String c sep') - 1)%nat with (String.length sep')
        by (simpl; lia).
      rewrite splitFrom_skip, concat_cons by apply splitFrom_nonempty.
      rewrite IH by (rewrite length_append in Hn; lia).
      reflexivity.
    + rewrite IH by lia. rewrite append_assoc. reflexivity.
Qed.

(** [s.split(sep).join(sep)] is [s]. *)
Lemma join_split s sep : sep <> ""%string -> join (split s sep) sep = s.
Proof.
  intros Hsep. unfold join, split.
  rewrite (splitFrom_join sep (String.length s) Hsep) by lia. reflexivity.
Qed.

Lemma concat_app sep l1 l2 :
  l1 <> [] -> l2 <> [] ->
  String.concat sep (l1 ++ l2)
    = (String.concat sep l1 ++ sep ++ String.concat sep l2)%string.
Proof.
  intros H1 H2. induction l1 as [|x l1 IH]; [congruence|].
  destruct l1 as [|y l1].
  - simpl app. rewrite concat_cons by exact H2. reflexivity.
  - change ((x :: y :: l1) ++ l2) with (x :: (y :: l1) ++ l2).
    rewrite concat_cons by distinct. rewrite IH by distinct.
    rewrite (concat_cons sep x (y :: l1)) by distinct.
    rewrite !append_assoc. reflexivity.
Qed.

(** Joining the pieces of texts that were split at [sep] is joining the
    texts. *)
Lemma join_flat_map_split sep texts :
  sep <> ""%string ->
  join (flat_map (fun text => split text sep) texts) sep = join texts sep.
Proof.
  intros Hsep. unfold join. induction texts as [|t rest IH]; [reflexivity|].
  cbn [flat_map]. destruct rest as [|u rest].
  - cbn [flat_map]. rewrite app_nil_r. apply (join_split t sep Hsep).
  - rewrite concat_app;
      [|apply splitFrom_nonempty
       |cbn [flat_map]; intros E; apply app_eq_nil in E as [E _];
        exact (splitFrom_nonempty _ _ _ _ E)].
    rewrite IH. rewrite (concat_cons sep t (u :: rest)) by distinct.
    change (String.concat sep (split t sep)) with (join (split t sep) sep).
    rewrite join_split by exact Hsep. reflexivity.
Qed.

(** ** [lastIndexOf] of a string that does not occur *)

Lemma lastIndexOfFrom_absent p s i :
  HandlersSpec.occurs p s = false -> lastIndexOfFrom p s i = (-1)%Z.
Proof.
  revert i. induction s as [|c s IH]; intros i H.
  - rewrite lastIndexOfFrom_nil. cbn [HandlersSpec.occurs] in H.
    rewrite orb_false_r in H.
    rewrite H. reflexivity.
  - cbn [HandlersSpec.occurs] in H. apply orb_false_elim in H as [Hp Hs].
    rewrite lastIndexOfFrom_cons, IH by exact Hs. rewrite Hp. reflexivity.
Qed.

End StringMore.

(** * More facts about the orchestrator *)

Module OrchestratorMore.
Import Orchestrator OrchestratorSpec TraceFacts OrchestratorFacts StringFacts StringMore.

Lemma find_eqb {A} (f : A -> string) (x : string) (l : list A) (a : A) :
  find (fun v => String.eqb (f v) x) l = Some a -> In a l /\ f a = x.
Proof.
  intros H. apply find_some in H as [Hin H]. apply String.eqb_eq in H. auto.
Qed.

Lemma find_eqb2 {A} (f g : A -> string) (x y : string) (l : list A) (a : A) :
  find (fun v => String.eqb (f v) x && String.eqb (g v) y) l = Some a ->
  In a l /\ f a = x /\ g a = y.
Proof.
  intros H. apply find_some in H as [Hin H]. apply andb_prop in H as [H1 H2].
  apply String.eqb_eq in H1, H2. auto.
Qed.

Section Sound.

Variable svc : Services.
Variable versions : list LocalVersionHeader.t.
Variable runtime : RuntimeVersions.t.
Variable side : Side.
Variable jar : bool.

Abbreviation minecraft := (RuntimeVersions.minecraft runtime).
Abbreviation ok := (sound versions runtime side jar).

(** Solves what an event of a block has to satisfy, from the equations the
    case analysis has left in the context. *)
Ltac event_solve :=
  unfold sound, targets, asRequested, refreshesLocal, baseWhenNeeded, catalogKeys;
  simpl; repeat split; auto 6;
  repeat match goal with
    | |- forall m, find _ _ = Some m -> _ =>
        let Hm := fresh in intros m Hm; apply find_eqb in Hm; apply Hm
    | H : find _ versions = Some ?h |- exists _, In _ versions /\ _ =>
        first [ apply (find_eqb LocalVersionHeader.id) in H; destruct H as [? ?]
              | apply find_eqb2 in H; destruct H as (? & ? & ?)
              | apply find_some in H; destruct H as [? H];
                apply andb_prop in H; destruct H as [H ?];
                apply andb_prop in H; destruct H as [H ?];
                apply String.eqb_eq in H ];
        exists h; auto
    | H : jar = true |- jar = true \/ _ => left; exact H
    | H : find _ versions = None |- _ \/ find _ versions = None => right; exact H
    | |- truthy _ = Some (match find ?f ?l with _ => _ end) =>
        let Hf := fresh in
        destruct (find f l) eqn:Hf;
        [apply find_eqb in Hf; destruct Hf as [_ Hf]; rewrite Hf|]; assumption
    | |- truthy _ = Some _ => assumption
    end.

Lemma installBase_sound : emits ok (installBase svc versions minecraft side jar).
Proof. unfold installBase. repeat emits_step; event_solve. Qed.

Lemma installForgeBranch_sound :
  emits ok (installForgeBranch svc versions minecraft
              (RuntimeVersions.forge runtime) side).
Proof. unfold installForgeBranch. repeat emits_step; event_solve. Qed.

Lemma installNeoForgedBranch_sound fv :
  emits ok (installNeoForgedBranch svc versions minecraft
              (RuntimeVersions.neoForged runtime) fv).
Proof. unfold installNeoForgedBranch. repeat emits_step; event_solve. Qed.

Lemma installLoaders_sound : emits ok (installLoaders svc versions runtime).
Proof. unfold installLoaders. repeat emits_step; event_solve. Qed.

Lemma installOptifineOrLoaders_sound fv :
  emits ok (installOptifineOrLoaders svc versions runtime fv).
Proof.
  unfold installOptifineOrLoaders.
  repeat first [apply installLoaders_sound | emits_step]; event_solve.
Qed.

Lemma install_sound : emits ok (install svc versions runtime side jar).
Proof.
  unfold install, afterBase.
  apply emitsOn_bind; [apply installBase_sound|intros _].
  apply emitsOn_bind; [apply installForgeBranch_sound|intros fv].
  apply emitsOn_bind; [apply installNeoForgedBranch_sound|intros fv'].
  apply installOptifineOrLoaders_sound.
Qed.

(** X1. Every catalog [install] consults and every installer it calls is
    for the base version of the request, and the base and Forge installers
    get the side of the request; a catalog entry handed to the base
    installer has the requested id. *)
Theorem install_targets_request c :
  Forall (targets minecraft side)
         (trace (snd (run (install svc versions runtime side jar) c))).
Proof.
  apply emits_run. eapply emitsOn_weaken; [|apply install_sound].
  intros e H. apply H.
Qed.

(** X2. The Forge, NeoForge, Fabric and Quilt installers are called with
    the version string of the request, whatever the catalogs hold: a catalog
    entry that is found has that same version, and a miss falls back to
    it. *)
Theorem install_passes_requested_versions c :
  Forall (asRequested runtime)
         (trace (snd (run (install svc versions runtime side jar) c))).
Proof.
  apply emits_run. eapply emitsOn_weaken; [|apply install_sound].
  intros e H. apply H.
Qed.

(** X3. [install] only refreshes versions that are in the local store: each
    refreshed id is the id of a local header that has the requested base
    version as its id or as its [minecraft] field. *)
Theorem install_refreshes_local_headers c :
  Forall (refreshesLocal versions minecraft)
         (trace (snd (run (install svc versions runtime side jar) c))).
Proof.
  apply emits_run. eapply emitsOn_weaken; [|apply install_sound].
  intros e H. apply H.
Qed.

(** X4. The base installer is only called when the jar reinstall is forced
    or no local header has the base version as its id. *)
Theorem install_base_when_needed c :
  Forall (baseWhenNeeded versions minecraft jar)
         (trace (snd (run (install svc versions runtime side jar) c))).
Proof.
  apply emits_run. eapply emitsOn_weaken; [|apply install_sound].
  intros e H. apply H.
Qed.

Lemma baseEvent_not_loader e : baseEvent e -> isLoaderEvent e = false.
Proof. destruct e; simpl; intros H; try contradiction; subst; reflexivity. Qed.

Lemma forgeEvent_not_loader e : forgeEvent minecraft e -> isLoaderEvent e = false.
Proof. destruct e; simpl; intros H; try contradiction; subst; reflexivity. Qed.

Lemma neoForgedEvent_not_loader e :
  neoForgedEvent minecraft e -> isLoaderEvent e = false.
Proof. destruct e; simpl; intros H; try contradiction; subst; reflexivity. Qed.

(** Up to the NeoForge block, no call belongs to the Fabric, Quilt or
    LabyMod blocks. *)
Lemma prefix_not_loader (k : option string -> M string) :
  (forall fv, emits (fun e => isLoaderEvent e = false) (k fv)) ->
  emits (fun e => isLoaderEvent e = false)
    (do! installBase svc versions minecraft side jar in
     let! fv := installForgeBranch svc versions minecraft
                  (RuntimeVersions.forge runtime) side in
     let! fv' := installNeoForgedBranch svc versions minecraft
                   (RuntimeVersions.neoForged runtime) fv in
     k fv').
Proof.
  intros Hk.
  apply emitsOn_bind;
    [eapply emitsOn_weaken; [apply baseEvent_not_loader|apply installBase_emits]|].
  intros _. apply emitsOn_bind;
    [eapply emitsOn_weaken; [apply forgeEvent_not_loader|apply installForgeBranch_emits]|].
  intros fv. apply emitsOn_bind;
    [eapply emitsOn_weaken;
       [apply neoForgedEvent_not_loader|apply installNeoForgedBranch_emits]|].
  exact Hk.
Qed.

(** X5. When [optifine] is requested, [install] never reaches the Fabric,
    Quilt and LabyMod blocks, whatever else the request names: none of
    their installers is called and the LabyMod manifest is not looked up. *)
Theorem install_optifine_short_circuits c o :
  truthy (RuntimeVersions.optifine runtime) = Some o ->
  Forall (fun e => isLoaderEvent e = false)
         (trace (snd (run (install svc versions runtime side jar) c))).
Proof.
  intros Ho. apply emits_run. unfold install, afterBase.
  apply (prefix_not_loader (installOptifineOrLoaders svc versions runtime)).
  intros fv. unfold installOptifineOrLoaders. rewrite Ho.
  repeat emits_step; reflexivity.
Qed.

(** X6. A request for the base version alone only makes the calls of the
    base block, and once that block has succeeded the result is the base
    version id. *)
Theorem install_plain c :
  plain runtime ->
  Forall baseEvent (trace (snd (run (install svc versions runtime side jar) c))) /\
  (isOk (fst (run (installBase svc versions minecraft side jar) c)) = true ->
   fst (run (install svc versions runtime side jar) c) = Ok minecraft).
Proof.
  intros (Hf & Hn & Ho & Hfa & Hq & Hl). split.
  - apply emits_run. unfold install, afterBase, installForgeBranch,
      installNeoForgedBranch, installOptifineOrLoaders, installLoaders.
    rewrite Hf, Hn, Ho, Hfa, Hq, Hl.
    apply emitsOn_bind; [apply installBase_emits|intros _].
    repeat emits_step; exact I.
  - unfold run, install, afterBase, installForgeBranch, installNeoForgedBranch,
      installOptifineOrLoaders, installLoaders.
    rewrite Hf, Hn, Ho, Hfa, Hq, Hl. unfold_eff.
    destruct (installBase svc versions minecraft side jar _) as [[[]|e] st1];
      simpl; [reflexivity|discriminate].
Qed.

(** The version string the Optifine block works with: [o] without a
    leading base version. *)
Lemma optifine_stripped o v :
  o = (minecraft ++ v)%string \/ (String.prefix minecraft o = false /\ v = o) ->
  (if startsWith o minecraft
   then substringFrom o (Z.of_nat (String.length minecraft)) else o) = v.
Proof.
  unfold startsWith. intros [->|[Hp ->]].
  - rewrite prefix_app. apply substringFrom_app.
  - rewrite Hp. reflexivity.
Qed.

(** The Optifine block, from the state [st] and on the parent [fv]. *)
Lemma installOptifine_block fv st o v :
  truthy (RuntimeVersions.optifine runtime) = Some o ->
  o = (minecraft ++ v)%string \/ (String.prefix minecraft o = false /\ v = o) ->
  installOptifineOrLoaders svc versions runtime fv st =
  match find (fun h => String.eqb (LocalVersionHeader.minecraft h) minecraft
                       && String.eqb (LocalVersionHeader.optifine h) v
                       && String.eqb (LocalVersionHeader.forge h) (orElse fv ""))
             versions with
  | Some h =>
      (mapOutcome (fun _ => LocalVersionHeader.id h)
         (refreshVersion svc (LocalVersionHeader.id h)),
       {| cache := cache st;
          trace := trace st ++ [RefreshVersion (LocalVersionHeader.id h)] |})
  | None =>
      (mapOutcome fst (installOptifine svc (optifineOptions svc minecraft v fv)),
       {| cache := cache st;
          trace := trace st ++ [InstallOptifine (optifineOptions svc minecraft v fv)] |})
  end.
Proof.
  intros Ho Hv. unfold installOptifineOrLoaders. rewrite Ho.
  cbv zeta. rewrite (optifine_stripped o v Hv).
  destruct (find _ versions) as [h|]; unfold_eff; simpl.
  - destruct (refreshVersion svc (LocalVersionHeader.id h)) as [[]|e]; reflexivity.
  - unfold optifineOptions. destruct (parseOptifineVersion svc v) as [type patch].
    simpl. destruct (installOptifine svc _) as [[r1 r2]|e]; reflexivity.
Qed.

(** X7. An Optifine version that starts with the base version is used
    without that prefix, and one that does not is used as it is: with no
    Forge and no NeoForge in the request, once the base block has succeeded
    the result of [install] is the id of the local header for that version
    (after its refresh) or the first component of what the Optifine
    installer answers for the parsed version, without a parent. *)
Theorem install_optifine_strips_base_version c o v :
  truthy (RuntimeVersions.optifine runtime) = Some o ->
  truthy (RuntimeVersions.forge runtime) = None ->
  truthy (RuntimeVersions.neoForged runtime) = None ->
  o = (minecraft ++ v)%string \/ (String.prefix minecraft o = false /\ v = o) ->
  isOk (fst (run (installBase svc versions minecraft side jar) c)) = true ->
  let r := run (install svc versions runtime side jar) c in
  match find (fun h => String.eqb (LocalVersionHeader.minecraft h) minecraft
                       && String.eqb (LocalVersionHeader.optifine h) v
                       && String.eqb (LocalVersionHeader.forge h) "")
             versions with
  | Some h =>
      fst r = mapOutcome (fun _ => LocalVersionHeader.id h)
                (refreshVersion svc (LocalVersionHeader.id h)) /\
      In (RefreshVersion (LocalVersionHeader.id h)) (trace (snd r))
  | None =>
      fst r = mapOutcome fst
                (installOptifine svc (optifineOptions svc minecraft v None)) /\
      In (InstallOptifine (optifineOptions svc minecraft v None)) (trace (snd r))
  end.
Proof.
  intros Ho Hf Hn Hv Hbase. cbv zeta.
  unfold run in *. rewrite install_unfold.
  destruct (installBase svc versions minecraft side jar _) as [[[]|e] st1];
    [clear Hbase|discriminate Hbase].
  unfold afterBase, installForgeBranch, installNeoForgedBranch.
  rewrite Hf, Hn. unfold bind, ret. cbv beta iota.
  rewrite (installOptifine_block None st1 o v Ho Hv).
  change (orElse None "") with ""%string.
  destruct (find _ versions) as [h|]; simpl;
    (split; [reflexivity|apply in_or_app; right; left; reflexivity]).
Qed.

(** X8. When NeoForge is not requested, Optifine is layered on the Forge
    version of the request: when the Forge version is installed locally
    under a non-empty id and its refresh succeeds, the local Optifine header
    that is looked for is the one built on that id, and on a miss, once the
    base-version block has succeeded, the Optifine installer is called with
    that id as [inheritFrom] and its first result is the result of
    [install].  (With NeoForge requested as well, the parent is what the
    NeoForge block leaves in [forgeVersion].) *)
Theorem install_optifine_inherits_forge c o v f h :
  truthy (RuntimeVersions.optifine runtime) = Some o ->
  truthy (RuntimeVersions.forge runtime) = Some f ->
  truthy (RuntimeVersions.neoForged runtime) = None ->
  o = (minecraft ++ v)%string \/ (String.prefix minecraft o = false /\ v = o) ->
  find (fun h => String.eqb (LocalVersionHeader.forge h) f
                 && String.eqb (LocalVersionHeader.minecraft h) minecraft)
       versions = Some h ->
  LocalVersionHeader.id h <> ""%string ->
  refreshVersion svc (LocalVersionHeader.id h) = Ok tt ->
  find (fun x => String.eqb (LocalVersionHeader.minecraft x) minecraft
                 && String.eqb (LocalVersionHeader.optifine x) v
                 && String.eqb (LocalVersionHeader.forge x) (LocalVersionHeader.id h))
       versions = None ->
  isOk (fst (run (installBase svc versions minecraft side jar) c)) = true ->
  let r := run (install svc versions runtime side jar) c in
  let options := optifineOptions svc minecraft v (Some (LocalVersionHeader.id h)) in
  fst r = mapOutcome fst (installOptifine svc options) /\
  In (InstallOptifine options) (trace (snd r)).
Proof.
  intros Ho Hf Hn Hv Hh Hid Hrefresh Hfind Hbase. cbv zeta.
  unfold run in *. rewrite install_unfold.
  destruct (installBase svc versions minecraft side jar _) as [[[]|e] st1];
    [clear Hbase|discriminate Hbase].
  unfold afterBase, installForgeBranch, installNeoForgedBranch.
  rewrite Hf, Hn, Hh. unfold call, emit, lift, bind, ret. rewrite Hrefresh.
  cbv beta iota. rewrite (installOptifine_block _ _ o v Ho Hv).
  assert (Hor : orElse (Some (LocalVersionHeader.id h)) "" = LocalVersionHeader.id h).
  { unfold orElse, truthy. apply String.eqb_neq in Hid. rewrite Hid. reflexivity. }
  rewrite Hor, Hfind. simpl.
  split; [reflexivity|apply in_or_app; right; left; reflexivity].
Qed.

(** The base block leaves the other keys of the cache alone. *)
Lemma installBase_cache st k :
  k <> "/minecraft-versions"%string ->
  cache (snd (installBase svc versions minecraft side jar st)) !! k = cache st !! k.
Proof.
  intros Hk. unfold installBase. unfold_eff. simpl.
  destruct (cache st !! "/minecraft-versions") as [cat|] eqn:Hc; simpl.
  - repeat split_match; reflexivity.
  - destruct (getMinecraftVersionList svc); simpl; [|reflexivity].
    repeat split_match; simpl; apply lookup_insert_ne; congruence.
Qed.

(** X9. The Forge version of a request that is not installed locally is
    installed from the catalog: once the base-version block has succeeded
    and the Forge catalog of the base version is at hand (cached, or
    fetched), the catalog is looked up and the Forge installer is called
    with the requested version and the installer reference of the first
    catalog entry of that version (none on a miss); when the installer
    answers an id that is not empty and neither NeoForge nor Optifine is
    requested, that id is the result of [install] and the Fabric, Quilt and
    LabyMod blocks are not reached.  (An empty id is falsy: [install] then
    goes on to those blocks.) *)
Theorem install_forge_from_catalog c f l r :
  truthy (RuntimeVersions.forge runtime) = Some f ->
  truthy (RuntimeVersions.neoForged runtime) = None ->
  truthy (RuntimeVersions.optifine runtime) = None ->
  find (fun h => String.eqb (LocalVersionHeader.forge h) f
                 && String.eqb (LocalVersionHeader.minecraft h) minecraft)
       versions = None ->
  c !! ("/forge-versions/" ++ minecraft)%string = Some (ForgeVersionList l) \/
    (c !! ("/forge-versions/" ++ minecraft)%string = None /\
     getForgeVersionList svc minecraft = Ok l) ->
  isOk (fst (run (installBase svc versions minecraft side jar) c)) = true ->
  let o := {| InstallForgeOptions.mcversion := minecraft;
              InstallForgeOptions.version := f;
              InstallForgeOptions.installer :=
                option_map ForgeVersion.installer
                  (find (fun v => String.eqb (ForgeVersion.version v) f) l);
              InstallForgeOptions.side := side |} in
  installForge svc o = Ok r ->
  r <> ""%string ->
  let res := run (install svc versions runtime side jar) c in
  fst res = Ok r /\
  In (CacheLookup ("/forge-versions/" ++ minecraft)%string) (trace (snd res)) /\
  In (InstallForge o) (trace (snd res)) /\
  Forall (fun e => isLoaderEvent e = false) (trace (snd res)).
Proof.
  intros Hf Hn Ho Hfind Hcat Hbase o Hinst Hr res. subst res.
  assert (Hne : ("/forge-versions/" ++ minecraft)%string <> "/minecraft-versions"%string).
  { apply String.eqb_neq. reflexivity. }
  assert (Ho' : {| InstallForgeOptions.mcversion := minecraft;
                   InstallForgeOptions.version :=
                     match find (fun v => String.eqb (ForgeVersion.version v) f) l with
                     | Some x => ForgeVersion.version x
                     | None => f
                     end;
                   InstallForgeOptions.installer :=
                     option_map ForgeVersion.installer
                       (find (fun v => String.eqb (ForgeVersion.version v) f) l);
                   InstallForgeOptions.side := side |} = o).
  { subst o. destruct (find _ l) as [x|] eqn:Hx; [|reflexivity].
    apply find_eqb in Hx as [_ ->]. reflexivity. }
  assert (Hr' : String.eqb r "" = false) by (apply String.eqb_neq; exact Hr).
  unfold run in *. rewrite install_unfold.
  pose proof (installBase_cache {| cache := c; trace := [] |} _ Hne) as Hc.
  pose proof (installBase_emits svc versions minecraft side jar
                {| cache := c; trace := [] |}) as (evs & Hevs & Fevs).
  destruct (installBase svc versions minecraft side jar _) as [[[]|e] st1];
    [clear Hbase|discriminate Hbase].
  simpl in Hc, Hevs.
  assert (Fbase : Forall (fun e => isLoaderEvent e = false) (trace st1)).
  { rewrite Hevs. eapply Forall_impl; [exact Fevs|]. apply baseEvent_not_loader. }
  unfold afterBase, installForgeBranch, installNeoForgedBranch,
    installOptifineOrLoaders.
  rewrite Hf, Hn, Ho, Hfind. unfold_eff. simpl. rewrite Hc.
  destruct Hcat as [Hl|[Hl Hg]]; rewrite Hl; [|rewrite Hg]; simpl;
    rewrite Ho', Hinst; simpl; rewrite Hr'; simpl;
    (split; [reflexivity|]);
    (split; [rewrite ?in_app_iff; simpl; auto 6|]);
    (split; [rewrite ?in_app_iff; simpl; auto 6|]);
    repeat (apply Forall_app; split); auto; repeat constructor.
Qed.

End Sound.

Lemma install_optifine_short_circuits_witness :
  Forall (fun e => isLoaderEvent e = false)
    (trace (snd (run (install Samples.services []
                        (MoreSamples.withOptifine None "1.20.1_HD_U_I6") client false)
                   ∅))).
Proof.
  exact (install_optifine_short_circuits Samples.services []
           (MoreSamples.withOptifine None "1.20.1_HD_U_I6") client false ∅
           "1.20.1_HD_U_I6" eq_refl).
Defined.

Lemma install_plain_witness :
  let runtime := Samples.request None None None None in
  Forall baseEvent
    (trace (snd (run (install Samples.services [] runtime client false) ∅))) /\
  fst (run (install Samples.services [] runtime client false) ∅) = Ok "1.20.1"%string.
Proof.
  pose proof (install_plain Samples.services [] (Samples.request None None None None)
                client false ∅) as H.
  destruct H as [H1 H2]; [repeat split; reflexivity|].
  split; [exact H1|apply H2; reflexivity].
Defined.

Lemma install_optifine_strips_base_version_witness :
  let r := run (install Samples.services []
                  (MoreSamples.withOptifine None "1.20.1_HD_U_I6") client false) ∅ in
  fst r = Ok "1.20.1-Optifine"%string /\
  In (InstallOptifine (optifineOptions Samples.services "1.20.1" "_HD_U_I6" None))
     (trace (snd r)).
Proof.
  refine (install_optifine_strips_base_version Samples.services []
            (MoreSamples.withOptifine None "1.20.1_HD_U_I6") client false ∅
            "1.20.1_HD_U_I6" "_HD_U_I6" _ _ _ _ _); try reflexivity.
  left. reflexivity.
Defined.

Lemma install_optifine_inherits_forge_witness :
  let r := run (install Samples.services Samples.forgeInstalled
                  (MoreSamples.withOptifine (Some "47.2.0"%string) "1.20.1_HD_U_I6")
                  client false) ∅ in
  fst r = Ok "1.20.1-Optifine"%string /\
  In (InstallOptifine
        (optifineOptions Samples.services "1.20.1" "_HD_U_I6"
           (Some "1.20.1-forge-47.2.0"%string)))
     (trace (snd r)).
Proof.
  refine (install_optifine_inherits_forge Samples.services Samples.forgeInstalled
            (MoreSamples.withOptifine (Some "47.2.0"%string) "1.20.1_HD_U_I6")
            client false ∅ "1.20.1_HD_U_I6" "_HD_U_I6" "47.2.0"
            MoreSamples.forgeHeader _ _ _ _ _ _ _ _ _); try reflexivity.
  - left. reflexivity.
  - intros E. discriminate E.
Defined.

Lemma install_forge_from_catalog_witness :
  let o := {| InstallForgeOptions.mcversion := "1.20.1";
              InstallForgeOptions.version := "47.2.0";
              InstallForgeOptions.installer := None;
              InstallForgeOptions.side := client |} in
  let res := run (install Samples.services []
                    (Samples.request (Some "47.2.0"%string) None None None)
                    client false) ∅ in
  fst res = Ok "1.20.1-forge-47.2.0"%string /\
  In (CacheLookup "/forge-versions/1.20.1") (trace (snd res)) /\
  In (InstallForge o) (trace (snd res)) /\
  Forall (fun e => isLoaderEvent e = false) (trace (snd res)).
Proof.
  refine (install_forge_from_catalog Samples.services []
            (Samples.request (Some "47.2.0"%string) None None None) client false ∅
            "47.2.0" [] "1.20.1-forge-47.2.0" _ _ _ _ _ _ _ _); try reflexivity.
  - right. split; reflexivity.
  - intros E. discriminate E.
Defined.

End OrchestratorMore.

(** * More facts about the launch service *)

Module LaunchMore.
Import LaunchService LaunchSpec TraceFacts LaunchServiceFacts.

(** A bind whose first computation establishes [Q] of its value. *)
Lemma emitsOn_bind_post {S E Ev A B} (tr : S -> list Ev) (P : Ev -> Prop)
    (Q : A -> Prop) (m : Eff S E A) (k : A -> Eff S E B) :
  emitsOn tr P m ->
  (forall st a, fst (m st) = Ok a -> Q a) ->
  (forall a, Q a -> emitsOn tr P (k a)) ->
  emitsOn tr P (bind m k).
Proof.
  intros Hm HQ Hk st. unfold bind.
  destruct (Hm st) as (evs1 & E1 & F1). specialize (HQ st).
  destruct (m st) as [[a|e] st1]; simpl in E1, HQ.
  - destruct (Hk a (HQ a eq_refl) st1) as (evs2 & E2 & F2).
    exists (evs1 ++ evs2). rewrite E2, E1, app_assoc. split; [reflexivity|].
    apply Forall_app; auto.
  - exists evs1. simpl. auto.
Qed.

(** ** [kill] *)

(** X10. [kill] of a pid that is not registered kills nothing and leaves
    the state of the service as it is. *)
Theorem kill_unknown pid st :
  processes st !! Some pid = None ->
  kill pid st = (Ok None, st).
Proof.
  intros H. unfold kill. rewrite H, delete_id by exact H.
  destruct st; reflexivity.
Qed.

Lemma kill_unknown_witness : kill 4242 init = (Ok None, init).
Proof. exact (kill_unknown 4242 init eq_refl). Defined.

(** X11. [kill] kills the process registered under the pid and no other,
    removes that entry and only that entry, and a second [kill] of the same
    pid kills nothing. *)
Theorem kill_registered pid st :
  let st' := snd (kill pid st) in
  fst (kill pid st) = Ok (processes st !! Some pid) /\
  processes st' !! Some pid = None /\
  (forall k, k <> Some pid -> processes st' !! k = processes st !! k) /\
  kill pid st' = (Ok None, st') /\
  emitted st' = emitted st /\ calls st' = calls st.
Proof.
  cbv zeta. split; [reflexivity|]. split; [apply lookup_delete_eq|].
  split; [intros k Hk; apply lookup_delete_ne; congruence|].
  split; [|split; reflexivity].
  apply kill_unknown. apply lookup_delete_eq.
Qed.

(** ** What the blocks of [launch] establish *)

Section Launch.

Variable env : Env.
Variable AUTHORITY_DEV : string.
Variable options : LaunchOptions.t.

Abbreviation generateOptions := (generateOptions env AUTHORITY_DEV).
Abbreviation generateArguments := (generateArguments env AUTHORITY_DEV options).
Abbreviation launchBody := (launchBody env AUTHORITY_DEV options).
Abbreviation launch := (launch env AUTHORITY_DEV options).

Lemma quiet_handsOver c :
  quiet c -> handsOver env AUTHORITY_DEV options c /\ isGenerateArguments c = false.
Proof. destruct c; simpl; auto; contradiction. Qed.

Lemma resolveVersion_post st ov :
  fst (resolveVersion env options st) = Ok ov ->
  forall v, ov = Some v ->
    nonEmpty (LaunchOptions.version options) = true /\
    Version_parse env (getPath env) (LaunchOptions.version options) = Ok v.
Proof.
  unfold resolveVersion, tryCatch, bind, call, record, lift, ret. simpl.
  destruct (nonEmpty (LaunchOptions.version options)); simpl.
  - destruct (Version_parse env _ _) as [v0|e]; simpl; intros H v Hv;
      injection H as <-; [injection Hv as <-; auto|discriminate Hv].
  - intros H v Hv. injection H as <-. discriminate Hv.
Qed.

Lemma checkJava_post javaPath st :
  fst (checkJava env javaPath st) = Ok tt ->
  validateJavaPath env javaPath = Ok Okay.
Proof.
  unfold checkJava, tryCatch, bind, call, record, lift, ret, throw. simpl.
  destruct (validateJavaPath env javaPath) as [[]|e]; simpl; intros H;
    try discriminate H; reflexivity.
Qed.

Lemma getAccessToken_post user st token :
  fst (getAccessToken env user st) = Ok token ->
  token = match user with Some u => tokenOf env u | None => None end.
Proof.
  unfold getAccessToken, tokenOf, tryCatch, call, record, lift, bind, ret.
  destruct user as [u|]; simpl.
  - destruct (userTokenStorage_get env u); simpl; intros H; injection H as <-;
      reflexivity.
  - intros H. injection H as <-. reflexivity.
Qed.

(** [#generateOptions] reads nothing of the state of the service. *)
Lemma generateOptions_state version accessToken st :
  generateOptions options version accessToken st =
  (fst (generateOptions options version accessToken init), st).
Proof.
  unfold LaunchService.generateOptions, getAddress, bind, ret, throw.
  destruct (LaunchOptions.user options); [|reflexivity].
  destruct (LaunchOptions.server options); [|reflexivity].
  destruct (String.eqb _ _); [|reflexivity].
  destruct (serverAddress env) as [[a|port]|]; [destruct (nonEmpty a)| |];
    reflexivity.
Qed.

Lemma generateOptions_user version accessToken st cfg :
  fst (generateOptions options version accessToken st) = Ok cfg ->
  exists user, LaunchOptions.user options = Some user.
Proof.
  unfold LaunchService.generateOptions.
  destruct (LaunchOptions.user options) as [u|]; [eauto|discriminate].
Qed.

(** The calls of [supervise] hand nothing over. *)
Lemma supervise_quiet version process :
  calling quiet (supervise options version process).
Proof. unfold supervise. repeat calling_step; exact I. Qed.

Lemma launch_handsOver :
  emitsOn calls
    (fun c => handsOver env AUTHORITY_DEV options c /\ isGenerateArguments c = false)
    launch.
Proof.
  unfold LaunchService.launch.
  apply emitsOn_tryCatch;
    [|intros e; destruct e; simpl; apply emitsOn_throw].
  unfold LaunchService.launchBody.
  apply (emitsOn_bind_post calls _
           (fun ov => forall v, ov = Some v ->
              nonEmpty (LaunchOptions.version options) = true /\
              Version_parse env (getPath env) (LaunchOptions.version options) = Ok v));
    [eapply emitsOn_weaken; [apply quiet_handsOver|apply resolveVersion_quiet]
    |apply resolveVersion_post|].
  intros [version|] Hv; [|apply emitsOn_throw].
  destruct (Hv version eq_refl) as (Hne & Hparse).
  apply emitsOn_bind.
  { eapply emitsOn_weaken; [apply quiet_handsOver|].
    destruct (negb _); [apply checkAssets_quiet|apply emitsOn_ret]. }
  intros _. destruct (negb (nonEmpty (LaunchOptions.java options))) eqn:Hjava;
    [apply emitsOn_throw|].
  apply negb_false_iff in Hjava.
  apply (emitsOn_bind_post calls _
           (fun token => token = match LaunchOptions.user options with
                                 | Some u => tokenOf env u
                                 | None => None
                                 end));
    [eapply emitsOn_weaken; [apply quiet_handsOver|apply getAccessToken_quiet]
    |intros st token H; exact (getAccessToken_post _ st token H)|].
  intros token ->.
  apply (emitsOn_bind_post calls _
           (fun cfg => fst (generateOptions options version
                              match LaunchOptions.user options with
                              | Some u => tokenOf env u
                              | None => None
                              end init) = Ok cfg));
    [eapply emitsOn_weaken; [apply quiet_handsOver|apply generateOptions_quiet]
    |intros st cfg H; rewrite generateOptions_state in H; exact H|].
  intros cfg Hcfg.
  apply (emitsOn_bind_post calls _
           (fun _ => validateJavaPath env (LaunchOptions.java options) = Ok Okay));
    [eapply emitsOn_weaken; [apply quiet_handsOver|apply checkJava_quiet]
    |intros st [] H; exact (checkJava_post _ st H)|].
  intros _ Hvalid.
  apply emitsOn_bind.
  - apply calling_call. simpl. split; [|reflexivity].
    destruct (generateOptions_user _ _ _ _ Hcfg) as (user & Hu).
    rewrite Hu in Hcfg. exists version, user. auto 10.
  - intros process. eapply emitsOn_weaken; [apply quiet_handsOver|].
    apply supervise_quiet.
Qed.

(** X12. A configuration only reaches the spawner after the override
    version was parsed, the java path was found not empty and the java
    service answered [Okay] for it; the request then has a user, and the
    configuration is the one [#generateOptions] builds for the parsed
    version and the access token of that user (none when the token storage
    rejects). *)
Theorem launch_hands_over :
  emitsOn calls (handsOver env AUTHORITY_DEV options) launch.
Proof.
  eapply emitsOn_weaken; [|apply launch_handsOver]. intros c [H _]. exact H.
Qed.

(** ** What [launch] leaves alone *)

Lemma keeps_ret {A} (a : A) : keeps (ret a).
Proof. intros st. auto. Qed.

Lemma keeps_throw {A} e : keeps (throw e : L A).
Proof. intros st. auto. Qed.

Lemma keeps_lift {A} (o : Outcome Thrown A) : keeps (lift o).
Proof. intros st. auto. Qed.

Lemma keeps_record c : keeps (record c).
Proof. intros st. auto. Qed.

Lemma keeps_bind {A B} (m : L A) (k : A -> L B) :
  keeps m -> (forall a, keeps (k a)) -> keeps (bind m k).
Proof.
  intros Hm Hk st. unfold bind. destruct (Hm st) as [H1 H2].
  destruct (m st) as [[a|e] st1]; simpl in *; [|auto].
  destruct (Hk a st1) as [H3 H4]. rewrite H3, H4. auto.
Qed.

Lemma keeps_tryCatch {A} (m : L A) (h : Thrown -> L A) :
  keeps m -> (forall e, keeps (h e)) -> keeps (tryCatch m h).
Proof.
  intros Hm Hh st. unfold tryCatch. destruct (Hm st) as [H1 H2].
  destruct (m st) as [[a|e] st1]; simpl in *; [auto|].
  destruct (Hh e st1) as [H3 H4]. rewrite H3, H4. auto.
Qed.

Lemma keeps_call {A} c (o : Outcome Thrown A) : keeps (call c o).
Proof. unfold call. apply keeps_bind; [apply keeps_record|intros _; apply keeps_lift]. Qed.

Lemma keeps_settle {A} (p : L A) : keeps p -> keeps (settle p).
Proof.
  intros H st. unfold settle. destruct (H st) as [Ha Hb].
  destruct (p st) as [o st']. auto.
Qed.

Lemma keeps_rethrow {A} e : keeps (rethrow (A := A) e).
Proof. destruct e; apply keeps_throw. Qed.

Ltac keeps_step :=
  match goal with
  | |- keeps (ret _) => apply keeps_ret
  | |- keeps (throw _) => apply keeps_throw
  | |- keeps (lift _) => apply keeps_lift
  | |- keeps (call _ _) => apply keeps_call
  | |- keeps (record _) => apply keeps_record
  | |- keeps (rethrow _) => apply keeps_rethrow
  | |- keeps (settle _) => apply keeps_settle
  | |- keeps (tryCatch _ _) => apply keeps_tryCatch; [|intros ?]
  | |- keeps (bind _ _) => apply keeps_bind; [|intros ?]
  | |- keeps (match ?x with _ => _ end) => destruct x eqn:?
  | |- keeps (if ?x then _ else _) => destruct x eqn:?
  end.

Lemma resolveVersion_keeps : keeps (resolveVersion env options).
Proof. unfold resolveVersion. repeat keeps_step. Qed.

Lemma checkAssets_keeps version : keeps (checkAssets env version).
Proof. unfold checkAssets. repeat keeps_step. Qed.

Lemma getAccessToken_keeps user : keeps (getAccessToken env user).
Proof. unfold getAccessToken. repeat keeps_step. Qed.

Lemma checkJava_keeps javaPath : keeps (checkJava env javaPath).
Proof. unfold checkJava. repeat keeps_step. Qed.

Lemma generateOptions_keeps version accessToken :
  keeps (generateOptions options version accessToken).
Proof. intros st. rewrite generateOptions_state. auto. Qed.

Lemma calling_rethrow {A} P e : calling P (rethrow (A := A) e).
Proof. destruct e; apply emitsOn_throw. Qed.

(** X13. [generateArguments] leaves the registry of processes and the
    emitted events as they are, and the only calls it makes are the parse
    of the version, the read of the access token and the generation of the
    arguments: no diagnosis, no validation of the java path, no spawn. *)
Theorem generateArguments_inert :
  keeps generateArguments /\
  emitsOn calls
    (fun c => isVersionParse c || isUserTokenGet c || isGenerateArguments c = true)
    generateArguments.
Proof.
  split.
  - unfold LaunchService.generateArguments, generateArgumentsBody.
    repeat first [apply resolveVersion_keeps | apply getAccessToken_keeps
                 | apply generateOptions_keeps | keeps_step].
  - unfold LaunchService.generateArguments, generateArgumentsBody,
      resolveVersion, getAccessToken, LaunchService.generateOptions, getAddress.
    repeat calling_step; try reflexivity; apply calling_rethrow.
Qed.

(** ** Launches that fail early *)

(** X14. Without an override version that parses, both entry points throw
    [launchNoVersionInstalled] with the request as payload; the one call
    made is the parse of the version, and not even that one when the
    version is the empty string.  Nothing else of the state changes. *)
Theorem launch_without_version st :
  nonEmpty (LaunchOptions.version options) = false \/
  isOk (Version_parse env (getPath env) (LaunchOptions.version options)) = false ->
  let st' := {| processes := processes st; emitted := emitted st;
                calls := calls st ++
                  (if nonEmpty (LaunchOptions.version options)
                   then [VersionParse (getPath env) (LaunchOptions.version options)]
                   else []) |} in
  launch st = (Throw (noVersionInstalled options), st') /\
  generateArguments st = (Throw (noVersionInstalled options), st').
Proof.
  intros H. cbv zeta.
  unfold LaunchService.launch, LaunchService.generateArguments,
    LaunchService.launchBody, generateArgumentsBody, resolveVersion,
    tryCatch, bind, call, record, lift, ret, throw, rethrow, noVersionInstalled.
  destruct (nonEmpty (LaunchOptions.version options)) eqn:Hne; simpl.
  - destruct H as [H|H]; [discriminate H|].
    destruct (Version_parse env _ _); [discriminate H|]. simpl. split; reflexivity.
  - rewrite app_nil_r. destruct st; split; reflexivity.
Qed.

Lemma nonEmpty_false s : nonEmpty s = false -> s = ""%string.
Proof.
  unfold nonEmpty. intros H. apply negb_false_iff in H.
  apply String.eqb_eq in H. exact H.
Qed.

(** X15. With an empty java path neither entry point gets further than
    the assets check: the token of the user is not read, no configuration
    is built, the java service is not asked and nothing is spawned.
    [generateArguments] then throws [launchNoVersionInstalled] or
    [launchNoProperJava] with the empty path. *)
Theorem launch_without_java st :
  nonEmpty (LaunchOptions.java options) = false ->
  emitsOn calls (fun c => isVersionParse c || isAssetsCall c = true) launch /\
  isOk (fst (launch st)) = false /\
  emitsOn calls (fun c => isVersionParse c = true) generateArguments /\
  (fst (generateArguments st) = Throw (noVersionInstalled options) \/
   fst (generateArguments st) = Throw (noProperJava "")).
Proof.
  intros H. pose proof (nonEmpty_false _ H) as Hj.
  assert (Hl : emitsOn calls (fun c => isVersionParse c || isAssetsCall c = true)
                 launch).
  { unfold LaunchService.launch, LaunchService.launchBody, resolveVersion,
      checkAssets. rewrite H. cbn [negb].
    repeat calling_step; try reflexivity; apply calling_rethrow. }
  assert (Hg : emitsOn calls (fun c => isVersionParse c = true) generateArguments).
  { unfold LaunchService.generateArguments, generateArgumentsBody, resolveVersion.
    rewrite H. cbn [negb].
    repeat calling_step; try reflexivity; apply calling_rethrow. }
  repeat split; [exact Hl| |exact Hg|].
  - unfold LaunchService.launch, LaunchService.launchBody, tryCatch, bind.
    rewrite H. cbn [negb].
    destruct (resolveVersion env options st) as [[[v|]|e] st1];
      [|reflexivity|destruct e; reflexivity].
    match goal with
    | |- context [?m st1] =>
        match m with
        | (if _ then _ else _) => destruct (m st1) as [[[]|e] st2]
        end
    end; [reflexivity|destruct e; reflexivity].
  - unfold LaunchService.generateArguments, generateArgumentsBody, resolveVersion,
      tryCatch, bind, call, record, lift, ret, throw.
    rewrite H, Hj. cbn [negb].
    destruct (nonEmpty (LaunchOptions.version options)); simpl;
      [destruct (Version_parse env _ _); simpl|]; auto.
Qed.

(** X16. With [skipAssetsCheck] set, [launch] neither diagnoses nor
    installs the jar or the libraries of the version. *)
Theorem launch_skips_assets_check :
  LaunchOptions.skipAssetsCheck options = Some true ->
  emitsOn calls (fun c => isAssetsCall c = false) launch.
Proof.
  intros H.
  unfold LaunchService.launch, LaunchService.launchBody, resolveVersion,
    getAccessToken, LaunchService.generateOptions, getAddress, checkJava,
    supervise.
  rewrite H. cbn [from_option id negb].
  repeat calling_step; try reflexivity; apply calling_rethrow.
Qed.

Lemma calling_call_post {A} P c (o : Outcome Thrown A) (k : A -> L unit) :
  P c -> (forall a, o = Ok a -> calling P (k a)) -> calling P (bind (call c o) k).
Proof.
  intros Hc Hk.
  apply (emitsOn_bind_post calls P (fun a => o = Ok a));
    [apply calling_call, Hc| |exact Hk].
  intros st a. unfold call, bind, record, lift. simpl. destruct o; simpl; congruence.
Qed.

(** A call that is left to settle hands its outcome on. *)
Lemma calling_settle_call {A B} P c (o : Outcome Thrown A)
    (k : Outcome Thrown A -> L B) :
  P c -> calling P (k o) -> calling P (bind (settle (call c o)) k).
Proof.
  intros Hc Hk st.
  destruct (Hk {| processes := processes st; emitted := emitted st;
                  calls := calls st ++ [c] |}) as (evs & E & F).
  exists (c :: evs). split; [|constructor; assumption].
  unfold bind, settle, call, record, lift. simpl in *.
  destruct o; simpl; rewrite E, <- app_assoc; reflexivity.
Qed.

Lemma checkAssets_repairs version : calling (repairs env) (checkAssets env version).
Proof.
  unfold checkAssets.
  apply calling_settle_call; [exact I|].
  apply calling_settle_call; [exact I|].
  destruct (diagnoseJar env version (getPath env)) as [[issue|]|e] eqn:Hj;
    destruct (diagnoseLibraries env version (getPath env)) as [libs|e'] eqn:Hl;
    try destruct (0 <? length libs)%nat eqn:Hn;
    repeat calling_step; simpl; eauto;
    split; eauto; (destruct libs; [discriminate Hn|intros E; discriminate E]).
Qed.

(** X17. [launch] repairs nothing that was not diagnosed: the jar of a
    version is only installed after its diagnosis reported an issue, and
    the libraries that are installed are those of a diagnosis that found
    some, never an empty list. *)
Theorem launch_repairs_after_diagnosis : emitsOn calls (repairs env) launch.
Proof.
  unfold LaunchService.launch, LaunchService.launchBody, resolveVersion,
    getAccessToken, LaunchService.generateOptions, getAddress, checkJava,
    supervise.
  repeat first [apply checkAssets_repairs | calling_step];
    try exact I; apply calling_rethrow.
Qed.

(** ** The registry and the events after [launch] *)

Lemma launchBody_started st :
  started env options st (fst (launchBody st)) (snd (launchBody st)).
Proof.
  unfold LaunchService.launchBody, bind.
  destruct (resolveVersion_keeps st) as [K1 K2].
  pose proof (resolveVersion_post st) as P1.
  destruct (resolveVersion env options st) as [[[version|]|e] st1];
    simpl in K1, K2, P1 |- *; [|split; congruence ..].
  destruct (P1 _ eq_refl version eq_refl) as [_ Hparse]. clear P1.
  match goal with
  | |- context [?m st1] =>
      match m with
      | (if ?b then _ else _) =>
          assert (Ha : keeps m)
            by (destruct b; [apply checkAssets_keeps|apply keeps_ret]);
          destruct (Ha st1) as [K3 K4];
          destruct (m st1) as [[[]|e] st2]
      end
  end; simpl in K3, K4 |- *; [|split; congruence].
  destruct (negb (nonEmpty (LaunchOptions.java options))); [simpl; split; congruence|].
  destruct (getAccessToken_keeps (LaunchOptions.user options) st2) as [K5 K6].
  destruct (getAccessToken env (LaunchOptions.user options) st2) as [[token|e] st3];
    simpl in K5, K6 |- *; [|split; congruence].
  rewrite generateOptions_state.
  destruct (fst (generateOptions options version token init)) as [cfg|e];
    simpl; [|split; congruence].
  destruct (checkJava_keeps (LaunchOptions.java options) st3) as [K7 K8].
  destruct (checkJava env (LaunchOptions.java options) st3) as [[[]|e] st4];
    simpl in K7, K8 |- *; [|split; congruence].
  unfold call, bind, record, lift. simpl.
  destruct (core_launch env cfg) as [process|e] eqn:Hl; simpl.
  - exists version, cfg, process. repeat split; try assumption; congruence.
  - split; congruence.
Qed.

Lemma launch_started_at st :
  started env options st (fst (launch st)) (snd (launch st)).
Proof.
  pose proof (launchBody_started st) as H.
  unfold LaunchService.launch, tryCatch.
  destruct (launchBody st) as [[pid|e] st1]; simpl in H |- *; [exact H|].
  destruct e; exact H.
Qed.

(** X18. [launch] starts a process or changes nothing: when it throws,
    the registry and the emitted events are as before; when it returns a
    pid, it is the pid of the process the core launcher spawned, that
    process is registered under its pid and the one event emitted is the
    start event, with the Minecraft version of the parsed version. *)
Theorem launch_all_or_nothing st :
  started env options st (fst (launch st)) (snd (launch st)).
Proof. exact (launch_started_at st). Qed.

(** X19. [kill] of the pid [launch] has returned kills the process the
    core launcher spawned for that launch, and the registry is then the
    one before the launch, without that pid. *)
Theorem launch_then_kill st pid :
  fst (launch st) = Ok (Some pid) ->
  exists cfg process,
    core_launch env cfg = Ok process /\
    ChildProcess.pid process = Some pid /\
    fst (kill pid (snd (launch st))) = Ok (Some process) /\
    processes (snd (kill pid (snd (launch st)))) = delete (Some pid) (processes st).
Proof.
  intros H. pose proof (launch_started_at st) as S. rewrite H in S.
  destruct S as (version & cfg & process & _ & Hl & Hpid & Hreg & _).
  exists cfg, process. unfold kill. simpl. rewrite Hreg, Hpid.
  rewrite lookup_insert_eq, delete_insert_eq. auto.
Qed.

(** X20. A process the core launcher spawns without a pid is registered
    under the key of the undefined pid, where no [kill] reaches it:
    whatever the pid, [kill] then kills what was registered under it
    before the launch, and the spawned process stays in the registry. *)
Theorem launch_without_pid_unreachable st pid :
  fst (launch st) = Ok None ->
  exists cfg process,
    core_launch env cfg = Ok process /\
    ChildProcess.pid process = None /\
    fst (kill pid (snd (launch st))) = Ok (processes st !! Some pid) /\
    processes (snd (kill pid (snd (launch st)))) !! None = Some process.
Proof.
  intros H. pose proof (launch_started_at st) as S. rewrite H in S.
  destruct S as (version & cfg & process & _ & Hl & Hpid & Hreg & _).
  exists cfg, process. unfold kill. simpl. rewrite Hreg.
  rewrite lookup_insert_ne by discriminate.
  rewrite lookup_delete_ne by discriminate.
  rewrite lookup_insert_eq. auto.
Qed.

(** ** The configuration handed to the core launcher *)

Lemma quiet_hands P c : quiet c -> hands P c.
Proof. destruct c; simpl; auto; contradiction. Qed.

Lemma generateArguments_built :
  emitsOn calls (hands (Built env AUTHORITY_DEV options)) generateArguments.
Proof.
  unfold LaunchService.generateArguments.
  apply emitsOn_tryCatch; [|intros e; apply calling_rethrow].
  unfold generateArgumentsBody.
  apply (emitsOn_bind_post calls _
           (fun ov => forall v, ov = Some v ->
              nonEmpty (LaunchOptions.version options) = true /\
              Version_parse env (getPath env) (LaunchOptions.version options) = Ok v));
    [eapply emitsOn_weaken; [apply quiet_hands|apply resolveVersion_quiet]
    |apply resolveVersion_post|].
  intros [version|] Hv; [|apply emitsOn_throw].
  destruct (Hv version eq_refl) as (Hne & Hparse).
  destruct (negb (nonEmpty (LaunchOptions.java options))); [apply emitsOn_throw|].
  apply (emitsOn_bind_post calls _
           (fun token => token = match LaunchOptions.user options with
                                 | Some u => tokenOf env u
                                 | None => None
                                 end));
    [eapply emitsOn_weaken; [apply quiet_hands|apply getAccessToken_quiet]
    |intros st token H; exact (getAccessToken_post _ st token H)|].
  intros token ->.
  apply (emitsOn_bind_post calls _
           (fun cfg => fst (generateOptions options version
                              match LaunchOptions.user options with
                              | Some u => tokenOf env u
                              | None => None
                              end init) = Ok cfg));
    [eapply emitsOn_weaken; [apply quiet_hands|apply generateOptions_quiet]
    |intros st cfg H; rewrite generateOptions_state in H; exact H|].
  intros cfg Hcfg.
  apply emitsOn_bind; [|intros args; apply emitsOn_ret].
  apply calling_call. simpl.
  destruct (generateOptions_user _ _ _ _ Hcfg) as (user & Hu).
  rewrite Hu in Hcfg. exists version, user. auto.
Qed.

Lemma launch_built :
  emitsOn calls (hands (Built env AUTHORITY_DEV options)) launch.
Proof.
  eapply emitsOn_weaken; [|apply launch_handsOver].
  intros [] [H G]; simpl in *; try exact I; [discriminate G|].
  destruct H as (version & user & _ & Hp & _ & _ & Hu & Hc).
  exists version, user. auto.
Qed.

(** What holds of each configuration [#generateOptions] builds holds of
    each configuration an entry point hands to the core launcher. *)
Lemma entry_points_hand (P : LaunchOption.t -> Prop) :
  (forall cfg, Built env AUTHORITY_DEV options cfg -> P cfg) ->
  emitsOn calls (hands P) launch /\ emitsOn calls (hands P) generateArguments.
Proof.
  intros H. split;
    (eapply emitsOn_weaken; [|first [apply launch_built|apply generateArguments_built]]);
    intros []; simpl; auto.
Qed.

(** [withoutEmpty] leaves one list only. *)
Lemma withoutEmpty_unique given args args' :
  withoutEmpty given args -> withoutEmpty given args' -> args = args'.
Proof.
  intros H. revert args'.
  induction H as [|given args H IH|a given args Ha H IH]; intros args' H'.
  - inversion H'. reflexivity.
  - inversion H' as [|g r Hr|b g r Hb Hr]; subst; [apply IH, Hr|congruence].
  - inversion H' as [|g r Hr|b g r Hb Hr]; subst; [congruence|].
    f_equal. apply IH, Hr.
Qed.

Lemma filter_withoutEmpty given : withoutEmpty given (List.filter nonEmpty given).
Proof.
  induction given as [|a l IH]; simpl; [constructor|].
  unfold nonEmpty at 1. destruct (String.eqb_spec a "") as [->|Ha]; simpl.
  - apply withoutEmpty_drop, IH.
  - apply withoutEmpty_keep; [exact Ha|exact IH].
Qed.

Lemma filter_cleaned given : cleaned given (option_map (List.filter nonEmpty) given).
Proof.
  destruct given as [given|]; simpl; [apply filter_withoutEmpty|exact I].
Qed.

Lemma Built_arguments cfg :
  Built env AUTHORITY_DEV options cfg ->
  cleaned (LaunchOptions.vmOptions options) (LaunchOption.extraJVMArgs cfg) /\
  cleaned (LaunchOptions.mcOptions options) (LaunchOption.extraMCArgs cfg).
Proof.
  intros (version & user & _ & Hu & H). revert H.
  unfold LaunchService.generateOptions, getAddress, bind, ret, throw. rewrite Hu.
  destruct (LaunchOptions.server options) as [server|].
  - destruct (String.eqb _ _);
      [destruct (serverAddress env) as [[a|port]|]; [destruct (nonEmpty a)| |]|];
      simpl; intros H; try discriminate H; injection H as <-; simpl;
      split; apply filter_cleaned.
  - simpl. intros H. injection H as <-. simpl. split; apply filter_cleaned.
Qed.

Lemma Built_connects cfg :
  Built env AUTHORITY_DEV options cfg -> connects env AUTHORITY_DEV options cfg.
Proof.
  intros (version & user & _ & Hu & H). revert H.
  unfold LaunchService.generateOptions, getAddress, connects, bind, ret, throw.
  rewrite Hu.
  destruct (LaunchOptions.server options) as [server|].
  - destruct (String.eqb _ _) eqn:Hh.
    + apply String.eqb_eq in Hh.
      destruct (serverAddress env) as [a|] eqn:Ha; [|discriminate].
      destruct a as [a|port]; [destruct (nonEmpty a)|]; simpl; intros H;
        try discriminate H; injection H as <-; simpl;
        (eexists; split; [reflexivity|]); split; try congruence;
        intros _; eexists; split; reflexivity.
    + apply String.eqb_neq in Hh. simpl. intros H. injection H as <-. simpl.
      eexists; split; [reflexivity|]. split; congruence.
  - simpl. intros H. injection H as <-. reflexivity.
Qed.

Lemma Built_credentials cfg :
  Built env AUTHORITY_DEV options cfg -> credentials env options cfg.
Proof.
  intros (version & user & _ & Hu & H). revert H.
  unfold LaunchService.generateOptions, getAddress, credentials, bind, ret, throw.
  rewrite Hu. intros H. exists user. split; [reflexivity|]. revert H.
  destruct (LaunchOptions.server options) as [server|].
  - destruct (String.eqb _ _);
      [destruct (serverAddress env) as [[a|port]|]; [destruct (nonEmpty a)| |]|];
      simpl; intros H; try discriminate H; injection H as <-; simpl; auto.
  - simpl. intros H. injection H as <-. simpl. auto.
Qed.

(** X21. The extra JVM arguments and the extra game arguments that reach
    the core launcher, from either entry point, are those of the request
    without the empty strings: read from left to right, each empty string
    is left out and each other argument is kept, as often as it occurs; a
    request without such a list passes none. *)
Theorem entry_points_drop_empty_arguments :
  let P cfg :=
    cleaned (LaunchOptions.vmOptions options) (LaunchOption.extraJVMArgs cfg) /\
    cleaned (LaunchOptions.mcOptions options) (LaunchOption.extraMCArgs cfg) in
  emitsOn calls (hands P) launch /\ emitsOn calls (hands P) generateArguments.
Proof. cbv zeta. apply entry_points_hand. exact Built_arguments. Qed.

(** X22. The server a handed configuration joins is the server of the
    request: same port, and the same host unless the host is
    [AUTHORITY_DEV], which is replaced by the address the launcher's own
    authority listens at.  A request without a server gives a
    configuration without one. *)
Theorem entry_points_connect_to_requested_server :
  emitsOn calls (hands (connects env AUTHORITY_DEV options)) launch /\
  emitsOn calls (hands (connects env AUTHORITY_DEV options)) generateArguments.
Proof. apply entry_points_hand. exact Built_connects. Qed.

(** X23. The credentials of a handed configuration are those of the user
    of the request: the game profile is the selected profile of that user
    (none when the selection names no profile) and the access token is the
    one the token storage holds for that user (none when the storage
    rejects). *)
Theorem entry_points_pass_credentials :
  emitsOn calls (hands (credentials env options)) launch /\
  emitsOn calls (hands (credentials env options)) generateArguments.
Proof. apply entry_points_hand. exact Built_credentials. Qed.

(** ** The address of the offline authority *)

(** X24. When the server of the launcher listens on a pipe, [getAddress]
    keeps of its name what starts at the first colon: a name [a:b] gives
    [http://localhost:b/yggdrasil], and a name without a colon that is not
    empty is appended as a whole, since [substring(-1)] is the whole
    string.  The empty name fails the test [if (address)]: [getAddress]
    throws its [Unexpected state] error. *)
Theorem getAddress_of_pipe address st :
  serverAddress env = Some (PipeAddress address) ->
  (address = ""%string ->
   getAddress env st = (Throw (ThrownError (notInitialized env)), st)) /\
  (address <> ""%string -> lacks ":" address = true ->
   getAddress env st = (Ok ("http://localhost" ++ address ++ "/yggdrasil")%string, st)) /\
  (forall a b, address = (a ++ ":" ++ b)%string -> lacks ":" a = true ->
   getAddress env st = (Ok ("http://localhost:" ++ b ++ "/yggdrasil")%string, st)).
Proof.
  intros H. unfold getAddress. rewrite H. unfold ret.
  change ("http://localhost" ++ substringFrom address (indexOf address ":")
          ++ "/yggdrasil")%string with (localAuthority (PipeAddress address)).
  split; [|split].
  - intros ->. reflexivity.
  - intros Hne Hl.
    replace (nonEmpty address) with true
      by (symmetry; apply negb_true_iff, String.eqb_neq, Hne).
    rewrite StringMore.localAuthority_bare by exact Hl. reflexivity.
  - intros a b -> Hl.
    replace (nonEmpty (a ++ ":" ++ b)) with true by (destruct a; reflexivity).
    rewrite StringMore.localAuthority_port by exact Hl. reflexivity.
Qed.

Lemma generateOptions_unavailable server version token st :
  LaunchOptions.server options = Some server ->
  ServerOptions.host server = AUTHORITY_DEV ->
  serverAddress env = None ->
  isOk (fst (generateOptions options version token st)) = false.
Proof.
  intros Hs Hh Ha.
  unfold LaunchService.generateOptions, getAddress, bind, ret, throw.
  destruct (LaunchOptions.user options); [|reflexivity].
  rewrite Hs, Hh, String.eqb_refl, Ha. reflexivity.
Qed.

(** X25. A request for the server [AUTHORITY_DEV] while the launcher's own
    server has no address fails in both entry points before the java
    service is asked and before anything is handed to the core launcher;
    for a request that is complete otherwise, [generateArguments] throws
    the [launchGeneralException] that wraps the error of [getAddress]. *)
Theorem entry_points_authority_unavailable server st :
  LaunchOptions.server options = Some server ->
  ServerOptions.host server = AUTHORITY_DEV ->
  serverAddress env = None ->
  emitsOn calls (fun c => preflight c = true) launch /\
  emitsOn calls (fun c => preflight c = true) generateArguments /\
  isOk (fst (launch st)) = false /\
  isOk (fst (generateArguments st)) = false /\
  (forall version user,
     nonEmpty (LaunchOptions.version options) = true ->
     Version_parse env (getPath env) (LaunchOptions.version options) = Ok version ->
     nonEmpty (LaunchOptions.java options) = true ->
     LaunchOptions.user options = Some user ->
     fst (generateArguments st) =
       Throw (ThrownLaunch
                {| LaunchException.exception := launchGeneralException (notInitialized env);
                   LaunchException.message := None |})).
Proof.
  intros Hs Hh Ha.
  pose proof (fun version token st =>
                generateOptions_unavailable server version token st Hs Hh Ha) as Hg.
  assert (Hpost : forall version token st cfg,
            fst (generateOptions options version token st) = Ok cfg -> False).
  { intros version token st0 cfg H. specialize (Hg version token st0).
    rewrite H in Hg. discriminate Hg. }
  split; [|split; [|split; [|split]]].
  - unfold LaunchService.launch, LaunchService.launchBody.
    apply emitsOn_tryCatch; [|intros e; apply calling_rethrow].
    apply emitsOn_bind;
      [unfold resolveVersion; repeat calling_step; reflexivity|].
    intros [version|]; [|apply emitsOn_throw].
    apply emitsOn_bind;
      [unfold checkAssets; repeat calling_step; reflexivity|].
    intros _. destruct (negb _); [apply emitsOn_throw|].
    apply emitsOn_bind;
      [unfold getAccessToken; repeat calling_step; reflexivity|].
    intros token.
    apply (emitsOn_bind_post calls _ (fun _ => False));
      [unfold LaunchService.generateOptions, getAddress; repeat calling_step;
       reflexivity
      |intros st0 cfg H; exact (Hpost _ _ _ _ H)
      |intros cfg []].
  - unfold LaunchService.generateArguments, generateArgumentsBody.
    apply emitsOn_tryCatch; [|intros e; apply calling_rethrow].
    apply emitsOn_bind;
      [unfold resolveVersion; repeat calling_step; reflexivity|].
    intros [version|]; [|apply emitsOn_throw].
    destruct (negb _); [apply emitsOn_throw|].
    apply emitsOn_bind;
      [unfold getAccessToken; repeat calling_step; reflexivity|].
    intros token.
    apply (emitsOn_bind_post calls _ (fun _ => False));
      [unfold LaunchService.generateOptions, getAddress; repeat calling_step;
       reflexivity
      |intros st0 cfg H; exact (Hpost _ _ _ _ H)
      |intros cfg []].
  - unfold LaunchService.launch, LaunchService.launchBody, tryCatch, bind.
    destruct (resolveVersion env options st) as [[[v|]|e] st1];
      [|reflexivity|destruct e; reflexivity].
    match goal with
    | |- context [?m st1] =>
        match m with
        | (if _ then _ else _) => destruct (m st1) as [[[]|e] st2]
        end
    end; [|destruct e; reflexivity].
    destruct (negb _); [reflexivity|].
    destruct (getAccessToken env (LaunchOptions.user options) st2) as [[token|e] st3];
      [|destruct e; reflexivity].
    specialize (Hg v token st3).
    destruct (generateOptions options v token st3) as [[cfg|e] st4];
      [discriminate Hg|destruct e; reflexivity].
  - unfold LaunchService.generateArguments, generateArgumentsBody, tryCatch, bind.
    destruct (resolveVersion env options st) as [[[v|]|e] st1];
      [|reflexivity|destruct e; reflexivity].
    destruct (negb _); [reflexivity|].
    destruct (getAccessToken env (LaunchOptions.user options) st1) as [[token|e] st3];
      [|destruct e; reflexivity].
    specialize (Hg v token st3).
    destruct (generateOptions options v token st3) as [[cfg|e] st4];
      [discriminate Hg|destruct e; reflexivity].
  - intros version user Hne Hp Hj Hu.
    unfold LaunchService.generateArguments, generateArgumentsBody, resolveVersion,
      getAccessToken, LaunchService.generateOptions, getAddress, notInitialized,
      tryCatch, bind, call, record, lift, ret, throw.
    rewrite Hne, Hp, Hj, Hu, Hs, Hh, String.eqb_refl, Ha. simpl.
    destruct (userTokenStorage_get env user); reflexivity.
Qed.

End Launch.

Lemma launch_without_version_witness :
  let options := MoreSamples.launchOptions "" "/usr/bin/java" None in
  launch (Samples.environment Okay) "dev" options init
    = (Throw (noVersionInstalled options), init) /\
  generateArguments (Samples.environment Okay) "dev" options init
    = (Throw (noVersionInstalled options), init).
Proof.
  exact (launch_without_version (Samples.environment Okay) "dev"
           (MoreSamples.launchOptions "" "/usr/bin/java" None) init
           (or_introl eq_refl)).
Defined.

Lemma launch_without_java_witness :
  let env := Samples.environment Okay in
  let options := MoreSamples.launchOptions "1.20.1" "" None in
  emitsOn calls (fun c => isVersionParse c || isAssetsCall c = true)
    (launch env "dev" options) /\
  isOk (fst (launch env "dev" options init)) = false /\
  emitsOn calls (fun c => isVersionParse c = true)
    (generateArguments env "dev" options) /\
  (fst (generateArguments env "dev" options init) = Throw (noVersionInstalled options) \/
   fst (generateArguments env "dev" options init) = Throw (noProperJava "")).
Proof.
  exact (launch_without_java (Samples.environment Okay) "dev"
           (MoreSamples.launchOptions "1.20.1" "" None) init eq_refl).
Defined.

Lemma launch_skips_assets_check_witness :
  emitsOn calls (fun c => isAssetsCall c = false)
    (launch (Samples.environment Okay) "dev" (Samples.launchOptions (Some Samples.user))).
Proof.
  exact (launch_skips_assets_check (Samples.environment Okay) "dev"
           (Samples.launchOptions (Some Samples.user)) eq_refl).
Defined.

Lemma launch_then_kill_witness :
  let env := MoreSamples.environment None Samples.child in
  let options := MoreSamples.launchOptions "1.20.1" "/usr/bin/java" None in
  exists cfg process,
    core_launch env cfg = Ok process /\
    ChildProcess.pid process = Some 4242%Z /\
    fst (kill 4242 (snd (launch env "dev" options init))) = Ok (Some process) /\
    processes (snd (kill 4242 (snd (launch env "dev" options init))))
      = delete (Some 4242%Z) (processes init).
Proof.
  refine (launch_then_kill (MoreSamples.environment None Samples.child) "dev"
            (MoreSamples.launchOptions "1.20.1" "/usr/bin/java" None) init 4242 _).
  vm_compute. reflexivity.
Defined.

Lemma launch_without_pid_unreachable_witness :
  let env := MoreSamples.environment None MoreSamples.orphan in
  let options := MoreSamples.launchOptions "1.20.1" "/usr/bin/java" None in
  exists cfg process,
    core_launch env cfg = Ok process /\
    ChildProcess.pid process = None /\
    fst (kill 4242 (snd (launch env "dev" options init)))
      = Ok (processes init !! Some 4242%Z) /\
    processes (snd (kill 4242 (snd (launch env "dev" options init)))) !! None
      = Some process.
Proof.
  refine (launch_without_pid_unreachable
            (MoreSamples.environment None MoreSamples.orphan) "dev"
            (MoreSamples.launchOptions "1.20.1" "/usr/bin/java" None) init 4242 _).
  vm_compute. reflexivity.
Defined.

Lemma getAddress_of_pipe_witness :
  getAddress (MoreSamples.environment (Some (PipeAddress "pipe:25565")) Samples.child)
    init = (Ok "http://localhost:25565/yggdrasil"%string, init).
Proof.
  exact (proj2 (proj2 (getAddress_of_pipe
                         (MoreSamples.environment (Some (PipeAddress "pipe:25565"))
                            Samples.child)
                         "pipe:25565" init eq_refl))
           "pipe"%string "25565"%string eq_refl eq_refl).
Defined.

Lemma entry_points_authority_unavailable_witness :
  let env := MoreSamples.environment None Samples.child in
  isOk (fst (launch env "dev" MoreSamples.toAuthority init)) = false /\
  fst (generateArguments env "dev" MoreSamples.toAuthority init) =
    Throw (ThrownLaunch
             {| LaunchException.exception := launchGeneralException (notInitialized env);
                LaunchException.message := None |}).
Proof.
  pose proof (entry_points_authority_unavailable
                (MoreSamples.environment None Samples.child) "dev"
                MoreSamples.toAuthority
                {| ServerOptions.host := "dev"; ServerOptions.port := Some 25565%Z |}
                init eq_refl eq_refl eq_refl) as (_ & _ & H1 & _ & H2).
  split; [exact H1|].
  exact (H2 Samples.resolved Samples.user eq_refl eq_refl eq_refl eq_refl).
Defined.

End LaunchMore.

(** * More facts about the handlers *)

Module HandlersMore.
Import LaunchService Handlers HandlersSpec StringFacts StringMore HandlersFacts.

#[local] Arguments String.append !_ _ / : simpl nomatch.

Lemma filter_snoc {A} (f : A -> bool) l a :
  List.filter f (l ++ [a]) = List.filter f l ++ (if f a then [a] else []).
Proof. rewrite List.filter_app. simpl. destruct (f a); reflexivity. Qed.

Lemma exitEvents_snoc evs e :
  exitEvents (evs ++ [e]) = exitEvents evs ++ exitEventIn e.
Proof.
  unfold exitEvents. rewrite flat_map_app. simpl. rewrite app_nil_r. reflexivity.
Qed.

Lemma exitEvents_In evs ev : In (minecraft_exit ev) evs -> In ev (exitEvents evs).
Proof.
  intros H. unfold exitEvents. apply in_flat_map.
  exists (minecraft_exit ev). split; [exact H|left; reflexivity].
Qed.

Section Tracking.

Variable encoder : EncodingWorker.
Variable UTF8 : string.
Variable EOL : string.
Variable p : ChildProcess.t.
Variable o : LaunchOptions.t.
Variable now : Z.
Variable registry : gmap (option Z) ChildProcess.t.

Abbreviation step := (step encoder UTF8 EOL).
Abbreviation run := (run encoder UTF8 EOL).
Abbreviation decodeChunk := (decodeChunk encoder UTF8).
Abbreviation linesOf := (linesOf EOL).
Abbreviation announced := (announced EOL).
Abbreviation caused := (caused encoder UTF8 p o).
Abbreviation Tracks := (Tracks encoder UTF8 EOL p o now registry).

Lemma linesOf_snoc evs e :
  linesOf (evs ++ [e]) =
  linesOf evs ++ flat_map (fun text => split text EOL) (stderrText e).
Proof.
  unfold HandlersSpec.linesOf, stderrTexts. rewrite !flat_map_app. simpl.
  rewrite app_nil_r. reflexivity.
Qed.

Lemma announced_snoc evs ev e :
  announced evs ev -> exitEventIn e = [] -> announced (evs ++ [e]) ev.
Proof.
  intros (pre & post & -> & Hpre & Hpost & Hlog) He.
  exists pre, (post ++ [e]). rewrite <- app_assoc. simpl.
  repeat split; auto. rewrite exitEvents_snoc, Hpost, He. reflexivity.
Qed.

(** An exit event that was announced is the only one. *)
Lemma announced_only evs ev ev' :
  announced evs ev -> In (minecraft_exit ev') evs -> ev' = ev.
Proof.
  intros (pre & post & -> & Hpre & Hpost & _) Hin.
  apply exitEvents_In in Hin. unfold exitEvents in Hin.
  rewrite flat_map_app in Hin. cbn [flat_map] in Hin.
  fold (exitEvents pre) in Hin. fold (exitEvents post) in Hin.
  rewrite Hpre, Hpost in Hin. simpl in Hin. destruct Hin as [<-|[]]. reflexivity.
Qed.

Lemma caused_more acts a e : caused acts e -> caused (acts ++ [a]) e.
Proof.
  destruct e; simpl; auto.
  - intros (Hp & buf & Hin & Hd). split; [exact Hp|]. exists buf.
    split; [apply in_or_app; auto|exact Hd].
  - intros (Hp & buf & Hin & Hd). split; [exact Hp|]. exists buf.
    split; [apply in_or_app; auto|exact Hd].
  - intros (Hp & Ho & Hin). repeat split; auto. apply in_or_app; auto.
  - intros (err & Hin & He). exists err. split; [apply in_or_app; auto|exact He].
Qed.

Lemma promises_more acts a (l : list (Buffer * PromiseState)) :
  Forall (fun q => In (StderrData (fst q)) acts) l ->
  Forall (fun q => In (StderrData (fst q)) (acts ++ [a])) l.
Proof.
  intros H. eapply Forall_impl; [exact H|]. intros q Hq. apply in_or_app; auto.
Qed.

Lemma setPromise_promises acts i st s :
  Forall (fun q => In (StderrData (fst q)) acts) (errPromises s) ->
  Forall (fun q => In (StderrData (fst q)) acts) (errPromises (setPromise i st s)).
Proof.
  intros H. unfold setPromise. simpl.
  destruct (errPromises s !! i) as [[buf st0]|] eqn:Hi; [|exact H].
  apply Forall_insert; [exact H|].
  exact (Forall_lookup_1 _ _ _ _ H Hi).
Qed.

Lemma tracks_start : Tracks [] (start p o now registry).
Proof.
  constructor; simpl; auto; try discriminate.
Qed.

(** A step that reports no exit and emits at most one event, which is no
    exit event. *)
Lemma tracks_update acts a s s' :
  Tracks acts s ->
  isWatcherExit a = false ->
  process s' = process s -> options s' = options s ->
  startTime s' = startTime s -> processes s' = processes s ->
  phase s' = phase s ->
  (emitted s' = emitted s /\ errorLogs s' = errorLogs s \/
   exists e,
     emitted s' = emitted s ++ [e] /\
     errorLogs s' =
       errorLogs s ++ flat_map (fun text => split text EOL) (stderrText e) /\
     exitEventIn e = [] /\ caused (acts ++ [a]) e) ->
  Forall (fun q => In (StderrData (fst q)) (acts ++ [a])) (errPromises s') ->
  Tracks (acts ++ [a]) s'.
Proof.
  intros [Hp Ho Hs Hr Hl Hq Hc Ha He Hx] Hne E1 E2 E3 E4 E5 Hem Hpr.
  assert (Hf : List.filter isWatcherExit (acts ++ [a]) = List.filter isWatcherExit acts)
    by (rewrite filter_snoc, Hne, app_nil_r; reflexivity).
  assert (Hh : hasExit (acts ++ [a]) = hasExit acts)
    by (rewrite hasExit_snoc, Hne, orb_false_r; reflexivity).
  assert (Hev : exitEvents (emitted s') = exitEvents (emitted s)).
  { destruct Hem as [[Em _]|(e & Em & _ & Hn & _)]; rewrite Em; [reflexivity|].
    rewrite exitEvents_snoc, Hn, app_nil_r. reflexivity. }
  constructor; rewrite ?Hf, ?Hh, ?Hev, ?E5; try congruence;
    try exact Ha; try exact He.
  - destruct Hem as [[Em El]|(e & Em & El & _ & _)]; rewrite El, Em.
    + exact Hl.
    + rewrite linesOf_snoc, Hl. reflexivity.
  - destruct Hem as [[Em _]|(e & Em & _ & _ & Hce)]; rewrite Em.
    + eapply Forall_impl; [exact Hc|]. intros e. apply caused_more.
    + apply Forall_app. split; [|constructor; [exact Hce|constructor]].
      eapply Forall_impl; [exact Hc|]. intros e0. apply caused_more.
  - intros H. destruct (Hx H) as (Hh' & a0 & ev & Hfa & Hca & Han).
    split; [exact Hh'|]. exists a0, ev. repeat split; auto.
    destruct Hem as [[Em _]|(e & Em & _ & Hn & _)]; rewrite Em; [exact Han|].
    apply announced_snoc; assumption.
Qed.

Lemma reports_carries a pe s :
  reports now a pe -> startTime s = now -> carries now a (exitEvent s pe).
Proof.
  destruct a; simpl; auto. intros (-> & -> & -> & -> & Hl) _.
  repeat split; try reflexivity.
  unfold exitCrashReportLocation. rewrite Hl. reflexivity.
Qed.

Lemma tracks_step acts a s s' :
  Tracks acts s -> step a s = Some s' -> Tracks (acts ++ [a]) s'.
Proof.
  intros T Hstep. pose proof T as [Hp Ho Hs Hr Hl Hq Hc Ha He Hx].
  destruct a as [buf|buf|i|err|code signal crashReport loc endTime| |];
    unfold Handlers.step in Hstep.
  - (* stderr data *)
    destruct (ChildProcess.hasStderr (process s)); [|discriminate Hstep].
    injection Hstep as <-.
    apply (tracks_update acts _ s); simpl; auto.
    apply Forall_app. split; [apply promises_more, Hq|].
    constructor; [|constructor]. simpl. apply in_or_app. right. left. reflexivity.
  - (* stdout data *)
    destruct (ChildProcess.hasStdout (process s)); [|discriminate Hstep].
    destruct (Handlers.decodeChunk encoder UTF8 buf) as [result|e] eqn:Hd;
      injection Hstep as <-.
    + apply (tracks_update acts _ s); simpl; auto using promises_more.
      right. eexists. split; [reflexivity|]. simpl. rewrite app_nil_r.
      repeat split; try congruence.
      exists buf. split; [apply in_or_app; right; left; reflexivity|exact Hd].
    + apply (tracks_update acts _ s); simpl; auto using promises_more.
  - (* the decoding of a stderr chunk is over *)
    destruct (errPromises s !! i) as [[buf []]|] eqn:Hi; try discriminate Hstep.
    pose proof (Forall_lookup_1 _ _ _ _ Hq Hi) as Hin. simpl in Hin.
    destruct (Handlers.decodeChunk encoder UTF8 buf) as [result|e] eqn:Hd;
      injection Hstep as <-.
    + apply (tracks_update acts _ s); simpl; auto.
      * right. eexists. split; [reflexivity|]. simpl. rewrite app_nil_r.
        repeat split; try congruence.
        exists buf. split; [apply in_or_app; left; exact Hin|exact Hd].
      * apply promises_more.
        apply (setPromise_promises acts i Fulfilled
                 (pushLines (split result EOL)
                    (emitEvent (minecraft_stderr (ChildProcess.pid (process s)) result)
                       s))).
        exact Hq.
    + apply (tracks_update acts _ s); simpl; auto.
      apply promises_more. apply (setPromise_promises acts i Rejected s). exact Hq.
  - (* error of the watcher *)
    injection Hstep as <-.
    apply (tracks_update acts _ s); simpl; auto using promises_more.
    right. eexists. split; [reflexivity|]. simpl. rewrite app_nil_r.
    repeat split; try congruence.
    eexists. split; [apply in_or_app; right; left; reflexivity|reflexivity].
  - (* exit reported by the watcher *)
    destruct (phase s) eqn:Hph; try discriminate Hstep.
    injection Hstep as <-. destruct (Ha eq_refl) as (Hh & Hf & Hev).
    constructor; simpl; auto using promises_more; try discriminate.
    + rewrite hasExit_snoc, Hh. simpl. rewrite Hr, Hh, Hp. reflexivity.
    + eapply Forall_impl; [exact Hc|]. intros e. apply caused_more.
    + intros pe Hpe. injection Hpe as <-.
      rewrite hasExit_snoc, filter_snoc, Hf, Hh. simpl.
      split; [reflexivity|]. split; [|exact Hev].
      eexists. split; [reflexivity|]. simpl. rewrite Hs. auto 10.
  - (* window of the game *)
    injection Hstep as <-.
    apply (tracks_update acts _ s); simpl; auto using promises_more.
    right. eexists. split; [reflexivity|]. simpl. rewrite app_nil_r.
    repeat split; try congruence.
    apply in_or_app; right; left; reflexivity.
  - (* the callback of finally *)
    destruct (phase s) as [|pe|] eqn:Hph; try discriminate Hstep.
    destruct (allSettled _); [|discriminate Hstep].
    injection Hstep as <-. destruct (He pe eq_refl) as (Hh & (a & Hf & Hrep) & Hev).
    assert (Hf' : List.filter isWatcherExit (acts ++ [Finally]) = [a])
      by (rewrite filter_snoc, Hf; reflexivity).
    assert (Hh' : hasExit (acts ++ [Finally]) = true)
      by (rewrite hasExit_snoc, Hh; reflexivity).
    constructor; simpl; auto using promises_more; try discriminate.
    + rewrite Hh'. rewrite Hh in Hr. exact Hr.
    + rewrite linesOf_snoc. simpl. rewrite app_nil_r. exact Hl.
    + apply Forall_app. split.
      * eapply Forall_impl; [exact Hc|]. intros e. apply caused_more.
      * constructor; [|constructor]. simpl. split; congruence.
    + intros _. split; [exact Hh'|]. exists a, (exitEvent s pe).
      split; [exact Hf'|]. split; [apply reports_carries; assumption|].
      exists (emitted s), []. repeat split; auto.
      simpl. rewrite Hl. reflexivity.
Qed.

Lemma tracks_run acts s :
  run acts (start p o now registry) = Some s -> Tracks acts s.
Proof.
  revert s. induction acts as [|a acts IH] using rev_ind; intros s Hrun.
  - injection Hrun as <-. apply tracks_start.
  - rewrite run_snoc in Hrun.
    destruct (run acts (start p o now registry)) as [s0|]; [|discriminate Hrun].
    exact (tracks_step acts a s0 s (IH s0 eq_refl) Hrun).
Qed.

(** An exit event is only there once the callback of [finally] ran. *)
Lemma exit_event_exited acts s ev :
  Tracks acts s -> In (minecraft_exit ev) (emitted s) -> phase s = Exited.
Proof.
  intros T Hin. apply exitEvents_In in Hin.
  destruct (phase s) as [|pe|] eqn:Hph; [| |reflexivity].
  - destruct (tr_alive _ _ _ _ _ _ _ _ _ T Hph) as (_ & _ & Hev).
    rewrite Hev in Hin. destruct Hin.
  - destruct (tr_exiting _ _ _ _ _ _ _ _ _ T pe Hph) as (_ & _ & Hev).
    rewrite Hev in Hin. destruct Hin.
Qed.

(** X26. The handlers touch the registry once: the process is removed
    from it in the step in which the watcher reports the exit.  Until then
    the registry is the one [launch] left; from then on, and so whenever an
    exit event has been emitted, it is that one without the pid of the
    process. *)
Theorem registry_loses_process_at_exit acts s :
  run acts (start p o now registry) = Some s ->
  processes s =
    (if hasExit acts then delete (ChildProcess.pid p) registry else registry) /\
  (forall ev, In (minecraft_exit ev) (emitted s) ->
     processes s = delete (ChildProcess.pid p) registry).
Proof.
  intros Hrun. pose proof (tracks_run acts s Hrun) as T.
  pose proof (tr_registry _ _ _ _ _ _ _ _ _ T) as Hr. split; [exact Hr|].
  intros ev Hin. pose proof (exit_event_exited acts s ev T Hin) as Hph.
  destruct (tr_exited _ _ _ _ _ _ _ _ _ T Hph) as (Hh & _).
  rewrite Hh in Hr. exact Hr.
Qed.

(** X27. An exit event carries the pid of the process and the options of
    the launch, and what the watcher reported: the run holds one report of
    an exit, and the code, the signal and the crash report of the event are
    those of that report, its duration is the time of the report minus the
    time of the start, and its location is the reported one, cut and
    trimmed. *)
Theorem exit_event_carries_report acts s ev :
  run acts (start p o now registry) = Some s ->
  In (minecraft_exit ev) (emitted s) ->
  ExitEvent.pid ev = ChildProcess.pid p /\
  ExitEvent.options ev = o /\
  exists a, List.filter isWatcherExit acts = [a] /\ carries now a ev.
Proof.
  intros Hrun Hin. pose proof (tracks_run acts s Hrun) as T.
  pose proof (tr_caused _ _ _ _ _ _ _ _ _ T) as Hc.
  rewrite List.Forall_forall in Hc. destruct (Hc _ Hin) as (Hpid & Hopt).
  split; [exact Hpid|]. split; [exact Hopt|].
  pose proof (exit_event_exited acts s ev T Hin) as Hph.
  destruct (tr_exited _ _ _ _ _ _ _ _ _ T Hph) as (_ & a & ev' & Hf & Hca & Han).
  rewrite (announced_only _ _ _ Han Hin). exists a. auto.
Qed.

(** X28. There is at most one exit event, and its error log is the join,
    by line feeds, of the lines of the stderr events emitted before it, and
    of nothing else.  Where the end of line of the platform is the line
    feed, it is the join of the texts of these events. *)
Theorem exit_event_logs_stderr_events acts s ev :
  run acts (start p o now registry) = Some s ->
  In (minecraft_exit ev) (emitted s) ->
  exists pre post,
    emitted s = pre ++ minecraft_exit ev :: post /\
    exitEvents pre = [] /\ exitEvents post = [] /\
    ExitEvent.errorLog ev = join (linesOf pre) newline /\
    (EOL = newline -> ExitEvent.errorLog ev = join (stderrTexts pre) newline).
Proof.
  intros Hrun Hin. pose proof (tracks_run acts s Hrun) as T.
  pose proof (exit_event_exited acts s ev T Hin) as Hph.
  destruct (tr_exited _ _ _ _ _ _ _ _ _ T Hph) as (_ & a & ev' & _ & _ & Han).
  rewrite (announced_only _ _ _ Han Hin).
  destruct Han as (pre & post & Hem & Hpre & Hpost & Hlog).
  exists pre, post. repeat split; auto.
  intros HE. rewrite Hlog. unfold HandlersSpec.linesOf. rewrite HE.
  apply join_flat_map_split. intros E. discriminate E.
Qed.

(** X29. The handlers emit nothing of their own: each stdout or stderr
    event is the decoding of a chunk received on that stream, each window
    event follows one of the watcher, each error event wraps an error of
    the watcher, all carry the pid of the process, and no start event is
    emitted. *)
Theorem events_are_caused acts s :
  run acts (start p o now registry) = Some s ->
  Forall (caused acts) (emitted s).
Proof.
  intros Hrun. exact (tr_caused _ _ _ _ _ _ _ _ _ (tracks_run acts s Hrun)).
Qed.

End Tracking.

Lemma registry_loses_process_at_exit_witness :
  processes MoreSamples.quietExitEnd
    = delete (Some 4242%Z) {[ Some 4242%Z := Samples.child ]} /\
  (forall ev, In (minecraft_exit ev) (emitted MoreSamples.quietExitEnd) ->
     processes MoreSamples.quietExitEnd
       = delete (Some 4242%Z) {[ Some 4242%Z := Samples.child ]}).
Proof.
  exact (registry_loses_process_at_exit Samples.encoder "utf8" newline
           Samples.child (Samples.launchOptions (Some Samples.user)) 0%Z
           {[ Some 4242%Z := Samples.child ]} Samples.quietExit
           MoreSamples.quietExitEnd eq_refl).
Defined.

Lemma exit_event_carries_report_witness :
  let ev := Samples.exitEventOf "boom" in
  ExitEvent.pid ev = Some 4242%Z /\
  ExitEvent.options ev = Samples.launchOptions (Some Samples.user) /\
  exists a, List.filter isWatcherExit Samples.quietExit = [a] /\ carries 0 a ev.
Proof.
  refine (exit_event_carries_report Samples.encoder "utf8" newline
            Samples.child (Samples.launchOptions (Some Samples.user)) 0%Z
            {[ Some 4242%Z := Samples.child ]} Samples.quietExit
            MoreSamples.quietExitEnd (Samples.exitEventOf "boom") eq_refl _).
  simpl. right. left. reflexivity.
Defined.

Lemma exit_event_logs_stderr_events_witness :
  let ev := Samples.exitEventOf "boom" in
  exists pre post,
    emitted MoreSamples.quietExitEnd = pre ++ minecraft_exit ev :: post /\
    exitEvents pre = [] /\ exitEvents post = [] /\
    ExitEvent.errorLog ev = join (linesOf newline pre) newline /\
    (newline = newline -> ExitEvent.errorLog ev = join (stderrTexts pre) newline).
Proof.
  refine (exit_event_logs_stderr_events Samples.encoder "utf8" newline
            Samples.child (Samples.launchOptions (Some Samples.user)) 0%Z
            {[ Some 4242%Z := Samples.child ]} Samples.quietExit
            MoreSamples.quietExitEnd (Samples.exitEventOf "boom") eq_refl _).
  simpl. right. left. reflexivity.
Defined.

Lemma events_are_caused_witness :
  Forall (caused Samples.encoder "utf8" Samples.child
            (Samples.launchOptions (Some Samples.user)) Samples.quietExit)
    (emitted MoreSamples.quietExitEnd).
Proof.
  exact (events_are_caused Samples.encoder "utf8" newline
           Samples.child (Samples.launchOptions (Some Samples.user)) 0%Z
           {[ Some 4242%Z := Samples.child ]} Samples.quietExit
           MoreSamples.quietExitEnd eq_refl).
Defined.

(** X30. A reported location that holds no [.txt] is cut to its first
    three code units: [lastIndexOf] answers -1, and the location is cut at
    -1 + 4.  No location, or the empty one, gives the empty string. *)
Theorem crashReportLocation_without_extension l :
  occurs ".txt" l = false ->
  exitCrashReportLocation (Some l) =
    emittedCrashReportLocation (Some (substring l 0 3)) /\
  (nonEmpty l = true ->
   truncateCrashReportLocation (Some l) = Some (substring l 0 3)).
Proof.
  intros H.
  assert (Hcut : nonEmpty l = true ->
                 truncateCrashReportLocation (Some l) = Some (substring l 0 3)).
  { unfold nonEmpty, truncateCrashReportLocation, truthy. intros Hn.
    apply negb_true_iff in Hn. rewrite Hn. unfold lastIndexOf.
    rewrite (lastIndexOfFrom_absent ".txt" l 0 H). reflexivity. }
  split; [|exact Hcut].
  unfold exitCrashReportLocation. destruct (nonEmpty l) eqn:Hn.
  - rewrite Hcut by reflexivity. reflexivity.
  - unfold nonEmpty in Hn. apply negb_false_iff, String.eqb_eq in Hn. subst l.
    reflexivity.
Qed.

Lemma crashReportLocation_without_extension_witness :
  exitCrashReportLocation (Some "crash-report.log"%string) = "cra"%string /\
  truncateCrashReportLocation (Some "crash-report.log"%string) = Some "cra"%string.
Proof.
  pose proof (crashReportLocation_without_extension "crash-report.log" eq_refl)
    as [H1 H2].
  split; [exact H1|exact (H2 eq_refl)].
Defined.

End HandlersMore.
